(** * EventPerformanceLogger: the event timing correlator

    A shallow embedding of
    [packages/react-native/ReactCommon/react/renderer/observers/events/EventPerformanceLogger.cpp]
    and the properties its specification states about it.

    The logger owns a table [eventsInFlight_] from event tags to in-flight
    records, a tag counter, and a weak reference to the reporting sink
    ([PerformanceEntryReporter]).  Each entry point runs under the table's
    mutex, so an entry point is modelled as one atomic transition of a
    [World] made of the logger and of the sink it reports to. *)

From stdpp Require Import gmap strings list fin_maps.

Open Scope string_scope.
Open Scope list_scope.

(** ** Data model *)

(** Modelled from the spec: [SurfaceId], [HighResTimeStamp] and the duration
    type are declared in headers that are not among the sources.  The
    specification speaks of surface ids that are compared for equality and
    of timestamps whose difference is a duration; they are integers here,
    and overflow of the clock's representation is not modelled. *)
Abbreviation SurfaceId := Z (only parsing).
Abbreviation HighResTimeStamp := Z (only parsing).
Abbreviation HighResDuration := Z (only parsing).

(** Modelled from the spec: [EventTag] and [EMPTY_EVENT_TAG] are declared in a
    header that is not among the sources.  The specification describes a tag
    as "an opaque, process-wide monotonically increasing integer identifier"
    where 0 "denotes event not tracked"; the source itself returns the
    literal [0] for an unsupported event.  A tag is an unsigned integer of a
    fixed width; it is a natural number here, and the one operation that can
    leave the range, the increment of [createEventTag], wraps around as the
    increment of an unsigned integer does. *)
Abbreviation EventTag := N (only parsing).
Definition EMPTY_EVENT_TAG : EventTag := 0%N.

(** Modelled from the spec: the interaction id is "an opaque correlation id
    attached externally ...; may be absent".  Nothing in the source file
    assigns it, so every record carries the default. *)
Abbreviation PerformanceEntryInteractionId := (option N) (only parsing).
Definition defaultInteractionId : PerformanceEntryInteractionId := None.

(** An event target and a root shadow node are used only through
    [getSurfaceId()]; the shared pointers to them may be null. *)
Module EventTarget.
Record t := { getSurfaceId : SurfaceId }.
End EventTarget.

Module RootShadowNode.
Record t := { getSurfaceId : SurfaceId }.
End RootShadowNode.

Abbreviation SharedEventTarget := (option EventTarget.t) (only parsing).
Abbreviation SharedRootShadowNode := (option RootShadowNode.t) (only parsing).

(** [struct EventEntry], with the members that the source file reads and
    writes. *)
Record EventEntry := {
  name : string;
  target : SharedEventTarget;
  startTime : HighResTimeStamp;
  processingStartTime : option HighResTimeStamp;
  processingEndTime : option HighResTimeStamp;
  isWaitingForMount : bool;
  interactionId : PerformanceEntryInteractionId;
}.

(** Modelled from the spec: [onEventStart] builds the record as
    [EventEntry{reportedName, target, timeStamp}]; the defaults of the other
    members are in the header, which is not among the sources.  By the
    specification the processing timestamps are optional and set by the
    processing calls, and the waiting flag is "false until the correlator
    decides this event's visual effect has not yet committed". *)
Definition newEventEntry (reportedName : string) (tgt : SharedEventTarget)
    (timeStamp : HighResTimeStamp) : EventEntry :=
  {| name := reportedName; target := tgt; startTime := timeStamp;
     processingStartTime := None; processingEndTime := None;
     isWaitingForMount := false; interactionId := defaultInteractionId |}.

Definition set_processingStartTime (t : HighResTimeStamp) (e : EventEntry) : EventEntry :=
  {| name := name e; target := target e; startTime := startTime e;
     processingStartTime := Some t; processingEndTime := processingEndTime e;
     isWaitingForMount := isWaitingForMount e; interactionId := interactionId e |}.

Definition set_processingEndTime (t : HighResTimeStamp) (e : EventEntry) : EventEntry :=
  {| name := name e; target := target e; startTime := startTime e;
     processingStartTime := processingStartTime e; processingEndTime := Some t;
     isWaitingForMount := isWaitingForMount e; interactionId := interactionId e |}.

Definition set_isWaitingForMount (b : bool) (e : EventEntry) : EventEntry :=
  {| name := name e; target := target e; startTime := startTime e;
     processingStartTime := processingStartTime e;
     processingEndTime := processingEndTime e;
     isWaitingForMount := b; interactionId := interactionId e |}.

Definition has_value {A} (o : option A) : bool :=
  match o with Some _ => true | None => false end.

(** Modelled from the spec: [EventEntry::isWaitingForDispatch()] is a member
    of the struct in the header, which is not among the sources.  The
    specification says a record is "not yet ready to dispatch" when
    "processingStartTime or processingEndTime [is] still missing". *)
Definition isWaitingForDispatch (e : EventEntry) : bool :=
  negb (has_value (processingStartTime e)) || negb (has_value (processingEndTime e)).

(** ** Helpers of the anonymous namespace *)

Definition isTargetInRootShadowNode (tgt : SharedEventTarget)
    (rootShadowNode : SharedRootShadowNode) : bool :=
  match tgt, rootShadowNode with
  | Some t, Some root =>
      bool_decide (EventTarget.getSurfaceId t = RootShadowNode.getSurfaceId root)
  | _, _ => false
  end.

Definition hasPendingRenderingUpdates (tgt : SharedEventTarget)
    (surfaceIdsWithPendingRenderingUpdates : gset Z) : bool :=
  match tgt with
  | Some t => bool_decide (EventTarget.getSurfaceId t ∈ surfaceIdsWithPendingRenderingUpdates)
  | None => false
  end.

(** [emplace] of [std::unordered_map]: inserts unless the key is taken. *)
Definition emplace {V} (k : N) (v : V) (m : gmap N V) : gmap N V :=
  match m !! k with
  | Some _ => m
  | None => <[k := v]> m
  end.

(** The initializer list of [SUPPORTED_EVENTS], in source order. *)
Definition SUPPORTED_EVENTS_init : list (string * string) :=
  [ ("topAuxClick", "auxclick");
    ("topClick", "click");
    ("topContextMenu", "contextmenu");
    ("topDblClick", "dblclick");
    ("topMouseDown", "mousedown");
    ("topMouseEnter", "mouseenter");
    ("topMouseLeave", "mouseleave");
    ("topMouseOut", "mouseout");
    ("topMouseOver", "mouseover");
    ("topMouseUp", "mouseup");
    ("topPointerOver", "pointerover");
    ("topPointerEnter", "pointerenter");
    ("topPointerDown", "pointerdown");
    ("topPointerUp", "pointerup");
    ("topPointerCancel", "pointercancel");
    ("topPointerOut", "pointerout");
    ("topPointerLeave", "pointerleave");
    ("topGotPointerCapture", "gotpointercapture");
    ("topLostPointerCapture", "lostpointercapture");
    ("topTouchStart", "touchstart");
    ("topTouchEnd", "touchend");
    ("topTouchCancel", "touchcancel");
    ("topKeyDown", "keydown");
    ("topKeyPress", "keypress");
    ("topKeyUp", "keyup");
    ("topBeforeInput", "beforeinput");
    ("topInput", "input");
    ("topCompositionStart", "compositionstart");
    ("topCompositionUpdate", "compositionupdate");
    ("topCompositionEnd", "compositionend");
    ("topDragStart", "dragstart");
    ("topDragEnd", "dragend");
    ("topDragEnter", "dragenter");
    ("topDragLeave", "dragleave");
    ("topDragOver", "dragover");
    ("topDrop", "drop") ].

(** The raw names the registry is built from. *)
Definition supportedRawNames : list string := SUPPORTED_EVENTS_init.*1.

(** ** The reporting sink and the world *)

(** One call of [reportEvent].  [report_tag] is not an argument of the call:
    it records which table entry was handed over, so that the history of
    calls can be related to the table. *)
Record ReportedEvent := {
  report_tag : EventTag;
  report_name : string;
  report_startTime : HighResTimeStamp;
  report_duration : HighResDuration;
  report_processingStart : HighResTimeStamp;
  report_processingEnd : HighResTimeStamp;
  report_interactionId : PerformanceEntryInteractionId;
}.

(** The sink: how often its clock was read, and the [reportEvent] calls it
    received, oldest first. *)
Record PerformanceEntryReporter := {
  clockReads : nat;
  reportedEvents : list ReportedEvent;
}.

(** The logger together with its sink.  [reporterExpired] tells whether
    [performanceEntryReporter_.lock()] yields a null pointer.  The sink's
    history is kept after it expired, as the record of what was reported. *)
Record World := {
  eventsInFlight_ : gmap N EventEntry;
  sCurrentEventTag_ : EventTag;
  performanceEntryReporter_ : PerformanceEntryReporter;
  reporterExpired : bool;
}.

Definition lock (w : World) : option PerformanceEntryReporter :=
  if reporterExpired w then None else Some (performanceEntryReporter_ w).

Definition set_eventsInFlight (m : gmap N EventEntry) (w : World) : World :=
  {| eventsInFlight_ := m; sCurrentEventTag_ := sCurrentEventTag_ w;
     performanceEntryReporter_ := performanceEntryReporter_ w;
     reporterExpired := reporterExpired w |}.

Definition set_sCurrentEventTag (t : EventTag) (w : World) : World :=
  {| eventsInFlight_ := eventsInFlight_ w; sCurrentEventTag_ := t;
     performanceEntryReporter_ := performanceEntryReporter_ w;
     reporterExpired := reporterExpired w |}.

Definition set_reporter (r : PerformanceEntryReporter) (w : World) : World :=
  {| eventsInFlight_ := eventsInFlight_ w; sCurrentEventTag_ := sCurrentEventTag_ w;
     performanceEntryReporter_ := r; reporterExpired := reporterExpired w |}.

Definition expire (w : World) : World :=
  {| eventsInFlight_ := eventsInFlight_ w; sCurrentEventTag_ := sCurrentEventTag_ w;
     performanceEntryReporter_ := performanceEntryReporter_ w;
     reporterExpired := true |}.

(** ** Outcomes of an entry point

    An entry point returns, or the process stops in a failed
    [react_native_assert], or [std::optional::value()] is called on an empty
    optional. *)
Inductive Outcome (A : Type) : Type :=
  | Returned (a : A)
  | AssertionFailed (message : string)
  | BadOptionalAccess.
Arguments Returned {A} a.
Arguments AssertionFailed {A} message.
Arguments BadOptionalAccess {A}.

#[global] Instance Outcome_ret : MRet Outcome := λ A a, Returned a.
#[global] Instance Outcome_bind : MBind Outcome := λ A B f o,
  match o with
  | Returned a => f a
  | AssertionFailed msg => AssertionFailed msg
  | BadOptionalAccess => BadOptionalAccess
  end.

Definition value {A} (o : option A) : Outcome A :=
  match o with
  | Some a => Returned a
  | None => BadOptionalAccess
  end.

Definition msgProcessingEndBeforeStart : string :=
  "Attempting to set processingEndTime while processingStartTime is not set.".
Definition msgNoProcessingStartTime : string :=
  "Attempted to report PerformanceEventTiming, which did not have processingStartTime defined.".
Definition msgNoProcessingEndTime : string :=
  "Attempted to report PerformanceEventTiming, which did not have processingEndTime defined.".

(** ** The entry points *)

Section Logger.

(** [std::hash<std::string_view>]: implementation-defined, a function from
    strings to [size_t]. *)
Variable hash : string → N.

(** Modelled from the spec: [react_native_assert] is a macro of
    [react/debug/react_native_assert.h], which is not among the sources.  The
    specification has it "raise a detectable assertion/diagnostic in debug
    builds"; in other builds it checks nothing.  [REACT_NATIVE_DEBUG] tells
    which build is modelled. *)
Variable REACT_NATIVE_DEBUG : bool.

(** The sink's clock: [clock n] is what the [n]-th call of
    [getCurrentTimeStamp()] returns. *)
Variable clock : nat → Z.

(** The width of [EventTag] in bits.  The type is declared in a header that
    is not among the sources, so its width is a parameter here; it is an
    unsigned integer type, whose width the platform fixes (32 where it is
    an [unsigned int] of 32 bits). *)
Variable EventTag_bits : N.

(** The number of values of [EventTag]. *)
Definition EventTag_modulus : N := (2 ^ EventTag_bits)%N.

Definition react_native_assert (cond : bool) (message : string) : Outcome () :=
  if REACT_NATIVE_DEBUG && negb cond then AssertionFailed message else Returned ().

(** [struct StrKey]: the key is the hash of the string, and two keys are
    equal when their hashes are ([operator==] compares [key] only). *)
Definition StrKey (s : string) : N := hash s.

(** [getSupportedEvents()]: the registry, filled from the initializer list
    in order; a pair whose key is already present is dropped. *)
Definition getSupportedEvents : gmap N string :=
  foldl (λ registry p, emplace (StrKey p.1) p.2 registry) ∅ SUPPORTED_EVENTS_init.

Definition getCurrentTimeStamp (r : PerformanceEntryReporter)
    : HighResTimeStamp * PerformanceEntryReporter :=
  (clock (clockReads r),
   {| clockReads := S (clockReads r); reportedEvents := reportedEvents r |}).

Definition reportEvent (ev : ReportedEvent) (r : PerformanceEntryReporter)
    : PerformanceEntryReporter :=
  {| clockReads := clockReads r; reportedEvents := reportedEvents r ++ [ev] |}.

(** [createEventTag()]: [sCurrentEventTag_++; return sCurrentEventTag_;].
    The increment of an unsigned integer wraps around: after the greatest
    value of the type comes 0. *)
Definition createEventTag (w : World) : EventTag * World :=
  let w' := set_sCurrentEventTag ((sCurrentEventTag_ w + 1) mod EventTag_modulus)%N w in
  (sCurrentEventTag_ w', w').

Definition onEventStart (rawName : string) (tgt : SharedEventTarget)
    (eventStartTimeStamp : option HighResTimeStamp) (w : World) : EventTag * World :=
  match lock w with
  | None => (EMPTY_EVENT_TAG, w)
  | Some performanceEntryReporter =>
    match getSupportedEvents !! StrKey rawName with
    | None => (0%N, w)
    | Some reportedName =>
      let '(eventTag, w1) := createEventTag w in
      let '(timeStamp, reporter1) :=
        match eventStartTimeStamp with
        | Some t => (t, performanceEntryReporter)
        | None => getCurrentTimeStamp performanceEntryReporter
        end in
      (eventTag,
       set_eventsInFlight
         (emplace eventTag (newEventEntry reportedName tgt timeStamp) (eventsInFlight_ w1))
         (set_reporter reporter1 w1))
    end
  end.

Definition onEventProcessingStart (tag : EventTag) (w : World) : World :=
  match lock w with
  | None => w
  | Some performanceEntryReporter =>
    let '(timeStamp, reporter1) := getCurrentTimeStamp performanceEntryReporter in
    let w1 := set_reporter reporter1 w in
    match eventsInFlight_ w1 !! tag with
    | Some entry =>
        set_eventsInFlight
          (<[tag := set_processingStartTime timeStamp entry]> (eventsInFlight_ w1)) w1
    | None => w1
    end
  end.

Definition onEventProcessingEnd (tag : EventTag) (w : World) : Outcome World :=
  match lock w with
  | None => Returned w
  | Some performanceEntryReporter =>
    let '(timeStamp, reporter1) := getCurrentTimeStamp performanceEntryReporter in
    let w1 := set_reporter reporter1 w in
    match eventsInFlight_ w1 !! tag with
    | None => Returned w1
    | Some entry =>
        _ ← react_native_assert (has_value (processingStartTime entry))
              msgProcessingEndBeforeStart;
        Returned (set_eventsInFlight
                    (<[tag := set_processingEndTime timeStamp entry]> (eventsInFlight_ w1)) w1)
    end
  end.

(** The loop of [dispatchPendingEventTimingEntries].  [its] is what is left
    of the iteration over the table; erasing an entry of an unordered map
    leaves the rest of the iteration as it was. *)
Fixpoint dispatchLoop (surfaceIdsWithPendingRenderingUpdates : gset Z)
    (its : list (EventTag * EventEntry))
    (table : gmap N EventEntry) (reporter : PerformanceEntryReporter)
    : Outcome (gmap N EventEntry * PerformanceEntryReporter) :=
  match its with
  | [] => Returned (table, reporter)
  | (tag, entry) :: its' =>
    if isWaitingForDispatch entry || isWaitingForMount entry then
      dispatchLoop surfaceIdsWithPendingRenderingUpdates its' table reporter
    else if hasPendingRenderingUpdates (target entry) surfaceIdsWithPendingRenderingUpdates then
      dispatchLoop surfaceIdsWithPendingRenderingUpdates its'
        (<[tag := set_isWaitingForMount true entry]> table) reporter
    else
      _ ← react_native_assert (has_value (processingStartTime entry)) msgNoProcessingStartTime;
      _ ← react_native_assert (has_value (processingEndTime entry)) msgNoProcessingEndTime;
      let '(now, reporter1) := getCurrentTimeStamp reporter in
      processingStart ← value (processingStartTime entry);
      processingEnd ← value (processingEndTime entry);
      let reporter2 :=
        reportEvent
          {| report_tag := tag;
             report_name := name entry;
             report_startTime := startTime entry;
             report_duration := (now - startTime entry)%Z;
             report_processingStart := processingStart;
             report_processingEnd := processingEnd;
             report_interactionId := interactionId entry |} reporter1 in
      dispatchLoop surfaceIdsWithPendingRenderingUpdates its' (delete tag table) reporter2
  end.

(** The order in which an unordered map is iterated is unspecified; the
    model iterates in the order of [map_to_list], and no statement below
    depends on which order that is. *)
Definition dispatchPendingEventTimingEntries
    (surfaceIdsWithPendingRenderingUpdates : gset Z) (w : World) : Outcome World :=
  match lock w with
  | None => Returned w
  | Some performanceEntryReporter =>
    '(table, reporter) ←
      dispatchLoop surfaceIdsWithPendingRenderingUpdates
        (map_to_list (eventsInFlight_ w)) (eventsInFlight_ w) performanceEntryReporter;
    Returned (set_eventsInFlight table (set_reporter reporter w))
  end.

(** The loop of [shadowTreeDidMount]. *)
Fixpoint mountLoop (rootShadowNode : SharedRootShadowNode) (mountTime : HighResTimeStamp)
    (its : list (EventTag * EventEntry))
    (table : gmap N EventEntry) (reporter : PerformanceEntryReporter)
    : Outcome (gmap N EventEntry * PerformanceEntryReporter) :=
  match its with
  | [] => Returned (table, reporter)
  | (tag, entry) :: its' =>
    if isWaitingForMount entry && isTargetInRootShadowNode (target entry) rootShadowNode then
      _ ← react_native_assert (has_value (processingStartTime entry)) msgNoProcessingStartTime;
      _ ← react_native_assert (has_value (processingEndTime entry)) msgNoProcessingEndTime;
      processingStart ← value (processingStartTime entry);
      processingEnd ← value (processingEndTime entry);
      let reporter1 :=
        reportEvent
          {| report_tag := tag;
             report_name := name entry;
             report_startTime := startTime entry;
             report_duration := (mountTime - startTime entry)%Z;
             report_processingStart := processingStart;
             report_processingEnd := processingEnd;
             report_interactionId := interactionId entry |} reporter in
      mountLoop rootShadowNode mountTime its' (delete tag table) reporter1
    else
      mountLoop rootShadowNode mountTime its' table reporter
  end.

Definition shadowTreeDidMount (rootShadowNode : SharedRootShadowNode)
    (mountTime : HighResTimeStamp) (w : World) : Outcome World :=
  match lock w with
  | None => Returned w
  | Some performanceEntryReporter =>
    '(table, reporter) ←
      mountLoop rootShadowNode mountTime
        (map_to_list (eventsInFlight_ w)) (eventsInFlight_ w) performanceEntryReporter;
    Returned (set_eventsInFlight table (set_reporter reporter w))
  end.

(** ** Runs

    What can happen to a world: a call of an entry point, or the last owner
    of the sink letting go of it, after which [lock()] fails for good. *)
Inductive Call :=
  | OnEventStart (rawName : string) (tgt : SharedEventTarget)
      (eventStartTimeStamp : option HighResTimeStamp)
  | OnEventProcessingStart (tag : EventTag)
  | OnEventProcessingEnd (tag : EventTag)
  | DispatchPendingEventTimingEntries (surfaceIdsWithPendingRenderingUpdates : gset Z)
  | ShadowTreeDidMount (rootShadowNode : SharedRootShadowNode) (mountTime : HighResTimeStamp)
  | ReporterDestroyed.

Definition step (w : World) (c : Call) : Outcome World :=
  match c with
  | OnEventStart rawName tgt ts => Returned (onEventStart rawName tgt ts w).2
  | OnEventProcessingStart tag => Returned (onEventProcessingStart tag w)
  | OnEventProcessingEnd tag => onEventProcessingEnd tag w
  | DispatchPendingEventTimingEntries pending => dispatchPendingEventTimingEntries pending w
  | ShadowTreeDidMount root mountTime => shadowTreeDidMount root mountTime w
  | ReporterDestroyed => Returned (expire w)
  end.

Fixpoint run (w : World) (calls : list Call) : Outcome World :=
  match calls with
  | [] => Returned w
  | c :: calls' => w' ← step w c; run w' calls'
  end.

(** A logger starts with an empty table and a sink that has received
    nothing; the tag counter is shared by the process and may have any
    value. *)
Definition initial (w : World) : Prop :=
  eventsInFlight_ w = ∅ ∧ reportedEvents (performanceEntryReporter_ w) = [].

Definition reachable (w : World) : Prop :=
  ∃ w0 calls, initial w0 ∧ run w0 calls = Returned w.

(** ** Vocabulary of the statements *)

(** A record is ready when both processing timestamps are set. *)
Definition ready (e : EventEntry) : Prop :=
  is_Some (processingStartTime e) ∧ is_Some (processingEndTime e).

(** The third and fourth branch of the loop of
    [dispatchPendingEventTimingEntries], as conditions on the record. *)
Definition dispatchParks (pending : gset Z) (e : EventEntry) : bool :=
  negb (isWaitingForDispatch e || isWaitingForMount e)
  && hasPendingRenderingUpdates (target e) pending.

Definition dispatchFinalizes (pending : gset Z) (e : EventEntry) : bool :=
  negb (isWaitingForDispatch e || isWaitingForMount e)
  && negb (hasPendingRenderingUpdates (target e) pending).

(** The reporting branch of the loop of [shadowTreeDidMount]. *)
Definition mountFinalizes (root : SharedRootShadowNode) (e : EventEntry) : bool :=
  isWaitingForMount e && isTargetInRootShadowNode (target e) root.

(** [ev] is the call of [reportEvent] for the record [e] kept under [tag],
    with duration [d]. *)
Definition reports (tag : EventTag) (e : EventEntry) (d : HighResDuration)
    (ev : ReportedEvent) : Prop :=
  report_tag ev = tag ∧
  report_name ev = name e ∧
  report_startTime ev = startTime e ∧
  report_duration ev = d ∧
  processingStartTime e = Some (report_processingStart ev) ∧
  processingEndTime e = Some (report_processingEnd ev) ∧
  report_interactionId ev = interactionId e.

Definition reportedTags (w : World) : list EventTag :=
  report_tag <$> reportedEvents (performanceEntryReporter_ w).

(** What holds of every world a run can reach: a record parked for a
    mount is ready and has a target. *)
Definition parked (w : World) : Prop :=
  ∀ tag e,
    eventsInFlight_ w !! tag = Some e → isWaitingForMount e = true →
    ready e ∧ is_Some (target e).

(** The number of calls of [onEventStart] among [calls]: a run of [calls]
    issues at most so many tags. *)
Fixpoint starts (calls : list Call) : N :=
  match calls with
  | [] => 0%N
  | OnEventStart _ _ _ :: calls' => (1 + starts calls')%N
  | _ :: calls' => starts calls'
  end.

(** The tag counter does not wrap around in a run of [calls] from [w]:
    above the counter of [w] there is a value of [EventTag] left for each
    call of [onEventStart]. *)
Definition noWrap (w : World) (calls : list Call) : Prop :=
  (sCurrentEventTag_ w + starts calls < EventTag_modulus)%N.

(** What holds of the worlds that a run reaches without wrapping the tag
    counter around: tracked tags were issued by the counter and are not
    the empty tag, and reported tags were issued, were reported once and
    are no longer tracked. *)
Record TagInvariant (w : World) : Prop := {
  inv_tracked_issued : ∀ tag e,
    eventsInFlight_ w !! tag = Some e → (0 < tag ≤ sCurrentEventTag_ w)%N;
  inv_reported_issued : ∀ tag,
    tag ∈ reportedTags w → (tag ≤ sCurrentEventTag_ w)%N;
  inv_reported_once : NoDup (reportedTags w);
  inv_reported_dead : ∀ tag,
    tag ∈ reportedTags w → eventsInFlight_ w !! tag = None;
}.

(** The processing-order invariant: no record has an end of processing
    without a start of processing. *)
Definition processingOrdered (w : World) : Prop :=
  ∀ tag e, eventsInFlight_ w !! tag = Some e →
           is_Some (processingEndTime e) → is_Some (processingStartTime e).

(** [w'] has the table, the tag counter, the reports and the sink's
    liveness of [w].  Only the count of clock readings may differ: reading
    the sink's clock changes nothing that the logger or the sink keeps. *)
Definition unchanged (w w' : World) : Prop :=
  eventsInFlight_ w' = eventsInFlight_ w ∧
  sCurrentEventTag_ w' = sCurrentEventTag_ w ∧
  reportedEvents (performanceEntryReporter_ w') = reportedEvents (performanceEntryReporter_ w) ∧
  reporterExpired w' = reporterExpired w.

(** The target of [e] lies on the surface of [root]: both pointers are
    set and the surface ids agree. *)
Definition onSurfaceOf (root : SharedRootShadowNode) (e : EventEntry) : Prop :=
  ∃ t r, target e = Some t ∧ root = Some r ∧
         EventTarget.getSurfaceId t = RootShadowNode.getSurfaceId r.

(** The callers' discipline on processing calls: [onEventProcessingEnd] is
    called for a tag only after [onEventProcessingStart] was called for
    it, and that after the last [onEventStart] that returned the tag.
    [started] holds the tags for which [onEventProcessingStart] was so
    called: a call of [onEventProcessingStart] puts its tag in, and a call
    of [onEventStart] takes the tag it returns out, since the tag now stands
    for a new event.  The check follows the run as far as it goes. *)
Fixpoint processingEndAfterStart (started : gset N) (w : World) (calls : list Call) : bool :=
  match calls with
  | [] => true
  | c :: calls' =>
      match c with
      | OnEventProcessingEnd tag => bool_decide (tag ∈ started)
      | _ => true
      end &&
      match step w c with
      | Returned w' =>
          processingEndAfterStart
            match c with
            | OnEventStart rawName tgt ts =>
                started ∖ {[(onEventStart rawName tgt ts w).1]}
            | OnEventProcessingStart tag => {[tag]} ∪ started
            | _ => started
            end
            w' calls'
      | _ => true
      end
  end.

(** What [started] stands for in a world: while the sink is there, the
    records tracked under its tags have their start of processing. *)
Definition startedIn (started : gset N) (w : World) : Prop :=
  reporterExpired w = false →
  ∀ tag e, tag ∈ started → eventsInFlight_ w !! tag = Some e →
           is_Some (processingStartTime e).

(** The processing timestamps of the tracked records are readings of the
    sink's clock that were taken already. *)
Definition stamped (w : World) : Prop :=
  ∀ tag e t,
    eventsInFlight_ w !! tag = Some e →
    processingStartTime e = Some t ∨ processingEndTime e = Some t →
    ∃ i, i < clockReads (performanceEntryReporter_ w) ∧ t = clock i.

(** ** Concrete instances and runs used by the examples *)

(** FNV-1a over 32 bits (offset basis 2166136261, prime 16777619), a string
    hash that implementations of the standard library use for [std::hash]
    where [size_t] has 32 bits.  It is the concrete hash of the examples. *)
Definition fnv1a32 (s : string) : N :=
  foldl (λ h c, ((N.lxor h (Ascii.N_of_ascii c)) * 16777619) mod 2^32)%N
        2166136261%N (String.list_ascii_of_string s).

Definition world0 : World :=
  {| eventsInFlight_ := ∅; sCurrentEventTag_ := 0%N;
     performanceEntryReporter_ := {| clockReads := 0; reportedEvents := [] |};
     reporterExpired := false |}.

Definition clock10 (n : nat) : Z := (100 + 10 * Z.of_nat n)%Z.

Definition targetOn (s : Z) : SharedEventTarget := Some {| EventTarget.getSurfaceId := s |}.
Definition rootOf (s : Z) : SharedRootShadowNode := Some {| RootShadowNode.getSurfaceId := s |}.

(** The examples run the logger with [fnv1a32] as the hash, in a debug build,
    with a clock that reads 100, 110, 120, ... and with an [EventTag] of 32
    bits. *)

(** Three events are started: a click on a target of surface 7 and a key
    press without target, both processed, and a touch on a target of surface
    9 that is not processed yet. *)
Definition scenarioB : list Call :=
  [ OnEventStart "topClick" (targetOn 7) None;
    OnEventProcessingStart 1;
    OnEventProcessingEnd 1;
    OnEventStart "topKeyDown" None (Some 5%Z);
    OnEventProcessingStart 2;
    OnEventProcessingEnd 2;
    OnEventStart "topTouchStart" (targetOn 9) None ].

(** Then the pending entries are dispatched while surface 7 has rendering
    updates pending. *)
Definition scenarioA : list Call :=
  scenarioB ++ [DispatchPendingEventTimingEntries {[7%Z]}].

Definition clickRecord : EventEntry :=
  {| name := "click"; target := targetOn 7; startTime := 100;
     processingStartTime := Some 110%Z; processingEndTime := Some 120%Z;
     isWaitingForMount := false; interactionId := None |}.

Definition keydownRecord : EventEntry :=
  {| name := "keydown"; target := None; startTime := 5;
     processingStartTime := Some 130%Z; processingEndTime := Some 140%Z;
     isWaitingForMount := false; interactionId := None |}.

Definition touchstartRecord : EventEntry :=
  {| name := "touchstart"; target := targetOn 9; startTime := 150;
     processingStartTime := None; processingEndTime := None;
     isWaitingForMount := false; interactionId := None |}.

Definition keydownReport : ReportedEvent :=
  {| report_tag := 2; report_name := "keydown"; report_startTime := 5;
     report_duration := 155; report_processingStart := 130;
     report_processingEnd := 140; report_interactionId := None |}.

Definition clickReport (mountTime : Z) : ReportedEvent :=
  {| report_tag := 1; report_name := "click"; report_startTime := 100;
     report_duration := mountTime - 100; report_processingStart := 110;
     report_processingEnd := 120; report_interactionId := None |}.

Definition worldB : World :=
  {| eventsInFlight_ :=
       {[ 1%N := clickRecord; 2%N := keydownRecord; 3%N := touchstartRecord ]};
     sCurrentEventTag_ := 3%N;
     performanceEntryReporter_ := {| clockReads := 6; reportedEvents := [] |};
     reporterExpired := false |}.

Definition worldA : World :=
  {| eventsInFlight_ :=
       {[ 1%N := set_isWaitingForMount true clickRecord; 3%N := touchstartRecord ]};
     sCurrentEventTag_ := 3%N;
     performanceEntryReporter_ := {| clockReads := 7; reportedEvents := [keydownReport] |};
     reporterExpired := false |}.

(** A logger that starts when the process has used up the tags of a 32-bit
    [EventTag]: the tag counter is at the greatest value of the type. *)
Definition worldMax : World :=
  {| eventsInFlight_ := ∅; sCurrentEventTag_ := 4294967295%N;
     performanceEntryReporter_ := {| clockReads := 0; reportedEvents := [] |};
     reporterExpired := false |}.

(** A world in which the tag that the counter comes to next is taken: the
    counter is at the greatest value of a 32-bit [EventTag], and the table
    still has a record under tag 0. *)
Definition worldRound : World :=
  {| eventsInFlight_ := {[ 0%N := keydownRecord ]}; sCurrentEventTag_ := 4294967295%N;
     performanceEntryReporter_ := {| clockReads := 9; reportedEvents := [] |};
     reporterExpired := false |}.

(** A click without target is started, processed and reported by a
    dispatch. *)
Definition scenarioClick : list Call :=
  [ OnEventStart "topClick" None None;
    OnEventProcessingStart 1;
    OnEventProcessingEnd 1;
    DispatchPendingEventTimingEntries ∅ ].

Definition worldClick : World :=
  {| eventsInFlight_ := ∅; sCurrentEventTag_ := 1%N;
     performanceEntryReporter_ :=
       {| clockReads := 4;
          reportedEvents :=
            [ {| report_tag := 1; report_name := "click"; report_startTime := 100;
                 report_duration := 30; report_processingStart := 110;
                 report_processingEnd := 120; report_interactionId := None |} ] |};
     reporterExpired := false |}.

(** After [scenarioClick], as many key presses are started as a 32-bit
    [EventTag] has values, none of them being processed. *)
Definition scenarioWrap : list Call :=
  scenarioClick ++ replicate (N.to_nat (2 ^ 32)) (OnEventStart "topKeyDown" None (Some 0%Z)).

(** * Properties *)

(** ** The loops *)

Lemma isWaitingForDispatch_false e :
  isWaitingForDispatch e = false ↔ ready e.
Proof.
  unfold isWaitingForDispatch, ready.
  destruct (processingStartTime e), (processingEndTime e); simpl;
    split; try done; try (intros _; split; eauto);
    intros [[? ?] [? ?]]; done.
Qed.

Lemma react_native_assert_true msg : react_native_assert true msg = Returned ().
Proof. unfold react_native_assert. by rewrite andb_false_r. Qed.

Lemma reporter_eta (r : PerformanceEntryReporter) :
  {| clockReads := clockReads r + 0; reportedEvents := reportedEvents r ++ [] |} = r.
Proof. destruct r; simpl. by rewrite Nat.add_0_r, app_nil_r. Qed.

Lemma dispatchLoop_spec pending its : ∀ table r,
  NoDup its.*1 →
  ∃ table' news,
    dispatchLoop pending its table r =
      Returned (table', {| clockReads := clockReads r + length news;
                           reportedEvents := reportedEvents r ++ news |}) ∧
    (∀ tag, tag ∉ its.*1 → table' !! tag = table !! tag) ∧
    (∀ tag e, (tag, e) ∈ its →
       table' !! tag =
         if dispatchFinalizes pending e then None
         else if dispatchParks pending e then Some (set_isWaitingForMount true e)
         else table !! tag) ∧
    NoDup (report_tag <$> news) ∧
    (∀ ev, ev ∈ news →
       ∃ e n, (report_tag ev, e) ∈ its ∧ dispatchFinalizes pending e = true ∧
              reports (report_tag ev) e (clock n - startTime e) ev) ∧
    (∀ tag e, (tag, e) ∈ its → dispatchFinalizes pending e = true →
              tag ∈ report_tag <$> news).
Proof.
  induction its as [|[tag0 e0] its IH]; intros table r Hnd.
  - exists table, []. simpl. rewrite reporter_eta.
    split; [done|]. split; [done|].
    split; [by intros tag e ?%elem_of_nil|].
    split; [constructor|].
    split; [by intros ev ?%elem_of_nil|by intros tag e ?%elem_of_nil].
  - simpl in Hnd. apply NoDup_cons in Hnd as [Hfresh Hnd].
    simpl. unfold dispatchFinalizes, dispatchParks.
    destruct (isWaitingForDispatch e0 || isWaitingForMount e0) eqn:Hskip.
    + destruct (IH table r Hnd) as (table' & news & -> & Hout & Hin & Hnodup & Hnews & Hall).
      exists table', news. split; [done|].
      split; [intros tag Htag; apply not_elem_of_cons in Htag as [? Htag]; by apply Hout|].
      split.
      { intros tag e [Heq|He]%elem_of_cons.
        - injection Heq as -> ->. rewrite Hskip. simpl. by apply Hout.
        - by apply Hin. }
      split; [done|]. split.
      { intros ev Hev. destruct (Hnews ev Hev) as (e & n & ? & ? & ?).
        exists e, n. set_solver. }
      intros tag e [Heq|He]%elem_of_cons Hfin; [|by eapply Hall].
      injection Heq as -> ->.
      unfold dispatchFinalizes in Hfin. rewrite Hskip in Hfin. done.
    + apply orb_false_iff in Hskip as [Hready Hwait].
      destruct (hasPendingRenderingUpdates (target e0) pending) eqn:Hpend.
      * destruct (IH (<[tag0 := set_isWaitingForMount true e0]> table) r Hnd)
          as (table' & news & -> & Hout & Hin & Hnodup & Hnews & Hall).
        exists table', news. split; [done|].
        split.
        { intros tag Htag. apply not_elem_of_cons in Htag as [Hne Htag].
          rewrite Hout by done. by rewrite lookup_insert_ne. }
        split.
        { intros tag e [Heq|He]%elem_of_cons.
          - injection Heq as -> ->.
            unfold dispatchFinalizes, dispatchParks.
            rewrite Hready, Hwait, Hpend. simpl.
            rewrite Hout by done. by rewrite lookup_insert_eq.
          - rewrite (Hin tag e He).
            assert (tag ≠ tag0) by (intros ->; apply Hfresh; apply list_elem_of_fmap;
                                    by exists (tag0, e)).
            rewrite lookup_insert_ne by done. done. }
        split; [done|]. split.
        { intros ev Hev. destruct (Hnews ev Hev) as (e & n & ? & ? & ?).
          exists e, n. set_solver. }
        intros tag e [Heq|He]%elem_of_cons Hfin; [|by eapply Hall].
        injection Heq as -> ->.
        unfold dispatchFinalizes in Hfin. rewrite Hready, Hwait, Hpend in Hfin. done.
      * apply isWaitingForDispatch_false in Hready as Hr.
        destruct Hr as [[ps Hps] [pe Hpe]].
        rewrite Hps, Hpe. simpl. rewrite !react_native_assert_true. simpl.
        set (ev0 := {| report_tag := tag0; report_name := name e0;
                       report_startTime := startTime e0;
                       report_duration := (clock (clockReads r) - startTime e0)%Z;
                       report_processingStart := ps; report_processingEnd := pe;
                       report_interactionId := interactionId e0 |}).
        destruct (IH (delete tag0 table)
                     (reportEvent ev0 {| clockReads := S (clockReads r);
                                         reportedEvents := reportedEvents r |}) Hnd)
          as (table' & news & Heq & Hout & Hin & Hnodup & Hnews & Hall).
        exists table', (ev0 :: news). split.
        { rewrite Heq. simpl. do 2 f_equal. f_equal; [lia|].
          by rewrite <- app_assoc. }
        split.
        { intros tag Htag. apply not_elem_of_cons in Htag as [Hne Htag].
          rewrite Hout by done. by rewrite lookup_delete_ne. }
        split.
        { intros tag e [Heq'|He]%elem_of_cons.
          - injection Heq' as -> ->.
            unfold dispatchFinalizes. rewrite Hready, Hwait, Hpend. simpl.
            rewrite Hout by done. by rewrite lookup_delete_eq.
          - rewrite (Hin tag e He).
            assert (tag ≠ tag0) by (intros ->; apply Hfresh; apply list_elem_of_fmap;
                                    by exists (tag0, e)).
            rewrite lookup_delete_ne by done. done. }
        split.
        { rewrite fmap_cons. apply NoDup_cons. split; [|done].
          intros (ev & Htag & Hev)%list_elem_of_fmap.
          destruct (Hnews ev Hev) as (e & n & Hmem & _).
          apply Hfresh. apply list_elem_of_fmap. exists (report_tag ev, e).
          split; [|done]. simpl in Htag. by rewrite <- Htag. }
        split.
        { intros ev [->|Hev]%elem_of_cons.
          - exists e0, (clockReads r). split; [left|].
            split; [unfold dispatchFinalizes; by rewrite Hready, Hwait, Hpend|].
            by repeat split.
          - destruct (Hnews ev Hev) as (e & n & ? & ? & ?).
            exists e, n. set_solver. }
        intros tag e [Heq'|He]%elem_of_cons Hfin.
        -- injection Heq' as -> ->. rewrite fmap_cons. left.
        -- rewrite fmap_cons. right. by eapply Hall.
Qed.

Lemma reports_inj tag e d ev ev' :
  reports tag e d ev → reports tag e d ev' → ev = ev'.
Proof.
  intros (? & ? & ? & ? & Hs & He & ?) (? & ? & ? & ? & Hs' & He' & ?).
  destruct ev, ev'; simpl in *.
  rewrite Hs in Hs'. rewrite He in He'. congruence.
Qed.

Lemma mountLoop_spec root mountTime its : ∀ table r,
  NoDup its.*1 →
  (∀ tag e, (tag, e) ∈ its → mountFinalizes root e = true → ready e) →
  ∃ table' news,
    mountLoop root mountTime its table r =
      Returned (table', {| clockReads := clockReads r;
                           reportedEvents := reportedEvents r ++ news |}) ∧
    (∀ tag, tag ∉ its.*1 → table' !! tag = table !! tag) ∧
    (∀ tag e, (tag, e) ∈ its →
       table' !! tag = if mountFinalizes root e then None else table !! tag) ∧
    NoDup (report_tag <$> news) ∧
    (∀ ev, ev ∈ news ↔
       ∃ e, (report_tag ev, e) ∈ its ∧ mountFinalizes root e = true ∧
            reports (report_tag ev) e (mountTime - startTime e) ev).
Proof.
  induction its as [|[tag0 e0] its IH]; intros table r Hnd Hready.
  - exists table, []. simpl.
    split; [by destruct r; simpl; rewrite app_nil_r|].
    split; [done|]. split; [by intros tag e ?%elem_of_nil|].
    split; [constructor|].
    intros ev; split; [by intros ?%elem_of_nil|].
    by intros (e & ?%elem_of_nil & _).
  - simpl in Hnd. apply NoDup_cons in Hnd as [Hfresh Hnd].
    assert (Hready' : ∀ tag e, (tag, e) ∈ its → mountFinalizes root e = true → ready e)
      by (intros tag e He; apply (Hready tag e); by right).
    assert (Hne : ∀ tag e, (tag, e) ∈ its → tag ≠ tag0).
    { intros tag e He ->. apply Hfresh, list_elem_of_fmap. by exists (tag0, e). }
    simpl. fold (mountFinalizes root e0).
    destruct (mountFinalizes root e0) eqn:Hfin.
    + destruct (Hready tag0 e0 ltac:(left) Hfin) as [[ps Hps] [pe Hpe]].
      rewrite Hps, Hpe. simpl. rewrite !react_native_assert_true. simpl.
      set (ev0 := {| report_tag := tag0; report_name := name e0;
                     report_startTime := startTime e0;
                     report_duration := (mountTime - startTime e0)%Z;
                     report_processingStart := ps; report_processingEnd := pe;
                     report_interactionId := interactionId e0 |}).
      assert (Hev0 : reports tag0 e0 (mountTime - startTime e0) ev0) by by repeat split.
      destruct (IH (delete tag0 table) (reportEvent ev0 r) Hnd Hready')
        as (table' & news & Heq & Hout & Hin & Hnodup & Hnews).
      exists table', (ev0 :: news). split.
      { rewrite Heq. simpl. by rewrite <- app_assoc. }
      split.
      { intros tag Htag. apply not_elem_of_cons in Htag as [? Htag].
        rewrite Hout by done. by rewrite lookup_delete_ne. }
      split.
      { intros tag e [Heq'|He]%elem_of_cons.
        - injection Heq' as -> ->. rewrite Hfin.
          rewrite Hout by done. by rewrite lookup_delete_eq.
        - rewrite (Hin tag e He).
          rewrite lookup_delete_ne by (apply not_eq_sym; by eapply Hne). done. }
      split.
      { rewrite fmap_cons. apply NoDup_cons. split; [|done].
        intros (ev & Htag & Hev)%list_elem_of_fmap.
        apply Hnews in Hev as (e & Hmem & _).
        eapply Hne; [exact Hmem|]. simpl in Htag. congruence. }
      intros ev. split.
      * intros [->|Hev]%elem_of_cons.
        -- exists e0. split; [left|]. by split.
        -- apply Hnews in Hev as (e & ? & ? & ?). exists e. split; [by right|]. by split.
      * intros (e & [Heq'|He]%elem_of_cons & Hf & Hrep).
        -- injection Heq' as Htag ->. rewrite Htag in Hrep.
           rewrite (reports_inj _ _ _ _ _ Hrep Hev0). left.
        -- right. apply Hnews. by exists e.
    + destruct (IH table r Hnd Hready')
        as (table' & news & -> & Hout & Hin & Hnodup & Hnews).
      exists table', news. split; [done|].
      split; [intros tag Htag; apply not_elem_of_cons in Htag as [? Htag]; by apply Hout|].
      split.
      { intros tag e [Heq'|He]%elem_of_cons.
        - injection Heq' as -> ->. rewrite Hfin. by apply Hout.
        - by apply Hin. }
      split; [done|].
      intros ev. split.
      * intros Hev. apply Hnews in Hev as (e & ? & ? & ?).
        exists e. split; [by right|]. by split.
      * intros (e & [Heq'|He]%elem_of_cons & Hf & Hrep).
        -- injection Heq' as Htag ->. congruence.
        -- apply Hnews. by exists e.
Qed.

(** ** The two finalization entry points, with a sink that is alive *)

Lemma not_in_map_to_list (m : gmap N EventEntry) tag :
  m !! tag = None → tag ∉ (map_to_list m).*1.
Proof.
  intros Hnone ([tag' e] & -> & Hmem)%list_elem_of_fmap.
  apply elem_of_map_to_list in Hmem. simpl in Hnone. congruence.
Qed.

Lemma dispatch_spec pending w :
  reporterExpired w = false →
  ∃ table' news,
    dispatchPendingEventTimingEntries pending w =
      Returned {| eventsInFlight_ := table';
                  sCurrentEventTag_ := sCurrentEventTag_ w;
                  performanceEntryReporter_ :=
                    {| clockReads := clockReads (performanceEntryReporter_ w) + length news;
                       reportedEvents := reportedEvents (performanceEntryReporter_ w) ++ news |};
                  reporterExpired := false |} ∧
    (∀ tag, table' !! tag =
              match eventsInFlight_ w !! tag with
              | None => None
              | Some e =>
                  if dispatchFinalizes pending e then None
                  else if dispatchParks pending e then Some (set_isWaitingForMount true e)
                  else Some e
              end) ∧
    NoDup (report_tag <$> news) ∧
    (∀ ev, ev ∈ news →
       ∃ e n, eventsInFlight_ w !! report_tag ev = Some e ∧
              dispatchFinalizes pending e = true ∧
              reports (report_tag ev) e (clock n - startTime e) ev) ∧
    (∀ tag e, eventsInFlight_ w !! tag = Some e → dispatchFinalizes pending e = true →
              tag ∈ report_tag <$> news).
Proof.
  intros Halive. unfold dispatchPendingEventTimingEntries, lock. rewrite Halive.
  destruct (dispatchLoop_spec pending (map_to_list (eventsInFlight_ w))
              (eventsInFlight_ w) (performanceEntryReporter_ w)
              (NoDup_fst_map_to_list _))
    as (table' & news & -> & Hout & Hin & Hnodup & Hnews & Hall).
  exists table', news. split.
  { simpl. unfold set_eventsInFlight, set_reporter. simpl. by rewrite Halive. }
  split.
  { intros tag. destruct (eventsInFlight_ w !! tag) as [e|] eqn:Hlook.
    - rewrite (Hin tag e) by by apply elem_of_map_to_list.
      by rewrite Hlook.
    - rewrite Hout by by apply not_in_map_to_list. done. }
  split; [done|]. split.
  - intros ev Hev. destruct (Hnews ev Hev) as (e & n & Hmem & ? & ?).
    exists e, n. split; [by apply elem_of_map_to_list|done].
  - intros tag e Hlook Hfin.
    apply (Hall tag e); [by apply elem_of_map_to_list|done].
Qed.

Lemma mount_spec root mountTime w :
  reporterExpired w = false →
  (∀ tag e, eventsInFlight_ w !! tag = Some e → mountFinalizes root e = true → ready e) →
  ∃ table' news,
    shadowTreeDidMount root mountTime w =
      Returned {| eventsInFlight_ := table';
                  sCurrentEventTag_ := sCurrentEventTag_ w;
                  performanceEntryReporter_ :=
                    {| clockReads := clockReads (performanceEntryReporter_ w);
                       reportedEvents := reportedEvents (performanceEntryReporter_ w) ++ news |};
                  reporterExpired := false |} ∧
    (∀ tag, table' !! tag =
              match eventsInFlight_ w !! tag with
              | None => None
              | Some e => if mountFinalizes root e then None else Some e
              end) ∧
    NoDup (report_tag <$> news) ∧
    (∀ ev, ev ∈ news ↔
       ∃ e, eventsInFlight_ w !! report_tag ev = Some e ∧
            mountFinalizes root e = true ∧
            reports (report_tag ev) e (mountTime - startTime e) ev).
Proof.
  intros Halive Hready. unfold shadowTreeDidMount, lock. rewrite Halive.
  destruct (mountLoop_spec root mountTime (map_to_list (eventsInFlight_ w))
              (eventsInFlight_ w) (performanceEntryReporter_ w)
              (NoDup_fst_map_to_list _))
    as (table' & news & -> & Hout & Hin & Hnodup & Hnews).
  { intros tag e Hmem. apply (Hready tag). by apply elem_of_map_to_list. }
  exists table', news. split.
  { simpl. unfold set_eventsInFlight, set_reporter. simpl. by rewrite Halive. }
  split.
  { intros tag. destruct (eventsInFlight_ w !! tag) as [e|] eqn:Hlook.
    - rewrite (Hin tag e) by by apply elem_of_map_to_list.
      by rewrite Hlook.
    - rewrite Hout by by apply not_in_map_to_list. done. }
  split; [done|].
  intros ev. rewrite Hnews. split.
  - intros (e & Hmem & ?). exists e. split; [by apply elem_of_map_to_list|done].
  - intros (e & Hlook & ?). exists e. split; [by apply elem_of_map_to_list|done].
Qed.

(** ** The entry points, with a sink that is alive *)

Lemma lock_None w : lock w = None ↔ reporterExpired w = true.
Proof. unfold lock. by destruct (reporterExpired w). Qed.

Lemma lock_alive w : lock w ≠ None → reporterExpired w = false.
Proof.
  intros Hlock. destruct (reporterExpired w) eqn:Hexp; [|done]. by apply lock_None in Hexp.
Qed.

Lemma emplace_lookup {V} (k j : N) (v : V) (m : gmap N V) :
  emplace k v m !! j =
    match m !! j with
    | Some x => Some x
    | None => if decide (j = k) then Some v else None
    end.
Proof.
  unfold emplace. destruct (m !! k) as [x|] eqn:Hk.
  - destruct (m !! j) as [y|] eqn:Hj; [done|].
    destruct (decide (j = k)) as [->|Hne]; [congruence|done].
  - destruct (decide (j = k)) as [->|Hne].
    + by rewrite lookup_insert_eq, Hk.
    + rewrite lookup_insert_ne by done. by destruct (m !! j).
Qed.

Lemma onEventStart_untracked rawName tgt ts w :
  lock w = None ∨ getSupportedEvents !! StrKey rawName = None →
  onEventStart rawName tgt ts w = (0%N, w).
Proof.
  unfold onEventStart. intros [-> | Hnone]; [done|].
  destruct (lock w); [|done]. by rewrite Hnone.
Qed.

Lemma onEventStart_tracked rawName tgt ts w reportedName :
  reporterExpired w = false →
  getSupportedEvents !! StrKey rawName = Some reportedName →
  onEventStart rawName tgt ts w =
    (((sCurrentEventTag_ w + 1) mod EventTag_modulus)%N,
     {| eventsInFlight_ :=
          emplace ((sCurrentEventTag_ w + 1) mod EventTag_modulus)%N
            (newEventEntry reportedName tgt
               (default (clock (clockReads (performanceEntryReporter_ w))) ts))
            (eventsInFlight_ w);
        sCurrentEventTag_ := ((sCurrentEventTag_ w + 1) mod EventTag_modulus)%N;
        performanceEntryReporter_ :=
          {| clockReads := match ts with Some _ => 0 | None => 1 end
                           + clockReads (performanceEntryReporter_ w);
             reportedEvents := reportedEvents (performanceEntryReporter_ w) |};
        reporterExpired := false |}).
Proof.
  intros Halive Hreg. unfold onEventStart, lock. rewrite Halive, Hreg.
  unfold createEventTag. simpl.
  destruct ts as [t|]; simpl; unfold set_eventsInFlight; simpl;
    rewrite Halive; [|done].
  by destruct (performanceEntryReporter_ w).
Qed.

Lemma onEventProcessingStart_spec tag w :
  reporterExpired w = false →
  onEventProcessingStart tag w =
    {| eventsInFlight_ :=
         match eventsInFlight_ w !! tag with
         | Some e =>
             <[tag := set_processingStartTime
                        (clock (clockReads (performanceEntryReporter_ w))) e]>
               (eventsInFlight_ w)
         | None => eventsInFlight_ w
         end;
       sCurrentEventTag_ := sCurrentEventTag_ w;
       performanceEntryReporter_ :=
         {| clockReads := S (clockReads (performanceEntryReporter_ w));
            reportedEvents := reportedEvents (performanceEntryReporter_ w) |};
       reporterExpired := false |}.
Proof.
  intros Halive. unfold onEventProcessingStart, lock. rewrite Halive. simpl.
  destruct (eventsInFlight_ w !! tag); unfold set_eventsInFlight, set_reporter; simpl;
    by rewrite Halive.
Qed.

Lemma onEventProcessingEnd_spec tag w w' :
  reporterExpired w = false →
  onEventProcessingEnd tag w = Returned w' →
  w' =
    {| eventsInFlight_ :=
         match eventsInFlight_ w !! tag with
         | Some e =>
             <[tag := set_processingEndTime
                        (clock (clockReads (performanceEntryReporter_ w))) e]>
               (eventsInFlight_ w)
         | None => eventsInFlight_ w
         end;
       sCurrentEventTag_ := sCurrentEventTag_ w;
       performanceEntryReporter_ :=
         {| clockReads := S (clockReads (performanceEntryReporter_ w));
            reportedEvents := reportedEvents (performanceEntryReporter_ w) |};
       reporterExpired := false |} ∧
    (REACT_NATIVE_DEBUG = true →
     ∀ e, eventsInFlight_ w !! tag = Some e → is_Some (processingStartTime e)).
Proof.
  intros Halive. unfold onEventProcessingEnd, lock. rewrite Halive. simpl.
  destruct (eventsInFlight_ w !! tag) as [e|]; unfold set_eventsInFlight, set_reporter; simpl.
  - unfold react_native_assert.
    destruct (REACT_NATIVE_DEBUG && negb (has_value (processingStartTime e))) eqn:Hassert;
      simpl; [done|].
    intros [= <-]. rewrite Halive. split; [done|].
    intros Hdebug e' [= <-]. rewrite Hdebug in Hassert. simpl in Hassert.
    destruct (processingStartTime e); [by eexists|done].
  - intros [= <-]. rewrite Halive. split; [done|]. by intros _ e.
Qed.

Lemma dispatchParks_ready pending e :
  dispatchParks pending e = true →
  ready e ∧ isWaitingForMount e = false ∧ is_Some (target e).
Proof.
  unfold dispatchParks. intros [Hskip Hpend]%andb_true_iff.
  apply negb_true_iff, orb_false_iff in Hskip as [Hready Hwait].
  split; [by apply isWaitingForDispatch_false|]. split; [done|].
  unfold hasPendingRenderingUpdates in Hpend. destruct (target e); [by eexists|done].
Qed.

Lemma dispatchFinalizes_ready pending e :
  dispatchFinalizes pending e = true → ready e ∧ isWaitingForMount e = false.
Proof.
  unfold dispatchFinalizes. intros [Hskip Hpend]%andb_true_iff.
  apply negb_true_iff, orb_false_iff in Hskip as [Hready Hwait].
  split; [by apply isWaitingForDispatch_false|done].
Qed.

Lemma mountFinalizes_parked root e :
  mountFinalizes root e = true → isWaitingForMount e = true.
Proof. unfold mountFinalizes. by intros [? _]%andb_true_iff. Qed.

(** ** Sink unavailable *)

Lemma sink_unavailable_noop_aux w :
  lock w = None →
  (∀ rawName tgt ts, onEventStart rawName tgt ts w = (EMPTY_EVENT_TAG, w)) ∧
  (∀ tag, onEventProcessingStart tag w = w) ∧
  (∀ tag, onEventProcessingEnd tag w = Returned w) ∧
  (∀ pending, dispatchPendingEventTimingEntries pending w = Returned w) ∧
  (∀ root mountTime, shadowTreeDidMount root mountTime w = Returned w).
Proof.
  intros Hlock.
  unfold onEventStart, onEventProcessingStart, onEventProcessingEnd,
    dispatchPendingEventTimingEntries, shadowTreeDidMount.
  rewrite Hlock. done.
Qed.

Lemma step_expired w c w' :
  reporterExpired w = true → step w c = Returned w' → w' = w.
Proof.
  intros Hexp Hstep.
  assert (Hlock : lock w = None) by by apply lock_None.
  destruct (sink_unavailable_noop_aux w Hlock) as (Hs & Hps & Hpe & Hd & Hm).
  destruct c; simpl in Hstep;
    rewrite ?Hs, ?Hps, ?Hpe, ?Hd, ?Hm in Hstep; injection Hstep as <-; try done.
  destruct w. simpl in *. by subst.
Qed.

(** C8. If the weak reference to the reporting sink cannot be locked, every
    entry point returns at once and leaves the world as it is:
    [onEventStart] returns the empty tag, the other entry points return
    normally (no assertion, no exception), and the table keeps its records
    for a later attempt. *)
Theorem sink_unavailable_is_noop w :
  lock w = None →
  (∀ rawName tgt ts, onEventStart rawName tgt ts w = (EMPTY_EVENT_TAG, w)) ∧
  (∀ tag, onEventProcessingStart tag w = w) ∧
  (∀ tag, onEventProcessingEnd tag w = Returned w) ∧
  (∀ pending, dispatchPendingEventTimingEntries pending w = Returned w) ∧
  (∀ root mountTime, shadowTreeDidMount root mountTime w = Returned w).
Proof. apply sink_unavailable_noop_aux. Qed.

(** ** Records parked for a mount *)

Lemma parked_mount_ready root w :
  parked w →
  ∀ tag e, eventsInFlight_ w !! tag = Some e → mountFinalizes root e = true → ready e.
Proof.
  intros Hp tag e Hlook Hfin%mountFinalizes_parked.
  by destruct (Hp tag e Hlook Hfin).
Qed.

Lemma parked_update w tag e e' w' :
  parked w →
  eventsInFlight_ w !! tag = Some e →
  (isWaitingForMount e' = true → ready e' ∧ is_Some (target e')) →
  eventsInFlight_ w' = <[tag := e']> (eventsInFlight_ w) →
  parked w'.
Proof.
  intros Hp Hlook He' Htable tag1 e1. rewrite Htable.
  destruct (decide (tag1 = tag)) as [->|Hne].
  - rewrite lookup_insert_eq. by intros [= <-].
  - rewrite lookup_insert_ne by done. apply Hp.
Qed.

Lemma step_parked w c w' :
  parked w → step w c = Returned w' → parked w'.
Proof.
  intros Hp Hstep.
  destruct (reporterExpired w) eqn:Halive.
  { by rewrite (step_expired w c w' Halive Hstep). }
  destruct c as [rawName tgt ts|tag0|tag0|pending|root mountTime|]; simpl in Hstep.
  - injection Hstep as <-.
    destruct (getSupportedEvents !! StrKey rawName) as [reportedName|] eqn:Hreg.
    + rewrite (onEventStart_tracked _ _ _ _ _ Halive Hreg).
      intros tag e. simpl. rewrite emplace_lookup.
      destruct (eventsInFlight_ w !! tag) as [e0|] eqn:Hlook.
      * intros [= <-]. by apply (Hp tag).
      * destruct (decide _); [|done]. by intros [= <-].
    + by rewrite onEventStart_untracked by by right.
  - injection Hstep as <-. rewrite onEventProcessingStart_spec by done.
    destruct (eventsInFlight_ w !! tag0) as [e|] eqn:Hlook; [|done].
    eapply (parked_update w tag0 e); [done..| |done]. simpl.
    intros Hw. destruct (Hp tag0 e Hlook Hw) as [[_ Hend] Htgt].
    split; [split|]; simpl; eauto.
  - apply onEventProcessingEnd_spec in Hstep as [-> _]; [|done].
    destruct (eventsInFlight_ w !! tag0) as [e|] eqn:Hlook; [|done].
    eapply (parked_update w tag0 e); [done..| |done]. simpl.
    intros Hw. destruct (Hp tag0 e Hlook Hw) as [[Hstart _] Htgt].
    split; [split|]; simpl; eauto.
  - destruct (dispatch_spec pending w Halive) as (table' & news & Heq & Htable & _).
    rewrite Heq in Hstep. injection Hstep as <-.
    intros tag e'. simpl. rewrite Htable.
    destruct (eventsInFlight_ w !! tag) as [e|] eqn:Hlook; [|done].
    destruct (dispatchFinalizes pending e); [done|].
    destruct (dispatchParks pending e) eqn:Hpark.
    + intros [= <-] _. simpl.
      destruct (dispatchParks_ready _ _ Hpark) as (Hready & _ & Htgt). done.
    + intros [= <-]. by apply (Hp tag).
  - destruct (mount_spec root mountTime w Halive (parked_mount_ready root w Hp))
      as (table' & news & Heq & Htable & _).
    rewrite Heq in Hstep. injection Hstep as <-.
    intros tag e'. simpl. rewrite Htable.
    destruct (eventsInFlight_ w !! tag) as [e|] eqn:Hlook; [|done].
    destruct (mountFinalizes root e); [done|]. intros [= <-]. by apply (Hp tag).
  - by injection Hstep as <-.
Qed.

Lemma run_parked calls : ∀ w w',
  parked w → run w calls = Returned w' → parked w'.
Proof.
  induction calls as [|c calls IH]; intros w w' Hp; simpl.
  - by intros [= <-].
  - destruct (step w c) as [w1| |] eqn:Hstep; simpl; [|done..].
    apply IH. by eapply step_parked.
Qed.

Lemma initial_parked w : initial w → parked w.
Proof. intros [Htable _] tag e. by rewrite Htable, lookup_empty. Qed.

Lemma reached_parked w0 calls w :
  initial w0 → run w0 calls = Returned w → parked w.
Proof. intros Hinit%initial_parked Hrun. by eapply run_parked. Qed.

(** ** Runs and the history of reports *)

Lemma run_app calls1 calls2 w :
  run w (calls1 ++ calls2) = (w1 ← run w calls1; run w1 calls2).
Proof.
  revert w. induction calls1 as [|c calls1 IH]; intros w; simpl; [done|].
  destruct (step w c); simpl; [apply IH|done..].
Qed.

Lemma reachable_run w calls w' :
  reachable w → run w calls = Returned w' → reachable w'.
Proof.
  intros (w0 & calls0 & Hinit & Hrun0) Hrun. exists w0, (calls0 ++ calls).
  split; [done|]. rewrite run_app, Hrun0. done.
Qed.

(** What a step reports: records that were in the table, each once, and
    each is out of the table when the step returns. *)
Lemma step_reports w c w1 :
  parked w → step w c = Returned w1 →
  ∃ news,
    reportedEvents (performanceEntryReporter_ w1)
      = reportedEvents (performanceEntryReporter_ w) ++ news ∧
    NoDup (report_tag <$> news) ∧
    ∀ ev, ev ∈ news →
      eventsInFlight_ w1 !! report_tag ev = None ∧
      ∃ e d, eventsInFlight_ w !! report_tag ev = Some e ∧
             reports (report_tag ev) e d ev.
Proof.
  intros Hp Hstep.
  assert (Hnone : reportedEvents (performanceEntryReporter_ w1)
                    = reportedEvents (performanceEntryReporter_ w) →
            ∃ news,
              reportedEvents (performanceEntryReporter_ w1)
                = reportedEvents (performanceEntryReporter_ w) ++ news ∧
              NoDup (report_tag <$> news) ∧
              ∀ ev, ev ∈ news →
                eventsInFlight_ w1 !! report_tag ev = None ∧
                ∃ e d, eventsInFlight_ w !! report_tag ev = Some e ∧
                       reports (report_tag ev) e d ev).
  { intros Heq. exists []. rewrite app_nil_r. split; [done|].
    split; [constructor|]. by intros ev ?%elem_of_nil. }
  destruct (reporterExpired w) eqn:Halive.
  { apply Hnone. by rewrite (step_expired w c w1 Halive Hstep). }
  destruct c as [rawName tgt ts|tag0|tag0|pending|root mountTime|]; simpl in Hstep.
  - apply Hnone. injection Hstep as <-.
    destruct (getSupportedEvents !! StrKey rawName) as [reportedName|] eqn:Hreg.
    + by rewrite (onEventStart_tracked _ _ _ _ _ Halive Hreg).
    + by rewrite onEventStart_untracked by by right.
  - apply Hnone. injection Hstep as <-. by rewrite onEventProcessingStart_spec by done.
  - apply Hnone. by apply onEventProcessingEnd_spec in Hstep as [-> _].
  - destruct (dispatch_spec pending w Halive)
      as (table' & news & Heq & Htable & Hnodup & Hnews & _).
    rewrite Heq in Hstep. injection Hstep as <-. simpl.
    exists news. split; [done|]. split; [done|].
    intros ev Hev. destruct (Hnews ev Hev) as (e & n & Hlook & Hfin & Hrep).
    split; [by rewrite Htable, Hlook, Hfin|]. by exists e, (clock n - startTime e)%Z.
  - destruct (mount_spec root mountTime w Halive (parked_mount_ready root w Hp))
      as (table' & news & Heq & Htable & Hnodup & Hnews).
    rewrite Heq in Hstep. injection Hstep as <-. simpl.
    exists news. split; [done|]. split; [done|].
    intros ev Hev. apply Hnews in Hev as (e & Hlook & Hfin & Hrep).
    split; [by rewrite Htable, Hlook, Hfin|]. by exists e, (mountTime - startTime e)%Z.
  - apply Hnone. by injection Hstep as <-.
Qed.

Lemma step_reports_grow w c w' :
  parked w → step w c = Returned w' →
  reportedEvents (performanceEntryReporter_ w)
    `prefix_of` reportedEvents (performanceEntryReporter_ w').
Proof.
  intros Hp Hstep. destruct (step_reports w c w' Hp Hstep) as (news & Heq & _).
  by exists news.
Qed.

Lemma run_reports_grow calls : ∀ w w',
  parked w → run w calls = Returned w' →
  reportedEvents (performanceEntryReporter_ w)
    `prefix_of` reportedEvents (performanceEntryReporter_ w').
Proof.
  induction calls as [|c calls IH]; intros w w' Hp; simpl.
  - by intros [= <-].
  - destruct (step w c) as [w1| |] eqn:Hstep; simpl; [|done..].
    intros Hrun. etrans; [by eapply step_reports_grow|].
    apply IH; [by eapply step_parked|done].
Qed.

Lemma run_reportedTags calls w w' tag :
  parked w → run w calls = Returned w' →
  tag ∈ reportedTags w → tag ∈ reportedTags w'.
Proof.
  intros Hp Hrun. destruct (run_reports_grow calls w w' Hp Hrun) as [news Heq].
  unfold reportedTags. rewrite Heq, fmap_app, elem_of_app. by left.
Qed.

Lemma reported_stays calls w w' ev :
  parked w → run w calls = Returned w' →
  ev ∈ reportedEvents (performanceEntryReporter_ w) →
  ev ∈ reportedEvents (performanceEntryReporter_ w').
Proof.
  intros Hp Hrun Hev. destruct (run_reports_grow calls w w' Hp Hrun) as [news ->].
  apply elem_of_app. by left.
Qed.

(** ** The tag counter *)

Lemma EventTag_modulus_pos : (0 < EventTag_modulus)%N.
Proof.
  unfold EventTag_modulus. assert (2 ^ EventTag_bits ≠ 0)%N; [|lia].
  by apply N.pow_nonzero.
Qed.

Lemma next_tag_le (n : N) : ((n + 1) mod EventTag_modulus ≤ n + 1)%N.
Proof. apply N.Div0.mod_le. Qed.

Lemma next_tag_small (n : N) :
  (n + 1 < EventTag_modulus)%N → ((n + 1) mod EventTag_modulus = n + 1)%N.
Proof. intros Hlt. by apply N.mod_small. Qed.

Lemma onEventStart_tag rawName tgt ts w :
  ((onEventStart rawName tgt ts w).1 = EMPTY_EVENT_TAG ∧
   (onEventStart rawName tgt ts w).2 = w) ∨
  ((onEventStart rawName tgt ts w).1 = ((sCurrentEventTag_ w + 1) mod EventTag_modulus)%N ∧
   sCurrentEventTag_ (onEventStart rawName tgt ts w).2
     = ((sCurrentEventTag_ w + 1) mod EventTag_modulus)%N).
Proof.
  unfold onEventStart. destruct (lock w); [|by left].
  destruct (getSupportedEvents !! StrKey rawName); [|by left].
  right. by destruct ts.
Qed.

Lemma step_counter w c w' :
  step w c = Returned w' →
  (sCurrentEventTag_ w' ≤ sCurrentEventTag_ w + starts [c])%N ∧
  (starts [c] = 0%N → sCurrentEventTag_ w' = sCurrentEventTag_ w).
Proof.
  destruct c as [rawName tgt ts|tag|tag|pending|root mountTime|]; simpl.
  - intros [= <-]. split; [|lia].
    destruct (onEventStart_tag rawName tgt ts w) as [[_ ->]|[_ ->]]; [lia|].
    pose proof (next_tag_le (sCurrentEventTag_ w)). lia.
  - intros [= <-]. unfold onEventProcessingStart. destruct (lock w); [|split; [lia|done]].
    simpl. destruct (eventsInFlight_ w !! tag); simpl; split; (lia || done).
  - unfold onEventProcessingEnd. destruct (lock w); [|intros [= <-]; split; [lia|done]].
    simpl. destruct (eventsInFlight_ w !! tag); [|intros [= <-]; split; [simpl; lia|done]].
    destruct (react_native_assert _ _); simpl; [|done..].
    intros [= <-]. split; [simpl; lia|done].
  - unfold dispatchPendingEventTimingEntries.
    destruct (lock w); [|intros [= <-]; split; [lia|done]].
    destruct (dispatchLoop _ _ _ _) as [[table r]| |]; simpl; [|done..].
    intros [= <-]. split; [simpl; lia|done].
  - unfold shadowTreeDidMount. destruct (lock w); [|intros [= <-]; split; [lia|done]].
    destruct (mountLoop _ _ _ _ _) as [[table r]| |]; simpl; [|done..].
    intros [= <-]. split; [simpl; lia|done].
  - intros [= <-]. split; [simpl; lia|done].
Qed.

Lemma starts_cons c calls : starts (c :: calls) = (starts [c] + starts calls)%N.
Proof. destruct c; simpl; lia. Qed.

Lemma starts_app calls1 calls2 :
  starts (calls1 ++ calls2) = (starts calls1 + starts calls2)%N.
Proof.
  induction calls1 as [|c calls1 IH]; [done|].
  rewrite <- app_comm_cons, (starts_cons c calls1), (starts_cons c (calls1 ++ calls2)), IH.
  lia.
Qed.

Lemma run_counter calls : ∀ w w',
  run w calls = Returned w' →
  (sCurrentEventTag_ w' ≤ sCurrentEventTag_ w + starts calls)%N.
Proof.
  induction calls as [|c calls IH]; intros w w'.
  - simpl. intros [= <-]. lia.
  - intros Hrun. simpl in Hrun.
    destruct (step w c) as [w1| |] eqn:Hstep; simpl in Hrun; [|done..].
    apply IH in Hrun. apply step_counter in Hstep as [Hstep _].
    rewrite (starts_cons c calls). lia.
Qed.

Lemma noWrap_cons w c calls w1 :
  noWrap w (c :: calls) → step w c = Returned w1 →
  noWrap w [c] ∧ noWrap w1 calls.
Proof.
  unfold noWrap. rewrite (starts_cons c calls). intros Hlt [Hstep _]%step_counter.
  split; lia.
Qed.

Lemma noWrap_app w calls1 calls2 w1 :
  noWrap w (calls1 ++ calls2) → run w calls1 = Returned w1 →
  noWrap w calls1 ∧ noWrap w1 calls2.
Proof.
  unfold noWrap. rewrite starts_app. intros Hlt Hrun%run_counter. split; lia.
Qed.

(** ** Tags, as long as the counter does not wrap around *)

Lemma TagInvariant_fresh w :
  TagInvariant w → eventsInFlight_ w !! (sCurrentEventTag_ w + 1)%N = None.
Proof.
  intros Hinv. destruct (eventsInFlight_ w !! _) as [e|] eqn:Hlook; [|done].
  apply (inv_tracked_issued w Hinv) in Hlook. lia.
Qed.

Lemma onEventStart_fresh rawName tgt ts w reportedName :
  reporterExpired w = false →
  getSupportedEvents !! StrKey rawName = Some reportedName →
  TagInvariant w →
  (sCurrentEventTag_ w + 1 < EventTag_modulus)%N →
  onEventStart rawName tgt ts w =
    ((sCurrentEventTag_ w + 1)%N,
     {| eventsInFlight_ :=
          <[(sCurrentEventTag_ w + 1)%N :=
              newEventEntry reportedName tgt
                (default (clock (clockReads (performanceEntryReporter_ w))) ts)]>
            (eventsInFlight_ w);
        sCurrentEventTag_ := (sCurrentEventTag_ w + 1)%N;
        performanceEntryReporter_ :=
          {| clockReads := match ts with Some _ => 0 | None => 1 end
                           + clockReads (performanceEntryReporter_ w);
             reportedEvents := reportedEvents (performanceEntryReporter_ w) |};
        reporterExpired := false |}).
Proof.
  intros Halive Hreg Hinv Hroom.
  rewrite (onEventStart_tracked _ _ _ _ _ Halive Hreg).
  rewrite (next_tag_small _ Hroom). unfold emplace.
  by rewrite (TagInvariant_fresh w Hinv).
Qed.

Lemma onEventStart_TagInvariant rawName tgt ts w :
  TagInvariant w →
  (sCurrentEventTag_ w + 1 < EventTag_modulus)%N →
  TagInvariant (onEventStart rawName tgt ts w).2.
Proof.
  intros Hinv Hroom.
  destruct (reporterExpired w) eqn:Halive.
  { rewrite onEventStart_untracked; [done|left]. unfold lock. by rewrite Halive. }
  destruct (getSupportedEvents !! StrKey rawName) as [reportedName|] eqn:Hreg.
  2: { rewrite onEventStart_untracked; [done|by right]. }
  rewrite (onEventStart_fresh _ _ _ _ _ Halive Hreg Hinv Hroom).
  destruct Hinv as [Htracked Hissued Honce Hdead].
  split; unfold reportedTags in *; simpl.
  - intros tag e. destruct (decide (tag = (sCurrentEventTag_ w + 1)%N)) as [->|Hne].
    + intros _. lia.
    + rewrite lookup_insert_ne by done. intros Hlook%Htracked. lia.
  - intros tag Hrep%Hissued. lia.
  - done.
  - intros tag Hrep. pose proof (Hissued tag Hrep).
    rewrite lookup_insert_ne by lia. by apply Hdead.
Qed.

(** Updating a tracked record, or reading the clock, keeps the tags. *)
Lemma TagInvariant_update w tag e e' r :
  TagInvariant w →
  eventsInFlight_ w !! tag = Some e →
  reportedEvents r = reportedEvents (performanceEntryReporter_ w) →
  TagInvariant {| eventsInFlight_ := <[tag := e']> (eventsInFlight_ w);
                  sCurrentEventTag_ := sCurrentEventTag_ w;
                  performanceEntryReporter_ := r;
                  reporterExpired := reporterExpired w |}.
Proof.
  intros [Htracked Hissued Honce Hdead] Hlook Hr.
  split; unfold reportedTags in *; simpl; rewrite ?Hr; try done.
  - intros tag1 e1. destruct (decide (tag1 = tag)) as [->|Hne].
    + intros _. by eapply Htracked.
    + rewrite lookup_insert_ne by done. apply Htracked.
  - intros tag1 Hrep. rewrite lookup_insert_ne; [by apply Hdead|].
    intros ->. apply Hdead in Hrep. congruence.
Qed.

Lemma TagInvariant_reporter_clock w n :
  TagInvariant w →
  TagInvariant {| eventsInFlight_ := eventsInFlight_ w;
                  sCurrentEventTag_ := sCurrentEventTag_ w;
                  performanceEntryReporter_ :=
                    {| clockReads := n;
                       reportedEvents := reportedEvents (performanceEntryReporter_ w) |};
                  reporterExpired := reporterExpired w |}.
Proof. intros [? ? ? ?]. by split. Qed.

Lemma onEventProcessingStart_TagInvariant tag w :
  TagInvariant w → TagInvariant (onEventProcessingStart tag w).
Proof.
  intros Hinv. destruct (reporterExpired w) eqn:Halive.
  { unfold onEventProcessingStart, lock. by rewrite Halive. }
  rewrite onEventProcessingStart_spec by done. rewrite <- Halive.
  destruct (eventsInFlight_ w !! tag) as [e|] eqn:Hlook.
  - by eapply TagInvariant_update.
  - by apply TagInvariant_reporter_clock.
Qed.

Lemma onEventProcessingEnd_TagInvariant tag w w' :
  TagInvariant w → onEventProcessingEnd tag w = Returned w' → TagInvariant w'.
Proof.
  intros Hinv Hret. destruct (reporterExpired w) eqn:Halive.
  { unfold onEventProcessingEnd, lock in Hret. rewrite Halive in Hret. by injection Hret as <-. }
  apply onEventProcessingEnd_spec in Hret as [-> _]; [|done]. rewrite <- Halive.
  destruct (eventsInFlight_ w !! tag) as [e|] eqn:Hlook.
  - by eapply TagInvariant_update.
  - by apply TagInvariant_reporter_clock.
Qed.

(** A finalization entry point keeps the tags: what it reports was tracked
    and is tracked no longer, and it adds nothing to the table. *)
Lemma finalization_TagInvariant w c w' :
  parked w → TagInvariant w → starts [c] = 0%N →
  (∀ tag, eventsInFlight_ w !! tag = None → eventsInFlight_ w' !! tag = None) →
  step w c = Returned w' → TagInvariant w'.
Proof.
  intros Hp [Htracked Hissued Honce Hdead] Hc Hkept Hstep.
  destruct (step_reports w c w' Hp Hstep) as (news & Heq & Hnodup & Hnews).
  destruct (step_counter w c w' Hstep) as [_ Hcounter]. specialize (Hcounter Hc).
  assert (Hnew : ∀ tag, tag ∈ report_tag <$> news →
                        is_Some (eventsInFlight_ w !! tag) ∧
                        eventsInFlight_ w' !! tag = None).
  { intros tag (ev & -> & Hev)%list_elem_of_fmap.
    destruct (Hnews ev Hev) as (Hgone & e & d & Hlook & _). split; [by eexists|done]. }
  split; unfold reportedTags in *; rewrite ?Heq, ?Hcounter, ?fmap_app.
  - intros tag e' Hlook'. destruct (eventsInFlight_ w !! tag) as [e|] eqn:Hlook.
    + by eapply Htracked.
    + rewrite (Hkept tag Hlook) in Hlook'. done.
  - intros tag [Hold|[[e Hlook] _]%Hnew]%elem_of_app; [by apply Hissued|].
    by apply (Htracked tag e).
  - apply NoDup_app. split; [done|]. split; [|done].
    intros tag Hold%Hdead [[e Hlook] _]%Hnew. congruence.
  - intros tag [Hold%Hdead|[_ Hgone]%Hnew]%elem_of_app; [by apply Hkept|done].
Qed.

Lemma initial_TagInvariant w : initial w → TagInvariant w.
Proof.
  intros [Htable Hreports]. split; unfold reportedTags; rewrite ?Htable, ?Hreports; simpl.
  - intros tag e. by rewrite lookup_empty.
  - by intros tag ?%elem_of_nil.
  - constructor.
  - by intros tag ?%elem_of_nil.
Qed.

Lemma step_TagInvariant w c w' :
  parked w → TagInvariant w → noWrap w [c] → step w c = Returned w' → TagInvariant w'.
Proof.
  intros Hp Hinv Hroom Hstep.
  destruct (reporterExpired w) eqn:Halive.
  { by rewrite (step_expired w c w' Halive Hstep). }
  destruct c as [rawName tgt ts|tag0|tag0|pending|root mountTime|].
  - simpl in Hstep. injection Hstep as <-. apply onEventStart_TagInvariant; [done|].
    unfold noWrap in Hroom. simpl in Hroom. lia.
  - simpl in Hstep. injection Hstep as <-. by apply onEventProcessingStart_TagInvariant.
  - by eapply onEventProcessingEnd_TagInvariant.
  - apply (finalization_TagInvariant w (DispatchPendingEventTimingEntries pending) w'
             Hp Hinv eq_refl); [|done].
    simpl in Hstep.
    destruct (dispatch_spec pending w Halive) as (table' & news & Heq & Htable & _).
    rewrite Heq in Hstep. injection Hstep as <-. simpl.
    intros tag Hnone. by rewrite Htable, Hnone.
  - apply (finalization_TagInvariant w (ShadowTreeDidMount root mountTime) w'
             Hp Hinv eq_refl); [|done].
    simpl in Hstep.
    destruct (mount_spec root mountTime w Halive (parked_mount_ready root w Hp))
      as (table' & news & Heq & Htable & _).
    rewrite Heq in Hstep. injection Hstep as <-. simpl.
    intros tag Hnone. by rewrite Htable, Hnone.
  - simpl in Hstep. injection Hstep as <-. destruct Hinv. by split.
Qed.

Lemma run_TagInvariant calls : ∀ w w',
  parked w → TagInvariant w → noWrap w calls → run w calls = Returned w' →
  TagInvariant w'.
Proof.
  induction calls as [|c calls IH]; intros w w' Hp Hinv Hroom; simpl.
  - by intros [= <-].
  - destruct (step w c) as [w1| |] eqn:Hstep; simpl; [|done..].
    destruct (noWrap_cons w c calls w1 Hroom Hstep) as [Hroom1 Hroom2].
    apply IH; [by eapply step_parked|by eapply step_TagInvariant|done].
Qed.

Lemma reached_TagInvariant w0 calls w :
  initial w0 → noWrap w0 calls → run w0 calls = Returned w → TagInvariant w.
Proof.
  intros Hinit Hroom Hrun.
  eapply run_TagInvariant; [by apply initial_parked|by apply initial_TagInvariant|done..].
Qed.

(** ** What one step does to a tracked record *)

Lemma NoDup_fmap_eq {A B} (f : A → B) (l : list A) x y :
  NoDup (f <$> l) → x ∈ l → y ∈ l → f x = f y → x = y.
Proof.
  induction l as [|a l IH]; simpl; [by intros _ ?%elem_of_nil|].
  intros [Hfresh Hnd]%NoDup_cons [->|Hx]%elem_of_cons [->|Hy]%elem_of_cons Heq.
  - done.
  - destruct Hfresh. rewrite Heq. apply list_elem_of_fmap. by exists y.
  - destruct Hfresh. rewrite <- Heq. apply list_elem_of_fmap. by exists x.
  - by apply IH.
Qed.

(** A tracked record stays under its tag, with its name, target, start
    time and interaction id, or the step is a finalization that reports
    it and takes it out of the table. *)
Lemma step_record w c w1 tag e :
  parked w →
  step w c = Returned w1 →
  eventsInFlight_ w !! tag = Some e →
  ∃ news,
    reportedEvents (performanceEntryReporter_ w1)
      = reportedEvents (performanceEntryReporter_ w) ++ news ∧
    NoDup (report_tag <$> news) ∧
    ((∃ e1, eventsInFlight_ w1 !! tag = Some e1 ∧
            name e1 = name e ∧ target e1 = target e ∧
            startTime e1 = startTime e ∧ interactionId e1 = interactionId e ∧
            (processingStartTime e1 = processingStartTime e ∨ c = OnEventProcessingStart tag) ∧
            (processingEndTime e1 = processingEndTime e ∨ c = OnEventProcessingEnd tag) ∧
            (isWaitingForMount e1 = isWaitingForMount e ∨
             (isWaitingForMount e = false ∧ isWaitingForMount e1 = true ∧ ready e)) ∧
            (tag ∉ report_tag <$> news)) ∨
     (eventsInFlight_ w1 !! tag = None ∧ ready e ∧
      ∃ ev d, ev ∈ news ∧ reports tag e d ev ∧
        ((∃ pending, c = DispatchPendingEventTimingEntries pending ∧
                     isWaitingForMount e = false) ∨
         (∃ root mountTime, c = ShadowTreeDidMount root mountTime ∧
                            isWaitingForMount e = true ∧
                            d = (mountTime - startTime e)%Z)))).
Proof.
  intros Hp Hstep Hlook.
  destruct (step_reports w c w1 Hp Hstep) as (news & Heq & Hnodup & Hnews).
  exists news. split; [done|]. split; [done|].
  assert (Hnot : ∀ e1, eventsInFlight_ w1 !! tag = Some e1 → tag ∉ report_tag <$> news).
  { intros e1 Hlook1 (ev & -> & Hev)%list_elem_of_fmap.
    destruct (Hnews ev Hev) as [Hgone _]. congruence. }
  assert (Hsame : eventsInFlight_ w1 !! tag = Some e →
            ∃ e1, eventsInFlight_ w1 !! tag = Some e1 ∧
              name e1 = name e ∧ target e1 = target e ∧
              startTime e1 = startTime e ∧ interactionId e1 = interactionId e ∧
              (processingStartTime e1 = processingStartTime e ∨ c = OnEventProcessingStart tag) ∧
              (processingEndTime e1 = processingEndTime e ∨ c = OnEventProcessingEnd tag) ∧
              (isWaitingForMount e1 = isWaitingForMount e ∨
               (isWaitingForMount e = false ∧ isWaitingForMount e1 = true ∧ ready e)) ∧
              (tag ∉ report_tag <$> news)).
  { intros Hlook1. exists e. do 5 (split; [done|]).
    split; [by left|]. split; [by left|]. split; [by left|]. by eapply Hnot. }
  destruct (reporterExpired w) eqn:Halive.
  { left. apply Hsame. by rewrite (step_expired w c w1 Halive Hstep). }
  destruct c as [rawName tgt ts|tag0|tag0|pending|root mountTime|]; simpl in Hstep.
  - left. apply Hsame. injection Hstep as <-.
    destruct (getSupportedEvents !! StrKey rawName) as [reportedName|] eqn:Hreg.
    + rewrite (onEventStart_tracked _ _ _ _ _ Halive Hreg). simpl.
      by rewrite emplace_lookup, Hlook.
    + by rewrite onEventStart_untracked by by right.
  - left. injection Hstep as <-.
    rewrite onEventProcessingStart_spec in Hsame, Hnot |- * by done. simpl in *.
    destruct (decide (tag0 = tag)) as [->|Hne].
    + rewrite Hlook in Hnot |- *. rewrite lookup_insert_eq in Hnot |- *.
      eexists. split; [done|]. simpl. do 4 (split; [done|]).
      split; [by right|]. split; [by left|]. split; [by left|]. by eapply Hnot.
    + apply Hsame. destruct (eventsInFlight_ w !! tag0); [|done].
      by rewrite lookup_insert_ne by done.
  - left. apply onEventProcessingEnd_spec in Hstep as [-> _]; [|done]. simpl in *.
    destruct (decide (tag0 = tag)) as [->|Hne].
    + rewrite Hlook in Hnot |- *. rewrite lookup_insert_eq in Hnot |- *.
      eexists. split; [done|]. simpl. do 4 (split; [done|]).
      split; [by left|]. split; [by right|]. split; [by left|]. by eapply Hnot.
    + apply Hsame. destruct (eventsInFlight_ w !! tag0); [|done].
      by rewrite lookup_insert_ne by done.
  - destruct (dispatch_spec pending w Halive)
      as (table' & news' & Hret & Htable & _ & Hnews' & Hall).
    rewrite Hret in Hstep. injection Hstep as <-. simpl in *.
    apply app_inv_head in Heq as <-.
    rewrite Htable, Hlook in Hsame, Hnot |- *.
    destruct (dispatchFinalizes pending e) eqn:Hfin.
    + right. split; [done|].
      destruct (dispatchFinalizes_ready _ _ Hfin) as [Hready Hwait]. split; [done|].
      apply (Hall tag e Hlook) in Hfin as (ev & -> & Hev)%list_elem_of_fmap.
      destruct (Hnews' ev Hev) as (e' & n & Hlook' & _ & Hrep).
      exists ev, (clock n - startTime e)%Z. split; [done|].
      split; [congruence|]. left. by exists pending.
    + left. destruct (dispatchParks pending e) eqn:Hpark; [|by apply Hsame].
      destruct (dispatchParks_ready _ _ Hpark) as (Hready & Hwait & _).
      eexists. split; [done|]. simpl. do 4 (split; [done|]).
      split; [by left|]. split; [by left|]. split; [by right|]. by eapply Hnot.
  - destruct (mount_spec root mountTime w Halive (parked_mount_ready root w Hp))
      as (table' & news' & Hret & Htable & _ & Hnews').
    rewrite Hret in Hstep. injection Hstep as <-. simpl in *.
    apply app_inv_head in Heq as <-.
    rewrite Htable, Hlook in Hsame, Hnot |- *.
    destruct (mountFinalizes root e) eqn:Hfin; [right|left; by apply Hsame].
    split; [done|].
    pose proof (parked_mount_ready root w Hp tag e Hlook Hfin) as Hready.
    split; [done|]. destruct Hready as [[ps Hps] [pe Hpe]].
    exists {| report_tag := tag; report_name := name e;
              report_startTime := startTime e;
              report_duration := (mountTime - startTime e)%Z;
              report_processingStart := ps; report_processingEnd := pe;
              report_interactionId := interactionId e |}, (mountTime - startTime e)%Z.
    split; [apply Hnews'; exists e; by repeat split|].
    split; [by repeat split|]. right. exists root, mountTime.
    split; [done|]. split; [by eapply mountFinalizes_parked|done].
  - left. apply Hsame. by injection Hstep as <-.
Qed.

(** Only [onEventStart] puts a tag into the table, and the tag is the one
    it returns. *)
Lemma step_adds w c w' tag :
  parked w →
  step w c = Returned w' →
  eventsInFlight_ w !! tag = None →
  is_Some (eventsInFlight_ w' !! tag) →
  ∃ rawName tgt ts,
    c = OnEventStart rawName tgt ts ∧ tag = (onEventStart rawName tgt ts w).1.
Proof.
  intros Hp Hstep Hnone [e' Hlook'].
  destruct (reporterExpired w) eqn:Halive.
  { rewrite (step_expired w c w' Halive Hstep) in Hlook'. congruence. }
  destruct c as [rawName tgt ts|tag0|tag0|pending|root mountTime|]; simpl in Hstep.
  - injection Hstep as <-. exists rawName, tgt, ts. split; [done|].
    destruct (getSupportedEvents !! StrKey rawName) as [reportedName|] eqn:Hreg.
    + rewrite (onEventStart_tracked _ _ _ _ _ Halive Hreg) in *.
      simpl in *. rewrite emplace_lookup, Hnone in Hlook'.
      by destruct (decide _).
    + rewrite onEventStart_untracked in Hlook' by by right. simpl in Hlook'. congruence.
  - injection Hstep as <-. rewrite onEventProcessingStart_spec in Hlook' by done.
    simpl in Hlook'. destruct (eventsInFlight_ w !! tag0) eqn:Hlook0; [|congruence].
    destruct (decide (tag0 = tag)) as [->|Hne]; [congruence|].
    rewrite lookup_insert_ne in Hlook' by done. congruence.
  - apply onEventProcessingEnd_spec in Hstep as [-> _]; [|done].
    simpl in Hlook'. destruct (eventsInFlight_ w !! tag0) eqn:Hlook0; [|congruence].
    destruct (decide (tag0 = tag)) as [->|Hne]; [congruence|].
    rewrite lookup_insert_ne in Hlook' by done. congruence.
  - destruct (dispatch_spec pending w Halive) as (table' & news & Heq & Htable & _).
    rewrite Heq in Hstep. injection Hstep as <-. simpl in Hlook'.
    rewrite Htable, Hnone in Hlook'. done.
  - destruct (mount_spec root mountTime w Halive (parked_mount_ready root w Hp))
      as (table' & news & Heq & Htable & _).
    rewrite Heq in Hstep. injection Hstep as <-. simpl in Hlook'.
    rewrite Htable, Hnone in Hlook'. done.
  - injection Hstep as <-. simpl in Hlook'. congruence.
Qed.

(** ** At most one report per record *)

Lemma dead_tag_processingStart w tag :
  eventsInFlight_ w !! tag = None → unchanged w (onEventProcessingStart tag w).
Proof.
  intros Hdead. destruct (reporterExpired w) eqn:Halive.
  - unfold onEventProcessingStart, lock. rewrite Halive. by repeat split.
  - rewrite onEventProcessingStart_spec by done. rewrite Hdead. by repeat split.
Qed.

Lemma dead_tag_processingEnd w tag :
  eventsInFlight_ w !! tag = None →
  ∃ w', onEventProcessingEnd tag w = Returned w' ∧ unchanged w w'.
Proof.
  intros Hdead. unfold onEventProcessingEnd, lock.
  destruct (reporterExpired w) eqn:Halive.
  - exists w. by repeat split.
  - simpl. rewrite Hdead. eexists. split; [done|]. by repeat split.
Qed.

(** Any number of [onEventStart] calls for a name that the registry
    resolves: they all return, report nothing, stamp no record, and move
    the tag counter on by their number, modulo the number of tags; the tag
    counter's value is tracked after the last of them. *)
Lemma repeated_starts rawName reportedName tgt ts (n : nat) : ∀ w,
  reporterExpired w = false →
  getSupportedEvents !! StrKey rawName = Some reportedName →
  (∀ tag e, eventsInFlight_ w !! tag = Some e → processingStartTime e = None) →
  ∃ w',
    run w (replicate n (OnEventStart rawName tgt ts)) = Returned w' ∧
    reporterExpired w' = false ∧
    reportedEvents (performanceEntryReporter_ w')
      = reportedEvents (performanceEntryReporter_ w) ∧
    (∀ tag e, eventsInFlight_ w' !! tag = Some e → processingStartTime e = None) ∧
    ((0 < n)%nat →
     sCurrentEventTag_ w'
       = ((sCurrentEventTag_ w + N.of_nat n) mod EventTag_modulus)%N ∧
     is_Some (eventsInFlight_ w' !! sCurrentEventTag_ w')).
Proof.
  induction n as [|n IH]; intros w Halive Hreg Hnone.
  - exists w. simpl. split; [done|]. split; [done|]. split; [done|].
    split; [done|lia].
  - pose proof (onEventStart_tracked rawName tgt ts w reportedName Halive Hreg) as Hstart.
    set (w1 := (onEventStart rawName tgt ts w).2).
    assert (Hw1 : w1 = (onEventStart rawName tgt ts w).2) by done.
    rewrite Hstart in Hw1. simpl in Hw1.
    assert (Hnone1 : ∀ tag e, eventsInFlight_ w1 !! tag = Some e →
                              processingStartTime e = None).
    { intros tag e. rewrite Hw1. simpl. rewrite emplace_lookup.
      destruct (eventsInFlight_ w !! tag) as [e0|] eqn:Hlook.
      - intros [= <-]. by apply (Hnone tag).
      - destruct (decide _); [|done]. by intros [= <-]. }
    assert (Halive1 : reporterExpired w1 = false) by by rewrite Hw1.
    destruct (IH w1 Halive1 Hreg Hnone1) as (w' & Hrun & Halive' & Hreports & Hnone' & Hlast).
    exists w'. split; [done|]. split; [done|].
    split; [rewrite Hreports; by rewrite Hw1|]. split; [done|].
    intros _. destruct n as [|n].
    + simpl in Hrun. injection Hrun as <-. rewrite Hw1. simpl.
      split; [done|]. rewrite emplace_lookup.
      destruct (eventsInFlight_ w !! _); [by eexists|].
      rewrite decide_True by done. by eexists.
    + destruct (Hlast ltac:(lia)) as [Hcounter Hsome]. split; [|done].
      rewrite Hcounter, Hw1. simpl. rewrite N.Div0.add_mod_idemp_l.
      f_equal. lia.
Qed.

(** C1, as the code has it.  In every world a run reaches, whatever is
    called next, the records it reports were in the table, no two of its
    reports are for the same tag, and each reported record is out of the
    table when the call returns: a record is handed to [reportEvent] once.
    On a tag that is absent from the table, [onEventProcessingStart] and
    [onEventProcessingEnd] change neither the table nor the reports, no
    call reports anything for it, and only an [onEventStart] that returns
    this very tag puts it into the table again.  As long as the tag
    counter does not wrap around, that never happens: no tag occurs twice
    among all the calls of [reportEvent], and a tag that was reported stays
    absent from the table. *)
Theorem reported_at_most_once w0 calls w :
  initial w0 →
  run w0 calls = Returned w →
  (∀ c w', step w c = Returned w' →
     ∃ news,
       reportedEvents (performanceEntryReporter_ w')
         = reportedEvents (performanceEntryReporter_ w) ++ news ∧
       NoDup (report_tag <$> news) ∧
       (∀ ev, ev ∈ news →
          is_Some (eventsInFlight_ w !! report_tag ev) ∧
          eventsInFlight_ w' !! report_tag ev = None) ∧
       (∀ tag, eventsInFlight_ w !! tag = None →
          (tag ∉ report_tag <$> news) ∧
          (is_Some (eventsInFlight_ w' !! tag) →
           ∃ rawName tgt ts,
             c = OnEventStart rawName tgt ts ∧
             tag = (onEventStart rawName tgt ts w).1))) ∧
  (∀ tag, eventsInFlight_ w !! tag = None →
     unchanged w (onEventProcessingStart tag w) ∧
     (∃ w', onEventProcessingEnd tag w = Returned w' ∧ unchanged w w')) ∧
  (∀ calls' w',
     noWrap w0 (calls ++ calls') →
     run w calls' = Returned w' →
     NoDup (reportedTags w') ∧
     ∀ tag, tag ∈ reportedTags w → eventsInFlight_ w' !! tag = None).
Proof.
  intros Hinit Hrun.
  assert (Hp : parked w) by by eapply reached_parked.
  split; [|split].
  - intros c w' Hstep.
    destruct (step_reports w c w' Hp Hstep) as (news & Heq & Hnodup & Hnews).
    exists news. split; [done|]. split; [done|]. split.
    + intros ev Hev. destruct (Hnews ev Hev) as (Hgone & e & d & Hlook & _).
      split; [by eexists|done].
    + intros tag Hnone. split; [|by apply step_adds].
      intros (ev & -> & Hev)%list_elem_of_fmap.
      destruct (Hnews ev Hev) as (_ & e & d & Hlook & _). congruence.
  - intros tag Hnone.
    split; [by apply dead_tag_processingStart|by apply dead_tag_processingEnd].
  - intros calls' w' Hroom Hrun'.
    assert (Hrun2 : run w0 (calls ++ calls') = Returned w').
    { by rewrite run_app, Hrun. }
    assert (Hinv' : TagInvariant w') by by eapply reached_TagInvariant.
    split; [by apply inv_reported_once|].
    intros tag Hrep. apply (inv_reported_dead w' Hinv').
    exact (run_reportedTags calls' w w' tag Hp Hrun' Hrep).
Qed.

(** ** Only ready records are reported *)

Lemma ready_reports tag e d ev : reports tag e d ev → ready e.
Proof. intros (_ & _ & _ & _ & Hs & He & _). split; by eexists. Qed.

Lemma dispatch_unready pending w :
  ∃ w' news,
    dispatchPendingEventTimingEntries pending w = Returned w' ∧
    reportedEvents (performanceEntryReporter_ w')
      = reportedEvents (performanceEntryReporter_ w) ++ news ∧
    (∀ ev, ev ∈ news →
       ∃ e, eventsInFlight_ w !! report_tag ev = Some e ∧
            processingStartTime e = Some (report_processingStart ev) ∧
            processingEndTime e = Some (report_processingEnd ev)) ∧
    (∀ tag e, eventsInFlight_ w !! tag = Some e → ¬ ready e →
              eventsInFlight_ w' !! tag = Some e ∧ tag ∉ report_tag <$> news).
Proof.
  destruct (reporterExpired w) eqn:Halive.
  - exists w, []. unfold dispatchPendingEventTimingEntries, lock. rewrite Halive.
    split; [done|]. split; [by rewrite app_nil_r|].
    split; [by intros ev ?%elem_of_nil|].
    intros tag e Hlook _. split; [done|]. by intros ?%elem_of_nil.
  - destruct (dispatch_spec pending w Halive)
      as (table' & news & -> & Htable & _ & Hnews & _).
    eexists _, news. split; [done|]. split; [done|]. split.
    + intros ev Hev. destruct (Hnews ev Hev) as (e & n & Hlook & _ & Hrep).
      exists e. split; [done|]. by destruct Hrep as (_ & _ & _ & _ & ? & ? & _).
    + intros tag e Hlook Hunready. simpl. rewrite Htable, Hlook.
      assert (Hwait : isWaitingForDispatch e = true).
      { destruct (isWaitingForDispatch e) eqn:Hw; [done|].
        by apply isWaitingForDispatch_false in Hw. }
      unfold dispatchFinalizes, dispatchParks. rewrite Hwait. simpl.
      split; [done|].
      intros (ev & -> & Hev)%list_elem_of_fmap.
      destruct (Hnews ev Hev) as (e' & n & Hlook' & _ & Hrep).
      apply Hunready. rewrite Hlook in Hlook'. injection Hlook' as ->.
      by eapply ready_reports.
Qed.

Lemma mount_ready root mountTime w :
  parked w →
  ∃ w' news,
    shadowTreeDidMount root mountTime w = Returned w' ∧
    reportedEvents (performanceEntryReporter_ w')
      = reportedEvents (performanceEntryReporter_ w) ++ news ∧
    (∀ ev, ev ∈ news →
       ∃ e, eventsInFlight_ w !! report_tag ev = Some e ∧
            processingStartTime e = Some (report_processingStart ev) ∧
            processingEndTime e = Some (report_processingEnd ev)).
Proof.
  intros Hp. destruct (reporterExpired w) eqn:Halive.
  - exists w, []. unfold shadowTreeDidMount, lock. rewrite Halive.
    split; [done|]. split; [by rewrite app_nil_r|]. by intros ev ?%elem_of_nil.
  - destruct (mount_spec root mountTime w Halive (parked_mount_ready root w Hp))
      as (table' & news & -> & _ & _ & Hnews).
    eexists _, news. split; [done|]. split; [done|].
    intros ev Hev. apply Hnews in Hev as (e & Hlook & _ & Hrep).
    exists e. split; [done|]. by destruct Hrep as (_ & _ & _ & _ & ? & ? & _).
Qed.

(** C2. No record is handed to [reportEvent] without both processing
    timestamps.  In any world, [dispatchPendingEventTimingEntries] returns
    normally and leaves in place, unchanged and unreported, every record
    that lacks one of the two timestamps.  In every world a run reaches,
    both finalization entry points return normally (no assertion fires, no
    empty optional is read), and each record they report carries both
    timestamps, which are the ones reported. *)
Theorem never_reported_unready :
  (∀ pending w,
     ∃ w' news,
       dispatchPendingEventTimingEntries pending w = Returned w' ∧
       reportedEvents (performanceEntryReporter_ w')
         = reportedEvents (performanceEntryReporter_ w) ++ news ∧
       ∀ tag e, eventsInFlight_ w !! tag = Some e → ¬ ready e →
                eventsInFlight_ w' !! tag = Some e ∧ tag ∉ report_tag <$> news) ∧
  (∀ w0 calls w,
     initial w0 → run w0 calls = Returned w →
     (∀ pending,
        ∃ w' news,
          dispatchPendingEventTimingEntries pending w = Returned w' ∧
          reportedEvents (performanceEntryReporter_ w')
            = reportedEvents (performanceEntryReporter_ w) ++ news ∧
          ∀ ev, ev ∈ news →
            ∃ e, eventsInFlight_ w !! report_tag ev = Some e ∧
                 processingStartTime e = Some (report_processingStart ev) ∧
                 processingEndTime e = Some (report_processingEnd ev)) ∧
     (∀ root mountTime,
        ∃ w' news,
          shadowTreeDidMount root mountTime w = Returned w' ∧
          reportedEvents (performanceEntryReporter_ w')
            = reportedEvents (performanceEntryReporter_ w) ++ news ∧
          ∀ ev, ev ∈ news →
            ∃ e, eventsInFlight_ w !! report_tag ev = Some e ∧
                 processingStartTime e = Some (report_processingStart ev) ∧
                 processingEndTime e = Some (report_processingEnd ev))).
Proof.
  split.
  - intros pending w.
    destruct (dispatch_unready pending w) as (w' & news & ? & ? & _ & ?).
    by exists w', news.
  - intros w0 calls w Hinit Hrun.
    assert (Hp : parked w) by by eapply reached_parked.
    split.
    + intros pending.
      destruct (dispatch_unready pending w) as (w' & news & ? & ? & ? & _).
      by exists w', news.
    + intros root mountTime. by apply mount_ready.
Qed.

(** ** Deferral to the mount *)

Lemma hasPendingRenderingUpdates_true tgt pending :
  hasPendingRenderingUpdates tgt pending = true ↔
  ∃ t, tgt = Some t ∧ EventTarget.getSurfaceId t ∈ pending.
Proof.
  unfold hasPendingRenderingUpdates. destruct tgt as [t|].
  - rewrite bool_decide_eq_true. split; [by exists t|]. by intros (t' & [= <-] & ?).
  - split; [done|]. by intros (t & ? & _).
Qed.

Lemma mountFinalizes_true root e :
  mountFinalizes root e = true ↔ isWaitingForMount e = true ∧ onSurfaceOf root e.
Proof.
  unfold mountFinalizes, isTargetInRootShadowNode, onSurfaceOf.
  rewrite andb_true_iff. apply and_iff_compat_l.
  destruct (target e) as [t|], root as [r|]; try rewrite bool_decide_eq_true.
  - split; [by exists t, r|]. by intros (t' & r' & [= <-] & [= <-] & ?).
  - split; [done|]. by intros (t' & r' & _ & ? & _).
  - split; [done|]. by intros (t' & r' & ? & _).
  - split; [done|]. by intros (t' & r' & ? & _).
Qed.

(** C3. [dispatchPendingEventTimingEntries] returns normally and reports no
    record whose target's surface id is in the set it is given; such a
    record stays in the table, and when it is ready and was not yet
    waiting for a mount, the record now kept under its tag has
    [isWaitingForMount] set to true and every other member as it was.
    (The marking is done by a call that gets hold of the sink; without the
    sink the call does nothing at all.) *)
Theorem dispatch_defers_pending_surfaces pending w tag e t :
  eventsInFlight_ w !! tag = Some e →
  target e = Some t →
  EventTarget.getSurfaceId t ∈ pending →
  ∃ w' news,
    dispatchPendingEventTimingEntries pending w = Returned w' ∧
    reportedEvents (performanceEntryReporter_ w')
      = reportedEvents (performanceEntryReporter_ w) ++ news ∧
    (tag ∉ report_tag <$> news) ∧
    is_Some (eventsInFlight_ w' !! tag) ∧
    (lock w ≠ None → ready e → isWaitingForMount e = false →
     ∃ e', eventsInFlight_ w' !! tag = Some e' ∧
           isWaitingForMount e' = true ∧
           name e' = name e ∧
           target e' = target e ∧
           startTime e' = startTime e ∧
           processingStartTime e' = processingStartTime e ∧
           processingEndTime e' = processingEndTime e ∧
           interactionId e' = interactionId e).
Proof.
  intros Hlook Htgt Hsurf.
  assert (Hpend : hasPendingRenderingUpdates (target e) pending = true)
    by (apply hasPendingRenderingUpdates_true; by exists t).
  destruct (reporterExpired w) eqn:Halive.
  - exists w, []. unfold dispatchPendingEventTimingEntries, lock. rewrite Halive.
    split; [done|]. split; [by rewrite app_nil_r|].
    split; [by intros ?%elem_of_nil|]. split; [by eexists|done].
  - destruct (dispatch_spec pending w Halive)
      as (table' & news & -> & Htable & _ & Hnews & _).
    eexists _, news. split; [done|]. split; [done|]. simpl.
    assert (Hfin : dispatchFinalizes pending e = false).
    { unfold dispatchFinalizes. rewrite Hpend. by rewrite andb_false_r. }
    split.
    { intros (ev & -> & Hev)%list_elem_of_fmap.
      destruct (Hnews ev Hev) as (e' & n & Hlook' & Hfin' & _). congruence. }
    rewrite Htable, Hlook, Hfin. split.
    { by destruct (dispatchParks pending e); eexists. }
    intros _ Hready%isWaitingForDispatch_false Hwait.
    unfold dispatchParks. rewrite Hready, Hwait, Hpend. simpl.
    eexists. split; [done|]. by repeat split.
Qed.

(** ** Reports at the mount *)

(** C4. With a sink to report to, in every world a run reaches,
    [shadowTreeDidMount root mountTime] returns normally; what it reports is,
    once each, the records that are waiting for a mount and whose target's
    surface id is the root's, each with its name, start time, processing
    timestamps and interaction id and with the duration
    [mountTime - startTime]; it removes these records from the table; and
    every other record stays as it was. *)
Theorem mount_reports_parked_records w0 calls w root mountTime :
  initial w0 →
  run w0 calls = Returned w →
  lock w ≠ None →
  ∃ w' news,
    shadowTreeDidMount root mountTime w = Returned w' ∧
    reportedEvents (performanceEntryReporter_ w')
      = reportedEvents (performanceEntryReporter_ w) ++ news ∧
    NoDup (report_tag <$> news) ∧
    (∀ ev, ev ∈ news →
       ∃ e, eventsInFlight_ w !! report_tag ev = Some e ∧
            isWaitingForMount e = true ∧ onSurfaceOf root e ∧
            reports (report_tag ev) e (mountTime - startTime e) ev) ∧
    (∀ tag e, eventsInFlight_ w !! tag = Some e →
       isWaitingForMount e = true → onSurfaceOf root e →
       eventsInFlight_ w' !! tag = None ∧
       ∃ ev, ev ∈ news ∧ reports tag e (mountTime - startTime e) ev) ∧
    (∀ tag e, eventsInFlight_ w !! tag = Some e →
       ¬ (isWaitingForMount e = true ∧ onSurfaceOf root e) →
       eventsInFlight_ w' !! tag = Some e ∧ tag ∉ report_tag <$> news) ∧
    (∀ tag, eventsInFlight_ w !! tag = None → eventsInFlight_ w' !! tag = None).
Proof.
  intros Hinit Hrun Hlock.
  assert (Hp : parked w) by by eapply reached_parked.
  assert (Halive : reporterExpired w = false) by by apply lock_alive.
  destruct (mount_spec root mountTime w Halive (parked_mount_ready root w Hp))
    as (table' & news & -> & Htable & Hnodup & Hnews).
  eexists _, news. split; [done|]. split; [done|]. split; [done|]. simpl.
  split; [|split; [|split]].
  - intros ev Hev. apply Hnews in Hev as (e & Hlook & [? ?]%mountFinalizes_true & ?).
    by exists e.
  - intros tag e Hlook Hwait Hsurf.
    assert (Hfin : mountFinalizes root e = true) by by apply mountFinalizes_true.
    rewrite Htable, Hlook, Hfin. split; [done|].
    destruct (parked_mount_ready root w Hp tag e Hlook Hfin) as [[ps Hps] [pe Hpe]].
    set (ev := {| report_tag := tag; report_name := name e;
                  report_startTime := startTime e;
                  report_duration := (mountTime - startTime e)%Z;
                  report_processingStart := ps; report_processingEnd := pe;
                  report_interactionId := interactionId e |}).
    assert (Hrep : reports tag e (mountTime - startTime e) ev) by by repeat split.
    exists ev. split; [|done]. apply Hnews. by exists e.
  - intros tag e Hlook Hnot.
    assert (Hfin : mountFinalizes root e = false).
    { destruct (mountFinalizes root e) eqn:Hfin; [|done].
      by apply mountFinalizes_true in Hfin. }
    rewrite Htable, Hlook, Hfin. split; [done|].
    intros (ev & -> & Hev)%list_elem_of_fmap.
    apply Hnews in Hev as (e' & Hlook' & Hfin' & _). congruence.
  - intros tag Hlook. by rewrite Htable, Hlook.
Qed.

(** ** Records without a target *)

(** C10. In every world a run reaches, a tracked record whose target is null
    is not waiting for a mount.  [dispatchPendingEventTimingEntries]
    returns normally and, whatever set of surfaces it is given, reports
    and removes the record when it is ready and the sink can be had, and
    otherwise leaves it as it was; [shadowTreeDidMount] returns normally,
    leaves the record as it was and does not report it. *)
Theorem null_target_record w0 calls w tag e :
  initial w0 →
  run w0 calls = Returned w →
  eventsInFlight_ w !! tag = Some e →
  target e = None →
  isWaitingForMount e = false ∧
  (∀ pending,
     ∃ w' news,
       dispatchPendingEventTimingEntries pending w = Returned w' ∧
       reportedEvents (performanceEntryReporter_ w')
         = reportedEvents (performanceEntryReporter_ w) ++ news ∧
       (lock w ≠ None → ready e →
        eventsInFlight_ w' !! tag = None ∧
        ∃ ev n, ev ∈ news ∧ reports tag e (clock n - startTime e) ev) ∧
       (lock w = None ∨ ¬ ready e →
        eventsInFlight_ w' !! tag = Some e ∧ tag ∉ report_tag <$> news)) ∧
  (∀ root mountTime,
     ∃ w' news,
       shadowTreeDidMount root mountTime w = Returned w' ∧
       reportedEvents (performanceEntryReporter_ w')
         = reportedEvents (performanceEntryReporter_ w) ++ news ∧
       eventsInFlight_ w' !! tag = Some e ∧ tag ∉ report_tag <$> news).
Proof.
  intros Hinit Hrun Hlook Htgt.
  assert (Hp : parked w) by by eapply reached_parked.
  assert (Hwait : isWaitingForMount e = false).
  { destruct (isWaitingForMount e) eqn:Hw; [|done].
    destruct (Hp tag e Hlook Hw) as [_ [t Ht]]. congruence. }
  split; [done|]. split.
  - intros pending. destruct (reporterExpired w) eqn:Halive.
    + exists w, []. unfold dispatchPendingEventTimingEntries, lock. rewrite Halive.
      split; [done|]. split; [by rewrite app_nil_r|].
      split; [done|]. intros _. split; [done|]. by intros ?%elem_of_nil.
    + destruct (dispatch_spec pending w Halive)
        as (table' & news & -> & Htable & _ & Hnews & Hall).
      eexists _, news. split; [done|]. split; [done|]. simpl.
      assert (Hpend : hasPendingRenderingUpdates (target e) pending = false)
        by by rewrite Htgt.
      split.
      * intros _ Hready.
        assert (Hfin : dispatchFinalizes pending e = true).
        { unfold dispatchFinalizes. rewrite Hwait, Hpend.
          apply isWaitingForDispatch_false in Hready. by rewrite Hready. }
        rewrite Htable, Hlook, Hfin. split; [done|].
        apply (Hall tag e Hlook) in Hfin as (ev & -> & Hev)%list_elem_of_fmap.
        destruct (Hnews ev Hev) as (e' & n & Hlook' & _ & Hrep).
        exists ev, n. split; [done|]. congruence.
      * unfold lock. rewrite Halive. intros [?|Hunready]; [done|].
        assert (Hfin : dispatchFinalizes pending e = false).
        { destruct (dispatchFinalizes pending e) eqn:Hfin; [|done].
          by apply dispatchFinalizes_ready in Hfin as [? _]. }
        rewrite Htable, Hlook, Hfin. unfold dispatchParks. rewrite Hpend, andb_false_r.
        split; [done|].
        intros (ev & -> & Hev)%list_elem_of_fmap.
        destruct (Hnews ev Hev) as (e' & n & Hlook' & Hfin' & _). congruence.
  - intros root mountTime.
    assert (Hfin : mountFinalizes root e = false)
      by (unfold mountFinalizes; by rewrite Hwait).
    destruct (reporterExpired w) eqn:Halive.
    + exists w, []. unfold shadowTreeDidMount, lock. rewrite Halive.
      split; [done|]. split; [by rewrite app_nil_r|].
      split; [done|]. by intros ?%elem_of_nil.
    + destruct (mount_spec root mountTime w Halive (parked_mount_ready root w Hp))
        as (table' & news & -> & Htable & _ & Hnews).
      eexists _, news. split; [done|]. split; [done|]. simpl.
      rewrite Htable, Hlook, Hfin. split; [done|].
      intros (ev & -> & Hev)%list_elem_of_fmap.
      apply Hnews in Hev as (e' & Hlook' & Hfin' & _). congruence.
Qed.

(** ** The waiting flag never goes back *)

(** A record that waits for a mount, followed through a run: it is still
    in the table and waiting, or a [shadowTreeDidMount] of the run has
    reported it. *)
Lemma waiting_run calls : ∀ w w' tag e,
  parked w →
  run w calls = Returned w' →
  eventsInFlight_ w !! tag = Some e →
  isWaitingForMount e = true →
  ∃ news,
    reportedEvents (performanceEntryReporter_ w')
      = reportedEvents (performanceEntryReporter_ w) ++ news ∧
    ((∃ e', eventsInFlight_ w' !! tag = Some e' ∧ isWaitingForMount e' = true ∧
            name e' = name e ∧ target e' = target e ∧
            startTime e' = startTime e ∧ interactionId e' = interactionId e) ∨
     (∃ ev root mountTime,
        ev ∈ news ∧ ShadowTreeDidMount root mountTime ∈ calls ∧
        report_tag ev = tag ∧ report_name ev = name e ∧
        report_startTime ev = startTime e ∧
        report_duration ev = (mountTime - startTime e)%Z ∧
        report_interactionId ev = interactionId e)).
Proof.
  induction calls as [|c calls IH]; intros w w' tag e Hp; simpl.
  - intros [= <-] Hlook Hwait. exists []. rewrite app_nil_r. split; [done|].
    left. by exists e.
  - destruct (step w c) as [w1| |] eqn:Hstep; simpl; [|done..].
    intros Hrun Hlook Hwait.
    assert (Hp1 : parked w1) by by eapply step_parked.
    destruct (run_reports_grow calls w1 w' Hp1 Hrun) as [news2 Heq2].
    destruct (step_record w c w1 tag e Hp Hstep Hlook)
      as (news1 & Heq1 & _ &
          [(e1 & Hlook1 & Hn & Ht & Hs & Hi & _ & _ & Hflag & _)
          |(_ & _ & ev & d & Hev & Hrep & Hwhy)]).
    + assert (Hwait1 : isWaitingForMount e1 = true).
      { destruct Hflag as [Hflag|[Hflag _]]; congruence. }
      destruct (IH w1 w' tag e1 Hp1 Hrun Hlook1 Hwait1) as (news & Heq & Hcases).
      exists (news1 ++ news). split; [by rewrite Heq, Heq1, app_assoc|].
      rewrite <- Hn, <- Ht, <- Hs, <- Hi.
      destruct Hcases as [Hkept|(ev & root & mountTime & Hev & Hin & Hfields)]; [by left|].
      right. exists ev, root, mountTime.
      split; [apply elem_of_app; by right|]. split; [by right|done].
    + exists (news1 ++ news2). split; [by rewrite Heq2, Heq1, app_assoc|].
      right. destruct Hwhy as [(pending & _ & Hno)|(root & mountTime & -> & _ & ->)];
        [congruence|].
      destruct Hrep as (Htag & Hname & Hstart & Hdur & _ & _ & Hid).
      exists ev, root, mountTime.
      split; [apply elem_of_app; by left|]. split; [by left|done].
Qed.

(** C7. [isWaitingForMount] is monotone.  Take a record that is waiting for
    a mount in a world a run reaches.  Whatever is called next, the record
    (with its name, target, start time and interaction id) is still in the
    table under its tag and still waiting, nothing being reported for the
    tag, or else the call is a [shadowTreeDidMount] that reports the record
    and takes it out of the table: no entry point puts the flag back to
    false.  After any further calls, the record is still
    in the table and waiting, or one of the [shadowTreeDidMount] among
    these calls has reported it.  And
    [dispatchPendingEventTimingEntries] returns normally, leaves the record
    exactly as it was and reports nothing for its tag. *)
Theorem waiting_for_mount_is_monotone w0 calls w tag e :
  initial w0 →
  run w0 calls = Returned w →
  eventsInFlight_ w !! tag = Some e →
  isWaitingForMount e = true →
  (∀ c w', step w c = Returned w' →
     ∃ news,
       reportedEvents (performanceEntryReporter_ w')
         = reportedEvents (performanceEntryReporter_ w) ++ news ∧
       ((∃ e', eventsInFlight_ w' !! tag = Some e' ∧ isWaitingForMount e' = true ∧
               name e' = name e ∧ target e' = target e ∧
               startTime e' = startTime e ∧ interactionId e' = interactionId e ∧
               (tag ∉ report_tag <$> news)) ∨
        (∃ root mountTime ev,
           c = ShadowTreeDidMount root mountTime ∧
           eventsInFlight_ w' !! tag = None ∧
           ev ∈ news ∧ reports tag e (mountTime - startTime e) ev))) ∧
  (∀ calls' w', run w calls' = Returned w' →
     ∃ news,
       reportedEvents (performanceEntryReporter_ w')
         = reportedEvents (performanceEntryReporter_ w) ++ news ∧
       ((∃ e', eventsInFlight_ w' !! tag = Some e' ∧ isWaitingForMount e' = true ∧
               name e' = name e ∧ target e' = target e ∧
               startTime e' = startTime e ∧ interactionId e' = interactionId e) ∨
        (∃ ev root mountTime,
           ev ∈ news ∧ ShadowTreeDidMount root mountTime ∈ calls' ∧
           report_tag ev = tag ∧ report_name ev = name e ∧
           report_startTime ev = startTime e ∧
           report_duration ev = (mountTime - startTime e)%Z ∧
           report_interactionId ev = interactionId e))) ∧
  (∀ pending,
     ∃ w' news,
       dispatchPendingEventTimingEntries pending w = Returned w' ∧
       reportedEvents (performanceEntryReporter_ w')
         = reportedEvents (performanceEntryReporter_ w) ++ news ∧
       eventsInFlight_ w' !! tag = Some e ∧
       (tag ∉ report_tag <$> news)).
Proof.
  intros Hinit Hrun Hlook Hwait.
  assert (Hp : parked w) by by eapply reached_parked.
  split; [|split].
  - intros c w' Hstep.
    destruct (step_record w c w' tag e Hp Hstep Hlook)
      as (news & Heq & _ &
          [(e1 & Hlook1 & Hn & Ht & Hs & Hi & _ & _ & Hflag & Hnot)
          |(Hgone & _ & ev & d & Hev & Hrep & Hwhy)]);
      exists news; (split; [done|]).
    + left. exists e1. split; [done|]. split; [|done].
      destruct Hflag as [Hflag|[Hflag _]]; congruence.
    + right. destruct Hwhy as [(pending & _ & Hno)|(root & mountTime & -> & _ & ->)];
        [congruence|].
      by exists root, mountTime, ev.
  - intros calls' w' Hrun'. by eapply waiting_run.
  - intros pending.
    destruct (dispatch_unready pending w) as (w' & news & Hret & Heq & _).
    exists w', news. split; [done|]. split; [done|].
    assert (Hsame : eventsInFlight_ w' !! tag = Some e).
    { destruct (reporterExpired w) eqn:Halive.
      - by rewrite (step_expired w (DispatchPendingEventTimingEntries pending) w' Halive Hret).
      - destruct (dispatch_spec pending w Halive) as (table' & news' & Hret' & Htable & _).
        rewrite Hret' in Hret. injection Hret as <-. simpl.
        rewrite Htable, Hlook. unfold dispatchFinalizes, dispatchParks.
        by rewrite Hwait, orb_true_r. }
    split; [done|].
    destruct (step_record w (DispatchPendingEventTimingEntries pending) w' tag e Hp Hret Hlook)
      as (news' & Heq' & _ & [(e1 & _ & _ & _ & _ & _ & _ & _ & _ & Hnot)|(Hgone & _)]).
    + rewrite Heq in Heq'. by apply app_inv_head in Heq' as <-.
    + congruence.
Qed.

(** ** The registry of supported events *)

Lemma registry_fold_lookup (l : list (string * string)) : ∀ (m : gmap N string) k,
  foldl (λ registry p, emplace (StrKey p.1) p.2 registry) m l !! k =
    match m !! k with
    | Some v => Some v
    | None => (λ ip, ip.2.2) <$> list_find (λ p, StrKey p.1 = k) l
    end.
Proof.
  induction l as [|[s v] l IH]; intros m k; simpl.
  - by destruct (m !! k).
  - rewrite IH. unfold emplace. simpl.
    destruct (m !! StrKey s) as [v0|] eqn:Hs.
    + destruct (m !! k) as [vk|] eqn:Hk; [done|].
      destruct (decide (StrKey s = k)) as [<-|Hne]; [congruence|].
      by destruct (list_find _ l) as [[i p]|].
    + destruct (decide (StrKey s = k)) as [<-|Hne].
      * by rewrite lookup_insert_eq, Hs.
      * rewrite lookup_insert_ne by done.
        destruct (m !! k) as [vk|]; [done|].
        by destruct (list_find _ l) as [[i p]|].
Qed.

Lemma getSupportedEvents_lookup k :
  getSupportedEvents !! k =
    (λ ip, ip.2.2) <$> list_find (λ p, StrKey p.1 = k) SUPPORTED_EVENTS_init.
Proof. unfold getSupportedEvents. by rewrite registry_fold_lookup, lookup_empty. Qed.

Lemma getSupportedEvents_Some rawName reportedName :
  getSupportedEvents !! StrKey rawName = Some reportedName →
  ∃ s, (s, reportedName) ∈ SUPPORTED_EVENTS_init ∧ hash s = hash rawName.
Proof.
  rewrite getSupportedEvents_lookup.
  destruct (list_find _ _) as [[i [s v]]|] eqn:Hfind; [|done].
  intros [= <-]. apply list_find_Some in Hfind as (Hi & Hkey & _).
  exists s. split; [|done]. by eapply list_elem_of_lookup_2.
Qed.

Lemma getSupportedEvents_collision rawName s :
  s ∈ supportedRawNames → hash s = hash rawName →
  is_Some (getSupportedEvents !! StrKey rawName).
Proof.
  intros Hs Hhash. rewrite getSupportedEvents_lookup.
  destruct (list_find _ _) as [[i p]|] eqn:Hfind; [by eexists|].
  apply list_find_None in Hfind.
  apply list_elem_of_fmap in Hs as ([s' v] & -> & Hmem).
  rewrite Forall_forall in Hfind. by destruct (Hfind _ Hmem).
Qed.

Lemma getSupportedEvents_None rawName :
  getSupportedEvents !! StrKey rawName = None ↔
  ∀ s, s ∈ supportedRawNames → hash s ≠ hash rawName.
Proof.
  split.
  - intros Hnone s Hs Hhash.
    destruct (getSupportedEvents_collision rawName s Hs Hhash) as [v Hv]. congruence.
  - intros Hall. destruct (getSupportedEvents !! StrKey rawName) as [v|] eqn:Hlook; [|done].
    apply getSupportedEvents_Some in Hlook as (s & Hmem & Hhash).
    destruct (Hall s); [|done]. apply list_elem_of_fmap. by exists (s, v).
Qed.

(** ** Starting an event *)

(** The world in which the next [onEventStart] is called without having
    wrapped the tag counter around: its tags are as the counter issued
    them, and the counter has a value left. *)
Lemma noWrap_next w0 calls w c :
  initial w0 →
  run w0 calls = Returned w →
  noWrap w0 (calls ++ [c]) →
  TagInvariant w ∧ (sCurrentEventTag_ w + starts [c] < EventTag_modulus)%N.
Proof.
  intros Hinit Hrun Hroom.
  destruct (noWrap_app w0 calls [c] w Hroom Hrun) as [Hroom1 Hroom2].
  split; [by eapply reached_TagInvariant|done].
Qed.

(** C5, as the code has it.  With a sink to report to, in every world a run
    reaches: for each raw name of the supported-events list, as long as
    the tag counter does not wrap around, [onEventStart] returns a tag
    other than the empty tag, which was not in the table, and the new
    table is the old one plus one record under that tag, made of the name
    the registry gives for the raw name, of the target and of the start
    time (the caller's if given, else the sink's clock), with no
    processing timestamps and not waiting for a mount; and for each raw
    name whose hash is the hash of no name of the list, it returns the
    empty tag and changes nothing. *)
Theorem onEventStart_with_sink w0 calls w rawName tgt ts :
  initial w0 →
  run w0 calls = Returned w →
  lock w ≠ None →
  (rawName ∈ supportedRawNames →
   noWrap w0 (calls ++ [OnEventStart rawName tgt ts]) →
   ∃ reportedName,
     getSupportedEvents !! StrKey rawName = Some reportedName ∧
     reportedName ∈ SUPPORTED_EVENTS_init.*2 ∧
     let tag := (onEventStart rawName tgt ts w).1 in
     let w' := (onEventStart rawName tgt ts w).2 in
     tag ≠ EMPTY_EVENT_TAG ∧
     eventsInFlight_ w !! tag = None ∧
     eventsInFlight_ w' =
       <[tag := {| name := reportedName; target := tgt;
                   startTime := default (clock (clockReads (performanceEntryReporter_ w))) ts;
                   processingStartTime := None; processingEndTime := None;
                   isWaitingForMount := false;
                   interactionId := defaultInteractionId |}]> (eventsInFlight_ w) ∧
     size (eventsInFlight_ w') = S (size (eventsInFlight_ w))) ∧
  ((∀ s, s ∈ supportedRawNames → hash s ≠ hash rawName) →
   onEventStart rawName tgt ts w = (EMPTY_EVENT_TAG, w)).
Proof.
  intros Hinit Hrun Halive%lock_alive.
  split.
  - intros Hsupported Hroom.
    destruct (noWrap_next w0 calls w _ Hinit Hrun Hroom) as [Hinv Hnext].
    simpl in Hnext.
    destruct (getSupportedEvents_collision rawName rawName Hsupported eq_refl)
      as [reportedName Hreg].
    exists reportedName. split; [done|]. split.
    { apply getSupportedEvents_Some in Hreg as (s & Hmem & _).
      apply list_elem_of_fmap. by exists (s, reportedName). }
    pose proof (TagInvariant_fresh w Hinv) as Hfresh.
    rewrite (onEventStart_fresh _ _ _ _ _ Halive Hreg Hinv Hnext). simpl.
    split; [unfold EMPTY_EVENT_TAG; lia|]. split; [done|]. split; [done|].
    by apply map_size_insert_None.
  - intros Hnone%getSupportedEvents_None. apply onEventStart_untracked. by right.
Qed.

(** C6, as the code has it.  The registry is keyed by the hash of the raw
    name, and two keys are equal when the hashes are.  So, with a sink to
    report to, in every world a run reaches: a raw name whose hash is the
    hash of a name of the supported-events list is started as a supported
    event, be it string-equal to that name or not: the tag counter is
    moved on, wrapping around after its greatest value, the tag returned
    is its new value, and that tag is in the table afterwards; as long as
    the counter does not wrap around, the tag is not the empty tag and was
    not in the table.  And a raw name whose hash is the hash of no name of
    the list gets the empty tag and nothing is tracked. *)
Theorem onEventStart_classifies_by_hash w0 calls w rawName tgt ts :
  initial w0 →
  run w0 calls = Returned w →
  lock w ≠ None →
  ((∃ s, s ∈ supportedRawNames ∧ hash s = hash rawName) →
   let tag := (onEventStart rawName tgt ts w).1 in
   let w' := (onEventStart rawName tgt ts w).2 in
   tag = ((sCurrentEventTag_ w + 1) mod EventTag_modulus)%N ∧
   sCurrentEventTag_ w' = tag ∧
   is_Some (eventsInFlight_ w' !! tag) ∧
   (noWrap w0 (calls ++ [OnEventStart rawName tgt ts]) →
    tag ≠ EMPTY_EVENT_TAG ∧ eventsInFlight_ w !! tag = None)) ∧
  ((∀ s, s ∈ supportedRawNames → hash s ≠ hash rawName) →
   onEventStart rawName tgt ts w = (EMPTY_EVENT_TAG, w)).
Proof.
  intros Hinit Hrun Halive%lock_alive.
  split.
  - intros (s & Hs & Hhash).
    destruct (getSupportedEvents_collision rawName s Hs Hhash) as [reportedName Hreg].
    rewrite (onEventStart_tracked _ _ _ _ _ Halive Hreg). simpl.
    split; [done|]. split; [done|]. split.
    { rewrite emplace_lookup. destruct (eventsInFlight_ w !! _); [by eexists|].
      rewrite decide_True by done. by eexists. }
    intros Hroom.
    destruct (noWrap_next w0 calls w _ Hinit Hrun Hroom) as [Hinv Hnext].
    simpl in Hnext. rewrite (next_tag_small _ Hnext).
    split; [unfold EMPTY_EVENT_TAG; lia|]. by apply TagInvariant_fresh.
  - intros Hnone%getSupportedEvents_None. apply onEventStart_untracked. by right.
Qed.

(** ** The order of the processing timestamps *)

(** How a step changes the records: a record of the new table is a record
    of the old one, whose start of processing is kept and whose end of
    processing is new only in [onEventProcessingEnd], or it is the record
    that [onEventStart] has just added under the tag it returns, which has
    no end of processing. *)
Lemma kept_entry w c tag e e' :
  eventsInFlight_ w !! tag = Some e →
  processingStartTime e' = processingStartTime e →
  processingEndTime e' = processingEndTime e →
  (c = OnEventProcessingStart tag → reporterExpired w = false → False) →
  ∃ e0, eventsInFlight_ w !! tag = Some e0 ∧
        (is_Some (processingStartTime e0) → is_Some (processingStartTime e')) ∧
        (c = OnEventProcessingStart tag → reporterExpired w = false →
         is_Some (processingStartTime e')) ∧
        (is_Some (processingEndTime e') →
         is_Some (processingEndTime e0) ∨
         (c = OnEventProcessingEnd tag ∧ reporterExpired w = false)).
Proof.
  intros Hlook Hs He Hc. exists e. rewrite Hs, He.
  split; [done|]. split; [done|]. split; [|by left].
  intros Hc1 Hc2. by destruct (Hc Hc1 Hc2).
Qed.

Lemma step_entries w c w' :
  parked w →
  step w c = Returned w' →
  (reporterExpired w = true → reporterExpired w' = true) ∧
  ∀ tag e', eventsInFlight_ w' !! tag = Some e' →
    (∃ e, eventsInFlight_ w !! tag = Some e ∧
          (is_Some (processingStartTime e) → is_Some (processingStartTime e')) ∧
          (c = OnEventProcessingStart tag → reporterExpired w = false →
           is_Some (processingStartTime e')) ∧
          (is_Some (processingEndTime e') →
           is_Some (processingEndTime e) ∨
           (c = OnEventProcessingEnd tag ∧ reporterExpired w = false))) ∨
    ((∃ rawName tgt ts, c = OnEventStart rawName tgt ts ∧
                        tag = (onEventStart rawName tgt ts w).1) ∧
     processingEndTime e' = None).
Proof.
  intros Hp Hstep.
  destruct (decide (reporterExpired w = true)) as [Halive|Halive%not_true_is_false].
  { rewrite (step_expired w c w' Halive Hstep).
    split; [done|].
    intros tag e' Hlook. left. apply (kept_entry w c tag e' e' Hlook); try done.
    intros _. by rewrite Halive. }
  destruct c as [rawName tgt ts|tag0|tag0|pending|root mountTime|]; simpl in Hstep.
  - injection Hstep as <-.
    destruct (getSupportedEvents !! StrKey rawName) as [reportedName|] eqn:Hreg.
    + rewrite (onEventStart_tracked _ _ _ _ _ Halive Hreg). simpl.
      split; [congruence|]. intros tag e'. rewrite emplace_lookup.
      destruct (eventsInFlight_ w !! tag) as [e|] eqn:Hlook.
      * intros [= <-]. left. rewrite <- Hlook.
        by apply (kept_entry w _ tag e e Hlook).
      * destruct (decide _) as [->|]; [|done]. intros [= <-]. right.
        split; [|done]. exists rawName, tgt, ts. split; [done|].
        by rewrite (onEventStart_tracked _ _ _ _ _ Halive Hreg).
    + rewrite onEventStart_untracked by by right. simpl.
      split; [congruence|]. intros tag e' Hlook. left.
      by apply (kept_entry w _ tag e' e' Hlook).
  - injection Hstep as <-. rewrite onEventProcessingStart_spec by done. simpl.
    split; [congruence|]. intros tag e' Hlook'. left.
    destruct (decide (tag0 = tag)) as [->|Hne].
    + destruct (eventsInFlight_ w !! tag) as [e|] eqn:Hlook; [|congruence].
      rewrite lookup_insert_eq in Hlook'. injection Hlook' as <-.
      exists e. simpl. split; [done|]. split; [by eexists|]. split; [by eexists|].
      by left.
    + assert (Hlook : eventsInFlight_ w !! tag = Some e').
      { destruct (eventsInFlight_ w !! tag0); [|done].
        by rewrite lookup_insert_ne in Hlook'. }
      apply (kept_entry w _ tag e' e' Hlook); try done. by intros [= ->].
  - apply onEventProcessingEnd_spec in Hstep as [-> _]; [|done]. simpl.
    split; [congruence|]. intros tag e' Hlook'. left.
    destruct (decide (tag0 = tag)) as [->|Hne].
    + destruct (eventsInFlight_ w !! tag) as [e|] eqn:Hlook.
      * rewrite lookup_insert_eq in Hlook'. injection Hlook' as <-.
        exists e. simpl. split; [done|]. split; [done|]. split; [done|].
        by right.
      * congruence.
    + assert (Hlook : eventsInFlight_ w !! tag = Some e').
      { destruct (eventsInFlight_ w !! tag0); [|done].
        by rewrite lookup_insert_ne in Hlook'. }
      by apply (kept_entry w _ tag e' e' Hlook).
  - destruct (dispatch_spec pending w Halive) as (table' & news & Heq & Htable & _).
    rewrite Heq in Hstep. injection Hstep as <-. simpl.
    split; [congruence|]. intros tag e' Hlook'. left.
    rewrite Htable in Hlook'.
    assert (Hfrom : ∃ e, eventsInFlight_ w !! tag = Some e ∧
                         processingStartTime e' = processingStartTime e ∧
                         processingEndTime e' = processingEndTime e).
    { destruct (eventsInFlight_ w !! tag) as [e|]; [|done]. exists e. split; [done|].
      destruct (dispatchFinalizes pending e); [done|].
      by destruct (dispatchParks pending e); injection Hlook' as <-. }
    destruct Hfrom as (e & Hlook & Hs & He). by apply (kept_entry w _ tag e e' Hlook).
  - destruct (mount_spec root mountTime w Halive (parked_mount_ready root w Hp))
      as (table' & news & Heq & Htable & _).
    rewrite Heq in Hstep. injection Hstep as <-. simpl.
    split; [congruence|]. intros tag e' Hlook'. left.
    rewrite Htable in Hlook'.
    assert (Hlook : eventsInFlight_ w !! tag = Some e').
    { destruct (eventsInFlight_ w !! tag) as [e|]; [|done].
      by destruct (mountFinalizes root e). }
    by apply (kept_entry w _ tag e' e' Hlook).
  - injection Hstep as <-. simpl. split; [congruence|].
    intros tag e' Hlook. left. by apply (kept_entry w _ tag e' e' Hlook).
Qed.

Lemma step_processingOrdered w c w' :
  parked w →
  processingOrdered w →
  step w c = Returned w' →
  (∀ tag e, c = OnEventProcessingEnd tag → reporterExpired w = false →
            eventsInFlight_ w !! tag = Some e → is_Some (processingStartTime e)) →
  processingOrdered w'.
Proof.
  intros Hp Hord Hstep Hend tag e' Hlook' Hend'.
  destruct (step_entries w c w' Hp Hstep) as (_ & Hentries).
  destruct (Hentries tag e' Hlook') as [(e & Hlook & Hs & _ & He)|[_ Hnone]].
  - apply Hs. destruct (He Hend') as [Hold|[-> Halive]].
    + by apply (Hord tag e).
    + by apply (Hend tag e).
  - rewrite Hnone in Hend'. by destruct Hend'.
Qed.

Lemma debug_step_processingOrdered w c w' :
  REACT_NATIVE_DEBUG = true →
  parked w → processingOrdered w → step w c = Returned w' → processingOrdered w'.
Proof.
  intros Hdebug Hp Hord Hstep.
  apply (step_processingOrdered w c w' Hp Hord Hstep).
  intros tag e -> Halive Hlook. simpl in Hstep.
  apply onEventProcessingEnd_spec in Hstep as [_ Hassert]; [|done].
  by apply Hassert.
Qed.

Lemma debug_run_processingOrdered calls : ∀ w w',
  REACT_NATIVE_DEBUG = true →
  parked w → processingOrdered w → run w calls = Returned w' → processingOrdered w'.
Proof.
  induction calls as [|c calls IH]; intros w w' Hdebug Hp Hord; simpl.
  - by intros [= <-].
  - destruct (step w c) as [w1| |] eqn:Hstep; simpl; [|done..].
    apply IH; [done|by eapply step_parked|by eapply debug_step_processingOrdered].
Qed.

Lemma initial_processingOrdered w : initial w → processingOrdered w.
Proof. intros [Htable _] tag e. by rewrite Htable, lookup_empty. Qed.

Lemma onEventProcessingEnd_asserts w tag e :
  REACT_NATIVE_DEBUG = true →
  lock w ≠ None →
  eventsInFlight_ w !! tag = Some e →
  processingStartTime e = None →
  onEventProcessingEnd tag w = AssertionFailed msgProcessingEndBeforeStart.
Proof.
  intros Hdebug Halive%lock_alive Hlook Hnone.
  unfold onEventProcessingEnd, lock. rewrite Halive. simpl. rewrite Hlook.
  unfold react_native_assert. by rewrite Hdebug, Hnone.
Qed.

Lemma onEventProcessingEnd_returns w tag :
  (reporterExpired w = false →
   ∀ e, eventsInFlight_ w !! tag = Some e → is_Some (processingStartTime e)) →
  ∃ w', onEventProcessingEnd tag w = Returned w'.
Proof.
  intros Hstart. unfold onEventProcessingEnd, lock.
  destruct (reporterExpired w) eqn:Halive; [by eexists|]. simpl.
  destruct (eventsInFlight_ w !! tag) as [e|] eqn:Hlook; [|by eexists].
  destruct (Hstart eq_refl e eq_refl) as [t Ht]. rewrite Ht. simpl.
  rewrite react_native_assert_true. by eexists.
Qed.

Lemma step_startedIn started w c w' :
  parked w →
  startedIn started w →
  step w c = Returned w' →
  startedIn
    match c with
    | OnEventStart rawName tgt ts => started ∖ {[(onEventStart rawName tgt ts w).1]}
    | OnEventProcessingStart tag => {[tag]} ∪ started
    | _ => started
    end w'.
Proof.
  intros Hp Hstarted Hstep Halive' tag e' Htag Hlook'.
  destruct (step_entries w c w' Hp Hstep) as (Hexp & Hentries).
  assert (Halive : reporterExpired w = false).
  { destruct (reporterExpired w) eqn:Hw; [|done]. rewrite Hexp in Halive'; done. }
  destruct (Hentries tag e' Hlook')
    as [(e & Hlook & Hs & Hnew & _)|[(rawName & tgt & ts & -> & ->) _]].
  - assert (Hwhy : tag ∈ started ∨ c = OnEventProcessingStart tag).
    { destruct c; try (by left).
      - apply elem_of_difference in Htag as [Htag _]. by left.
      - apply elem_of_union in Htag as [->%elem_of_singleton|Htag]; [by right|by left]. }
    destruct Hwhy as [Hold|Hc]; [|by apply Hnew].
    apply Hs. by apply (Hstarted Halive tag e).
  - apply elem_of_difference in Htag as [_ Htag]. destruct Htag.
    by apply elem_of_singleton.
Qed.

Lemma disciplined_run calls : ∀ started w,
  parked w →
  processingOrdered w →
  startedIn started w →
  processingEndAfterStart started w calls = true →
  ∃ w', run w calls = Returned w' ∧ processingOrdered w'.
Proof.
  induction calls as [|c calls IH]; intros started w Hp Hord Hstarted; simpl.
  - intros _. by exists w.
  - intros [Hc Hrest]%andb_true_iff.
    assert (Hend : ∀ tag e, c = OnEventProcessingEnd tag → reporterExpired w = false →
              eventsInFlight_ w !! tag = Some e → is_Some (processingStartTime e)).
    { intros tag e -> Halive Hlook. apply bool_decide_eq_true in Hc.
      by apply (Hstarted Halive tag e). }
    assert (Hret : ∃ w1, step w c = Returned w1).
    { destruct c as [rawName tgt ts|tag|tag|pending|root mountTime|]; simpl;
        try by eexists.
      - apply onEventProcessingEnd_returns. intros Halive e. by apply Hend.
      - destruct (dispatch_unready pending w) as (w1 & _ & ? & _). by exists w1.
      - destruct (mount_ready root mountTime w Hp) as (w1 & _ & ? & _). by exists w1. }
    destruct Hret as [w1 Hstep]. rewrite Hstep in Hrest |- *. simpl.
    eapply IH; [| | |exact Hrest].
    + by eapply step_parked.
    + by eapply step_processingOrdered.
    + by apply step_startedIn.
Qed.

Lemma processingEndAfterStart_prefix calls1 calls2 : ∀ started w,
  processingEndAfterStart started w (calls1 ++ calls2) = true →
  processingEndAfterStart started w calls1 = true.
Proof.
  induction calls1 as [|c calls1 IH]; intros started w; simpl; [done|].
  intros [Hc Hrest]%andb_true_iff. rewrite Hc. simpl.
  destruct (step w c); [|done..]. by eapply IH.
Qed.

(** C9. No record has its end of processing without its start of
    processing.  In a debug build this holds in every world a run reaches,
    because [onEventProcessingEnd], called with a sink to report to on a
    tracked tag whose start of processing is not set, stops in the
    assertion.  In any build, a run whose calls of [onEventProcessingEnd]
    each come after a call of [onEventProcessingStart] for the same tag,
    made since [onEventStart] last returned that tag, goes through without
    any assertion firing, and the property holds after each of its
    calls. *)
Theorem processing_end_after_start :
  (REACT_NATIVE_DEBUG = true →
   (∀ w0 calls w, initial w0 → run w0 calls = Returned w → processingOrdered w) ∧
   (∀ w tag e,
      lock w ≠ None → eventsInFlight_ w !! tag = Some e → processingStartTime e = None →
      onEventProcessingEnd tag w = AssertionFailed msgProcessingEndBeforeStart)) ∧
  (∀ w0 calls,
     initial w0 →
     processingEndAfterStart ∅ w0 calls = true →
     ∀ calls1 calls2, calls = calls1 ++ calls2 →
       ∃ w1, run w0 calls1 = Returned w1 ∧ processingOrdered w1).
Proof.
  split.
  - intros Hdebug. split.
    + intros w0 calls w Hinit Hrun.
      eapply debug_run_processingOrdered;
        [done|by apply initial_parked|by apply initial_processingOrdered|done].
    + intros w tag e. by apply onEventProcessingEnd_asserts.
  - intros w0 calls Hinit Hdisc calls1 calls2 ->.
    apply processingEndAfterStart_prefix in Hdisc.
    apply (disciplined_run calls1 ∅ w0);
      [by apply initial_parked|by apply initial_processingOrdered| |done].
    by intros _ tag e ?%not_elem_of_empty.
Qed.

(** * Further properties of the entry points *)

(** ** No record is lost *)

Lemma record_run calls : ∀ w w' tag e,
  parked w →
  run w calls = Returned w' →
  eventsInFlight_ w !! tag = Some e →
  (∃ e', eventsInFlight_ w' !! tag = Some e' ∧
         name e' = name e ∧ target e' = target e ∧
         startTime e' = startTime e ∧ interactionId e' = interactionId e) ∨
  (∃ ev, ev ∈ reportedEvents (performanceEntryReporter_ w') ∧
         report_tag ev = tag ∧ report_name ev = name e ∧
         report_startTime ev = startTime e ∧
         report_interactionId ev = interactionId e).
Proof.
  induction calls as [|c calls IH]; intros w w' tag e Hp; simpl.
  - intros [= <-] Hlook. left. by exists e.
  - destruct (step w c) as [w1| |] eqn:Hstep; simpl; [|done..].
    intros Hrun Hlook.
    assert (Hp1 : parked w1) by by eapply step_parked.
    destruct (step_record w c w1 tag e Hp Hstep Hlook)
      as (news & Heq & _ &
          [(e1 & Hlook1 & Hn & Ht & Hs & Hi & _)|(_ & _ & ev & d & Hev & Hrep & _)]).
    + rewrite <- Hn, <- Ht, <- Hs, <- Hi. by eapply IH.
    + right. destruct Hrep as (Htag & Hname & Hstart & _ & _ & _ & Hid).
      exists ev. split; [|done].
      apply (reported_stays calls w1 w' ev Hp1 Hrun).
      rewrite Heq. apply elem_of_app. by right.
Qed.

(** X1. Along a run from a world that a run reaches, a tracked record does not
    vanish: after any further calls its tag is still in the table or it is
    among the tags reported. *)
Theorem no_record_is_lost w0 calls w calls' w' tag e :
  initial w0 →
  run w0 calls = Returned w →
  eventsInFlight_ w !! tag = Some e →
  run w calls' = Returned w' →
  is_Some (eventsInFlight_ w' !! tag) ∨ tag ∈ reportedTags w'.
Proof.
  intros Hinit Hrun Hlook Hrun'.
  assert (Hp : parked w) by by eapply reached_parked.
  destruct (record_run calls' w w' tag e Hp Hrun' Hlook)
    as [(e' & Hlook' & _)|(ev & Hev & Htag & _)].
  - left. by eexists.
  - right. unfold reportedTags. apply list_elem_of_fmap. by exists ev.
Qed.

(** X2. The name, the target, the start time and the interaction id that a
    record got in [onEventStart] never change.  After any further calls
    from a world a run reaches, the table has a record with them under the
    tag, or a report was made for the tag with the name, the start time and
    the interaction id.  As long as the tag counter does not wrap around,
    the tag stands for this one record: whatever record is under the tag
    has them, and so has whatever report was made for the tag. *)
Theorem record_identity_is_kept w0 calls w calls' w' tag e :
  initial w0 →
  run w0 calls = Returned w →
  eventsInFlight_ w !! tag = Some e →
  run w calls' = Returned w' →
  ((∃ e', eventsInFlight_ w' !! tag = Some e' ∧
          name e' = name e ∧ target e' = target e ∧
          startTime e' = startTime e ∧ interactionId e' = interactionId e) ∨
   (∃ ev, ev ∈ reportedEvents (performanceEntryReporter_ w') ∧
          report_tag ev = tag ∧ report_name ev = name e ∧
          report_startTime ev = startTime e ∧
          report_interactionId ev = interactionId e)) ∧
  (noWrap w0 (calls ++ calls') →
   (∀ e', eventsInFlight_ w' !! tag = Some e' →
          name e' = name e ∧ target e' = target e ∧
          startTime e' = startTime e ∧ interactionId e' = interactionId e) ∧
   (∀ ev, ev ∈ reportedEvents (performanceEntryReporter_ w') → report_tag ev = tag →
          report_name ev = name e ∧ report_startTime ev = startTime e ∧
          report_interactionId ev = interactionId e)).
Proof.
  intros Hinit Hrun Hlook Hrun'.
  assert (Hp : parked w) by by eapply reached_parked.
  pose proof (record_run calls' w w' tag e Hp Hrun' Hlook) as Hcases.
  split; [done|]. intros Hroom.
  assert (Hrun2 : run w0 (calls ++ calls') = Returned w') by by rewrite run_app, Hrun.
  assert (Hinv' : TagInvariant w') by by eapply reached_TagInvariant.
  destruct Hcases as [(e1 & Hlook1 & Hfields)|(ev1 & Hev1 & Htag1 & Hfields)]; split.
  - intros e' Hlook'. rewrite Hlook1 in Hlook'. by injection Hlook' as <-.
  - intros ev Hev Htag.
    assert (Hdead : eventsInFlight_ w' !! tag = None); [|congruence].
    apply (inv_reported_dead w' Hinv'). unfold reportedTags.
    apply list_elem_of_fmap. by exists ev.
  - intros e' Hlook'.
    assert (Hdead : eventsInFlight_ w' !! tag = None); [|congruence].
    apply (inv_reported_dead w' Hinv'). unfold reportedTags.
    apply list_elem_of_fmap. by exists ev1.
  - intros ev Hev Htag.
    assert (ev = ev1) as ->; [|done].
    apply (NoDup_fmap_eq report_tag (reportedEvents (performanceEntryReporter_ w')));
      [apply (inv_reported_once w' Hinv')|done|done|congruence].
Qed.

(** ** Nothing is finalized before its processing has ended *)

Lemma unfinished_run calls : ∀ w w' tag e,
  parked w →
  run w calls = Returned w' →
  eventsInFlight_ w !! tag = Some e →
  processingEndTime e = None →
  OnEventProcessingEnd tag ∉ calls →
  ∃ e' news,
    eventsInFlight_ w' !! tag = Some e' ∧ processingEndTime e' = None ∧
    name e' = name e ∧ target e' = target e ∧
    startTime e' = startTime e ∧ interactionId e' = interactionId e ∧
    reportedEvents (performanceEntryReporter_ w')
      = reportedEvents (performanceEntryReporter_ w) ++ news ∧
    (tag ∉ report_tag <$> news).
Proof.
  induction calls as [|c calls IH]; intros w w' tag e Hp; simpl.
  - intros [= <-] Hlook Hend _. exists e, []. rewrite app_nil_r.
    do 6 (split; [done|]). split; [done|]. by intros ?%elem_of_nil.
  - destruct (step w c) as [w1| |] eqn:Hstep; simpl; [|done..].
    intros Hrun Hlook Hend [Hc Hcalls]%not_elem_of_cons.
    assert (Hp1 : parked w1) by by eapply step_parked.
    destruct (step_record w c w1 tag e Hp Hstep Hlook)
      as (news1 & Heq1 & _ &
          [(e1 & Hlook1 & Hn & Ht & Hs & Hi & _ & He & _ & Hnot1)|(_ & [_ [t Ht]] & _)]);
      [|congruence].
    assert (Hend1 : processingEndTime e1 = None).
    { destruct He as [He| ->]; [congruence|done]. }
    destruct (IH w1 w' tag e1 Hp1 Hrun Hlook1 Hend1 Hcalls)
      as (e' & news & Hlook' & Hend' & Hn' & Ht' & Hs' & Hi' & Heq & Hnot).
    exists e', (news1 ++ news). split; [done|]. split; [done|].
    do 4 (split; [congruence|]).
    split; [by rewrite Heq, Heq1, app_assoc|].
    rewrite fmap_app. by intros [?|?]%elem_of_app.
Qed.

(** X3. A record whose processing has not ended stays: as long as
    [onEventProcessingEnd] is not called for its tag, whatever else is
    called, the record is in the table under its tag, with its name,
    target, start time and interaction id, still without end of
    processing, and none of these calls reports anything for the tag. *)
Theorem nothing_finalized_before_processing_end w0 calls w calls' w' tag e :
  initial w0 →
  run w0 calls = Returned w →
  eventsInFlight_ w !! tag = Some e →
  processingEndTime e = None →
  OnEventProcessingEnd tag ∉ calls' →
  run w calls' = Returned w' →
  ∃ e' news,
    eventsInFlight_ w' !! tag = Some e' ∧ processingEndTime e' = None ∧
    name e' = name e ∧ target e' = target e ∧
    startTime e' = startTime e ∧ interactionId e' = interactionId e ∧
    reportedEvents (performanceEntryReporter_ w')
      = reportedEvents (performanceEntryReporter_ w) ++ news ∧
    (tag ∉ report_tag <$> news).
Proof.
  intros Hinit Hrun Hlook Hend Hcalls Hrun'.
  assert (Hp : parked w) by by eapply reached_parked.
  by eapply unfinished_run.
Qed.

(** ** Tags *)

Lemma step_counter_mono w c w' :
  noWrap w [c] → step w c = Returned w' →
  (sCurrentEventTag_ w ≤ sCurrentEventTag_ w')%N.
Proof.
  intros Hroom Hstep.
  destruct (starts [c]) as [|p] eqn:Hc.
  { destruct (step_counter w c w' Hstep) as [_ Heq]. rewrite (Heq Hc). lia. }
  destruct c as [rawName tgt ts| | | | |]; try discriminate Hc.
  simpl in Hstep. injection Hstep as <-.
  unfold noWrap in Hroom. simpl in Hroom.
  destruct (onEventStart_tag rawName tgt ts w) as [[_ ->]|[_ ->]]; [lia|].
  rewrite next_tag_small by lia. lia.
Qed.

Lemma run_counter_mono calls : ∀ w w',
  noWrap w calls → run w calls = Returned w' →
  (sCurrentEventTag_ w ≤ sCurrentEventTag_ w')%N.
Proof.
  induction calls as [|c calls IH]; intros w w' Hroom; simpl; [by intros [= <-]|].
  destruct (step w c) as [w1| |] eqn:Hstep; simpl; [|done..].
  destruct (noWrap_cons w c calls w1 Hroom Hstep) as [Hroom1 Hroom2].
  intros Hrun%IH; [|done]. apply step_counter_mono in Hstep; [lia|done].
Qed.

(** X4. The tag that [onEventStart] returns for a tracked event is the tag
    counter plus one, reduced modulo the number of tags, and the counter
    takes that value.  So, as long as the counter does not wrap around,
    tags grow: if [onEventStart] returns a tag other than the empty tag,
    then, whatever is called afterwards, a later [onEventStart] that
    returns a tag other than the empty tag returns a strictly greater one,
    and the counter is not lowered.  But with the counter at its greatest
    value, [onEventStart] for a name that has the hash of a supported name
    returns the empty tag, sets the counter to 0 and tracks the event under
    the empty tag. *)
Theorem tags_strictly_increase w rawName1 tgt1 ts1 :
  (∀ calls w2 rawName2 tgt2 ts2,
     run (onEventStart rawName1 tgt1 ts1 w).2 calls = Returned w2 →
     (onEventStart rawName1 tgt1 ts1 w).1 ≠ EMPTY_EVENT_TAG →
     (onEventStart rawName2 tgt2 ts2 w2).1 ≠ EMPTY_EVENT_TAG →
     noWrap w (OnEventStart rawName1 tgt1 ts1 :: calls ++ [OnEventStart rawName2 tgt2 ts2]) →
     ((onEventStart rawName1 tgt1 ts1 w).1 < (onEventStart rawName2 tgt2 ts2 w2).1)%N ∧
     (sCurrentEventTag_ w ≤ sCurrentEventTag_ w2)%N) ∧
  (lock w ≠ None →
   (∃ s, s ∈ supportedRawNames ∧ hash s = hash rawName1) →
   (onEventStart rawName1 tgt1 ts1 w).1
     = ((sCurrentEventTag_ w + 1) mod EventTag_modulus)%N ∧
   sCurrentEventTag_ (onEventStart rawName1 tgt1 ts1 w).2
     = (onEventStart rawName1 tgt1 ts1 w).1 ∧
   ((sCurrentEventTag_ w + 1)%N = EventTag_modulus →
    (onEventStart rawName1 tgt1 ts1 w).1 = EMPTY_EVENT_TAG ∧
    is_Some (eventsInFlight_ (onEventStart rawName1 tgt1 ts1 w).2 !! EMPTY_EVENT_TAG))).
Proof.
  split.
  - intros calls w2 rawName2 tgt2 ts2 Hrun Htag1 Htag2 Hroom.
    assert (Hstep : step w (OnEventStart rawName1 tgt1 ts1)
                    = Returned (onEventStart rawName1 tgt1 ts1 w).2) by done.
    destruct (noWrap_cons w _ _ _ Hroom Hstep) as [Hroom1 Hroom2].
    destruct (noWrap_app _ calls _ w2 Hroom2 Hrun) as [Hroom3 Hroom4].
    pose proof (run_counter_mono calls _ w2 Hroom3 Hrun) as Hmono.
    unfold noWrap in Hroom1, Hroom4. simpl in Hroom1, Hroom4.
    destruct (onEventStart_tag rawName1 tgt1 ts1 w) as [[? _]|[Ht1 Hc1]]; [done|].
    destruct (onEventStart_tag rawName2 tgt2 ts2 w2) as [[? _]|[Ht2 _]]; [done|].
    rewrite Hc1 in Hmono. rewrite Ht1, Ht2.
    rewrite next_tag_small in Hmono |- * by lia. rewrite next_tag_small by lia. lia.
  - intros Halive%lock_alive (s & Hs & Hhash).
    destruct (getSupportedEvents_collision rawName1 s Hs Hhash) as [reportedName Hreg].
    rewrite (onEventStart_tracked _ _ _ _ _ Halive Hreg). simpl.
    split; [done|]. split; [done|]. intros Hmax. rewrite Hmax.
    rewrite N.Div0.mod_same. split; [done|].
    rewrite emplace_lookup. destruct (eventsInFlight_ w !! _); [by eexists|].
    rewrite decide_True by done. by eexists.
Qed.

(** ** What a dispatch reports *)

Lemma dispatchLoop_readings pending its : ∀ table r table' r',
  dispatchLoop pending its table r = Returned (table', r') →
  ∃ news,
    reportedEvents r' = reportedEvents r ++ news ∧
    clockReads r' = clockReads r + length news ∧
    ∀ i ev, news !! i = Some ev →
            report_duration ev = (clock (clockReads r + i) - report_startTime ev)%Z.
Proof.
  induction its as [|[tag0 e0] its IH]; intros table r table' r'; simpl.
  - intros [= <- <-]. exists []. rewrite app_nil_r. simpl.
    split; [done|]. split; [lia|]. by intros i ev.
  - destruct (isWaitingForDispatch e0 || isWaitingForMount e0) eqn:Hskip; [apply IH|].
    destruct (hasPendingRenderingUpdates (target e0) pending); [apply IH|].
    apply orb_false_iff in Hskip as [[[ps Hps] [pe Hpe]]%isWaitingForDispatch_false _].
    rewrite Hps, Hpe. simpl. rewrite !react_native_assert_true. simpl.
    intros (news & Hnews & Hreads & Hdur)%IH. simpl in Hnews, Hreads, Hdur.
    eexists (_ :: news). split; [by rewrite Hnews, <- app_assoc|].
    split; [simpl; lia|].
    intros [|i] ev; simpl.
    + intros [= <-]. simpl. by rewrite Nat.add_0_r.
    + intros Hev%Hdur. rewrite Hev. do 2 f_equal. lia.
Qed.

(** X5. With a sink to report to, [dispatchPendingEventTimingEntries] reports
    and erases every record that has both processing timestamps, is not
    waiting for a mount, and whose target is null or on a surface that is
    not in the set; the report carries the name, start time, processing
    timestamps and interaction id of the record.  The tags it erases from
    the table are exactly the tags it reports. *)
Theorem dispatch_reports_ready_records pending w :
  lock w ≠ None →
  ∃ w' news,
    dispatchPendingEventTimingEntries pending w = Returned w' ∧
    reportedEvents (performanceEntryReporter_ w')
      = reportedEvents (performanceEntryReporter_ w) ++ news ∧
    (∀ tag e, eventsInFlight_ w !! tag = Some e →
       ready e → isWaitingForMount e = false →
       (∀ t, target e = Some t → EventTarget.getSurfaceId t ∉ pending) →
       eventsInFlight_ w' !! tag = None ∧
       ∃ ev n, ev ∈ news ∧ reports tag e (clock n - startTime e) ev) ∧
    (∀ tag, tag ∈ report_tag <$> news ↔
            is_Some (eventsInFlight_ w !! tag) ∧ eventsInFlight_ w' !! tag = None).
Proof.
  intros Halive%lock_alive.
  destruct (dispatch_spec pending w Halive)
    as (table' & news & -> & Htable & _ & Hnews & Hall).
  eexists _, news. split; [done|]. split; [done|]. simpl. split.
  - intros tag e Hlook Hready%isWaitingForDispatch_false Hwait Hsurf.
    assert (Hfin : dispatchFinalizes pending e = true).
    { unfold dispatchFinalizes. rewrite Hready, Hwait. simpl.
      apply negb_true_iff. destruct (hasPendingRenderingUpdates _ _) eqn:Hpend; [|done].
      apply hasPendingRenderingUpdates_true in Hpend as (t & Ht & Hin).
      by destruct (Hsurf t Ht). }
    rewrite Htable, Hlook, Hfin. split; [done|].
    apply (Hall tag e Hlook) in Hfin as (ev & -> & Hev)%list_elem_of_fmap.
    destruct (Hnews ev Hev) as (e' & n & Hlook' & _ & Hrep).
    exists ev, n. split; [done|]. congruence.
  - intros tag. rewrite Htable. split.
    + intros (ev & -> & Hev)%list_elem_of_fmap.
      destruct (Hnews ev Hev) as (e & n & Hlook & Hfin & _).
      rewrite Hlook, Hfin. split; [by eexists|done].
    + intros [[e Hlook] Hgone]. rewrite Hlook in Hgone.
      destruct (dispatchFinalizes pending e) eqn:Hfin; [by eapply Hall|].
      by destruct (dispatchParks pending e).
Qed.

Lemma dispatch_readings pending w :
  lock w ≠ None →
  ∃ w' news,
    dispatchPendingEventTimingEntries pending w = Returned w' ∧
    reportedEvents (performanceEntryReporter_ w')
      = reportedEvents (performanceEntryReporter_ w) ++ news ∧
    clockReads (performanceEntryReporter_ w')
      = clockReads (performanceEntryReporter_ w) + length news ∧
    ∀ i ev, news !! i = Some ev →
      report_duration ev
        = (clock (clockReads (performanceEntryReporter_ w) + i) - report_startTime ev)%Z.
Proof.
  intros Halive%lock_alive.
  unfold dispatchPendingEventTimingEntries, lock. rewrite Halive.
  destruct (dispatchLoop _ _ _ _) as [[table' r']| |] eqn:Hloop.
  - apply dispatchLoop_readings in Hloop as (news & Hnews & Hreads & Hdur).
    eexists _, news. split; [done|]. simpl. by repeat split.
  - destruct (dispatchLoop_spec pending (map_to_list (eventsInFlight_ w))
                (eventsInFlight_ w) (performanceEntryReporter_ w)
                (NoDup_fst_map_to_list _)) as (? & ? & ? & _). congruence.
  - destruct (dispatchLoop_spec pending (map_to_list (eventsInFlight_ w))
                (eventsInFlight_ w) (performanceEntryReporter_ w)
                (NoDup_fst_map_to_list _)) as (? & ? & ? & _). congruence.
Qed.

(** X6. [dispatchPendingEventTimingEntries] reads the sink's clock once for
    each record it reports and not otherwise: the number of readings grows
    by the number of reports, and the duration of the i-th report of the
    call is the i-th of these readings minus the start time reported. *)
Theorem dispatch_reads_clock_per_report pending w :
  lock w ≠ None →
  ∃ w' news,
    dispatchPendingEventTimingEntries pending w = Returned w' ∧
    reportedEvents (performanceEntryReporter_ w')
      = reportedEvents (performanceEntryReporter_ w) ++ news ∧
    clockReads (performanceEntryReporter_ w')
      = clockReads (performanceEntryReporter_ w) + length news ∧
    ∀ i ev, news !! i = Some ev →
      report_duration ev
        = (clock (clockReads (performanceEntryReporter_ w) + i) - report_startTime ev)%Z.
Proof. apply dispatch_readings. Qed.

(** ** Calls that find nothing to do *)

Lemma world_eta w table news :
  reporterExpired w = false →
  table = eventsInFlight_ w →
  news = [] →
  {| eventsInFlight_ := table;
     sCurrentEventTag_ := sCurrentEventTag_ w;
     performanceEntryReporter_ :=
       {| clockReads := clockReads (performanceEntryReporter_ w) + length news;
          reportedEvents := reportedEvents (performanceEntryReporter_ w) ++ news |};
     reporterExpired := false |} = w.
Proof.
  intros Halive -> ->. destruct w as [t c [reads evs] x]. simpl in *. subst x.
  by rewrite Nat.add_0_r, app_nil_r.
Qed.

Lemma dispatch_nothing_to_do pending w :
  (∀ tag e, eventsInFlight_ w !! tag = Some e → ¬ ready e ∨ isWaitingForMount e = true) →
  dispatchPendingEventTimingEntries pending w = Returned w.
Proof.
  intros Hskip. destruct (reporterExpired w) eqn:Halive.
  { unfold dispatchPendingEventTimingEntries, lock. by rewrite Halive. }
  destruct (dispatch_spec pending w Halive)
    as (table' & news & -> & Htable & _ & Hnews & _).
  assert (Hnone : ∀ tag e, eventsInFlight_ w !! tag = Some e →
            dispatchFinalizes pending e = false ∧ dispatchParks pending e = false).
  { intros tag e Hlook.
    assert (Hor : isWaitingForDispatch e || isWaitingForMount e = true).
    { destruct (Hskip tag e Hlook) as [Hunready| ->]; [|by rewrite orb_true_r].
      destruct (isWaitingForDispatch e) eqn:Hw; [done|].
      by apply isWaitingForDispatch_false in Hw. }
    unfold dispatchFinalizes, dispatchParks. by rewrite Hor. }
  f_equal. apply world_eta; [done| |].
  - apply map_eq. intros tag. rewrite Htable.
    destruct (eventsInFlight_ w !! tag) as [e|] eqn:Hlook; [|done].
    by destruct (Hnone tag e Hlook) as [-> ->].
  - destruct news as [|ev news]; [done|].
    destruct (Hnews ev ltac:(left)) as (e & n & Hlook & Hfin & _).
    destruct (Hnone _ e Hlook) as [Hfin' _]. congruence.
Qed.

(** X7. A second [dispatchPendingEventTimingEntries] right after a first one,
    with the same or any other set of surfaces, changes nothing and reads no
    clock: when the first call had the sink, every record it leaves in the
    table lacks a processing timestamp or is waiting for a mount; when it
    had not, neither has the second. *)
Theorem dispatch_twice_is_dispatch_once pending1 pending2 w w' :
  dispatchPendingEventTimingEntries pending1 w = Returned w' →
  dispatchPendingEventTimingEntries pending2 w' = Returned w' ∧
  (lock w ≠ None →
   ∀ tag e, eventsInFlight_ w' !! tag = Some e → ¬ ready e ∨ isWaitingForMount e = true).
Proof.
  intros Hret.
  assert (Hafter : reporterExpired w = false →
            ∀ tag e, eventsInFlight_ w' !! tag = Some e →
                     ¬ ready e ∨ isWaitingForMount e = true).
  { intros Halive tag e' Hlook'.
    destruct (dispatch_spec pending1 w Halive) as (table' & news & Heq & Htable & _).
    rewrite Heq in Hret. injection Hret as <-. simpl in Hlook'.
    rewrite Htable in Hlook'.
    destruct (eventsInFlight_ w !! tag) as [e|]; [|done].
    destruct (dispatchFinalizes pending1 e) eqn:Hfin; [done|].
    destruct (dispatchParks pending1 e) eqn:Hpark; injection Hlook' as <-; [by right|].
    unfold dispatchFinalizes, dispatchParks in Hfin, Hpark.
    destruct (isWaitingForDispatch e) eqn:Hw.
    - left. intros Hready%isWaitingForDispatch_false. congruence.
    - destruct (isWaitingForMount e); [by right|]. simpl in Hfin, Hpark.
      by destruct (hasPendingRenderingUpdates (target e) pending1). }
  split; [|intros Halive%lock_alive; by apply Hafter].
  destruct (reporterExpired w) eqn:Halive.
  - unfold dispatchPendingEventTimingEntries, lock in Hret. rewrite Halive in Hret.
    injection Hret as <-.
    unfold dispatchPendingEventTimingEntries, lock. by rewrite Halive.
  - apply dispatch_nothing_to_do. by apply Hafter.
Qed.

Lemma mountLoop_nothing_to_do root mountTime its : ∀ table r,
  (∀ tag e, (tag, e) ∈ its → mountFinalizes root e = false) →
  mountLoop root mountTime its table r = Returned (table, r).
Proof.
  induction its as [|[tag0 e0] its IH]; intros table r Hnone; simpl; [done|].
  fold (mountFinalizes root e0). rewrite (Hnone tag0 e0) by left.
  apply IH. intros tag e He. apply (Hnone tag). by right.
Qed.

Lemma mount_nothing_to_do root mountTime w :
  (∀ tag e, eventsInFlight_ w !! tag = Some e → mountFinalizes root e = false) →
  shadowTreeDidMount root mountTime w = Returned w.
Proof.
  intros Hnone. unfold shadowTreeDidMount, lock.
  destruct (reporterExpired w) eqn:Halive; [done|].
  rewrite mountLoop_nothing_to_do.
  - simpl. f_equal. destruct w as [t c r x]. simpl in *. by subst x.
  - intros tag e Hmem. apply (Hnone tag). by apply elem_of_map_to_list.
Qed.

(** X8. [shadowTreeDidMount] leaves the world exactly as it is when no tracked
    record is both waiting for a mount and on the root's surface; this holds
    in any world, and in particular for a null root.  A second
    [shadowTreeDidMount] for the same root right after a first one, in a
    world a run reaches, therefore changes nothing. *)
Theorem mount_without_waiting_records :
  (∀ root mountTime w,
     (∀ tag e, eventsInFlight_ w !! tag = Some e →
               ¬ (isWaitingForMount e = true ∧ onSurfaceOf root e)) →
     shadowTreeDidMount root mountTime w = Returned w) ∧
  (∀ mountTime w, shadowTreeDidMount None mountTime w = Returned w) ∧
  (∀ w0 calls w root mountTime mountTime' w',
     initial w0 → run w0 calls = Returned w →
     shadowTreeDidMount root mountTime w = Returned w' →
     shadowTreeDidMount root mountTime' w' = Returned w').
Proof.
  assert (Hnoop : ∀ root mountTime w,
            (∀ tag e, eventsInFlight_ w !! tag = Some e →
                      ¬ (isWaitingForMount e = true ∧ onSurfaceOf root e)) →
            shadowTreeDidMount root mountTime w = Returned w).
  { intros root mountTime w Hnone. apply mount_nothing_to_do. intros tag e Hlook.
    destruct (mountFinalizes root e) eqn:Hfin; [|done].
    apply mountFinalizes_true in Hfin. by destruct (Hnone tag e Hlook). }
  split; [exact Hnoop|]. split.
  - intros mountTime w. apply Hnoop. intros tag e _ [_ (t & r & _ & Hroot & _)]. done.
  - intros w0 calls w root mountTime mountTime' w' Hinit Hrun Hret.
    assert (Hp : parked w) by by eapply reached_parked.
    destruct (reporterExpired w) eqn:Halive.
    { unfold shadowTreeDidMount, lock in Hret. rewrite Halive in Hret.
      injection Hret as <-. unfold shadowTreeDidMount, lock. by rewrite Halive. }
    destruct (mount_spec root mountTime w Halive (parked_mount_ready root w Hp))
      as (table' & news & Heq & Htable & _).
    rewrite Heq in Hret. injection Hret as <-.
    apply mount_nothing_to_do. simpl. intros tag e'. rewrite Htable.
    destruct (eventsInFlight_ w !! tag) as [e|]; [|done].
    destruct (mountFinalizes root e) eqn:Hfin; [done|]. by intros [= <-].
Qed.

(** ** From the dispatch to the mount *)

(** X9. Deferral and mount together.  In a world a run reaches, with a sink
    to report to, take a record that has both processing timestamps and is
    not waiting for a mount, whose target is on a surface of the set given
    to the dispatch.  [dispatchPendingEventTimingEntries] with that set
    reports nothing for the tag and leaves under it a record with
    [isWaitingForMount] set to true and every other member as it was; then
    [shadowTreeDidMount] for a root of that surface takes the tag out of
    the table and reports the record, in one report, with the duration
    [mountTime - startTime] and with its own name, start time, processing
    timestamps and interaction id. *)
Theorem deferred_record_is_reported_at_mount
    w0 calls w pending tag e t root mountTime :
  initial w0 →
  run w0 calls = Returned w →
  lock w ≠ None →
  eventsInFlight_ w !! tag = Some e →
  ready e →
  isWaitingForMount e = false →
  target e = Some t →
  EventTarget.getSurfaceId t ∈ pending →
  RootShadowNode.getSurfaceId root = EventTarget.getSurfaceId t →
  ∃ w1 w2 news1 news2 e1 ev,
    dispatchPendingEventTimingEntries pending w = Returned w1 ∧
    reportedEvents (performanceEntryReporter_ w1)
      = reportedEvents (performanceEntryReporter_ w) ++ news1 ∧
    shadowTreeDidMount (Some root) mountTime w1 = Returned w2 ∧
    reportedEvents (performanceEntryReporter_ w2)
      = reportedEvents (performanceEntryReporter_ w1) ++ news2 ∧
    eventsInFlight_ w1 !! tag = Some e1 ∧
    isWaitingForMount e1 = true ∧
    name e1 = name e ∧ target e1 = target e ∧ startTime e1 = startTime e ∧
    processingStartTime e1 = processingStartTime e ∧
    processingEndTime e1 = processingEndTime e ∧
    interactionId e1 = interactionId e ∧
    (tag ∉ report_tag <$> news1) ∧
    eventsInFlight_ w2 !! tag = None ∧
    ev ∈ news2 ∧
    reports tag e (mountTime - startTime e) ev ∧
    (∀ ev', ev' ∈ news2 → report_tag ev' = tag → ev' = ev).
Proof.
  intros Hinit Hrun Halive%lock_alive Hlook Hready Hwait Htgt Hsurf Hroot.
  assert (Hp : parked w) by by eapply reached_parked.
  destruct (dispatch_spec pending w Halive)
    as (table1 & news1 & Hret1 & Htable1 & _ & Hnews1 & _).
  set (w1 := {| eventsInFlight_ := table1;
                sCurrentEventTag_ := sCurrentEventTag_ w;
                performanceEntryReporter_ :=
                  {| clockReads := clockReads (performanceEntryReporter_ w) + length news1;
                     reportedEvents := reportedEvents (performanceEntryReporter_ w) ++ news1 |};
                reporterExpired := false |}) in *.
  assert (Hp1 : parked w1).
  { by apply (step_parked w (DispatchPendingEventTimingEntries pending) w1 Hp). }
  assert (Hpark : dispatchParks pending e = true).
  { unfold dispatchParks.
    apply isWaitingForDispatch_false in Hready as ->. rewrite Hwait. simpl.
    apply hasPendingRenderingUpdates_true. by exists t. }
  assert (Hnofin : dispatchFinalizes pending e = false).
  { unfold dispatchFinalizes. unfold dispatchParks in Hpark.
    apply andb_true_iff in Hpark as [_ ->]. by rewrite andb_false_r. }
  assert (Hlook1 : eventsInFlight_ w1 !! tag = Some (set_isWaitingForMount true e)).
  { simpl. by rewrite Htable1, Hlook, Hnofin, Hpark. }
  assert (Hfin : mountFinalizes (Some root) (set_isWaitingForMount true e) = true).
  { apply mountFinalizes_true. split; [done|]. exists t, root. by repeat split. }
  destruct (mount_spec (Some root) mountTime w1 eq_refl
              (parked_mount_ready (Some root) w1 Hp1))
    as (table2 & news2 & Hret2 & Htable2 & Hnodup2 & Hnews2).
  destruct Hready as [[ps Hps] [pe Hpe]].
  set (ev := {| report_tag := tag; report_name := name e;
                report_startTime := startTime e;
                report_duration := (mountTime - startTime e)%Z;
                report_processingStart := ps; report_processingEnd := pe;
                report_interactionId := interactionId e |}).
  assert (Hrep : reports tag e (mountTime - startTime e) ev) by by repeat split.
  assert (Hev : ev ∈ news2).
  { apply Hnews2. exists (set_isWaitingForMount true e).
    split; [exact Hlook1|]. split; [done|]. by repeat split. }
  eexists w1, _, news1, news2, (set_isWaitingForMount true e), ev.
  split; [done|]. split; [done|]. split; [exact Hret2|]. split; [done|].
  split; [done|]. do 7 (split; [done|]).
  split.
  { intros (ev' & -> & Hev')%list_elem_of_fmap.
    destruct (Hnews1 ev' Hev') as (e' & n & Hlook' & Hfin' & _). congruence. }
  split; [simpl; by rewrite Htable2, Hlook1, Hfin|].
  split; [done|]. split; [done|].
  intros ev' Hev' Htag'.
  apply (NoDup_fmap_eq report_tag news2); [done..|by rewrite Htag'].
Qed.

(** ** From the start to the report *)

(** X10. The whole course of an event.  In a world a run reaches without
    the tag counter wrapping around, with a sink to report to, start an
    event of a supported name whose target is null or on a surface that is
    not pending, then call [onEventProcessingStart] and
    [onEventProcessingEnd] for the tag returned, then dispatch.  The four
    calls return normally; the event is reported by the dispatch, once,
    under the registry's name, with the start time given (or else the
    clock's reading at the start), with the two next readings of the clock as
    processing timestamps, and with a duration that is a later reading of
    the clock minus the start time; and the table no longer has the tag. *)
Theorem processed_event_is_reported w0 calls w rawName tgt ts pending :
  initial w0 →
  run w0 calls = Returned w →
  noWrap w0 (calls ++ [OnEventStart rawName tgt ts]) →
  lock w ≠ None →
  rawName ∈ supportedRawNames →
  (∀ t, tgt = Some t → EventTarget.getSurfaceId t ∉ pending) →
  let tag := (onEventStart rawName tgt ts w).1 in
  let reads := clockReads (performanceEntryReporter_ w) in
  let reads1 := match ts with Some _ => reads | None => S reads end in
  ∃ reportedName w4 ev n,
    getSupportedEvents !! StrKey rawName = Some reportedName ∧
    run w [ OnEventStart rawName tgt ts;
            OnEventProcessingStart tag;
            OnEventProcessingEnd tag;
            DispatchPendingEventTimingEntries pending ] = Returned w4 ∧
    eventsInFlight_ w4 !! tag = None ∧
    ev ∈ reportedEvents (performanceEntryReporter_ w4) ∧
    (ev ∉ reportedEvents (performanceEntryReporter_ w)) ∧
    (∀ ev', ev' ∈ reportedEvents (performanceEntryReporter_ w4) →
            report_tag ev' = tag → ev' = ev) ∧
    report_tag ev = tag ∧
    report_name ev = reportedName ∧
    report_startTime ev = default (clock reads) ts ∧
    report_processingStart ev = clock reads1 ∧
    report_processingEnd ev = clock (S reads1) ∧
    report_interactionId ev = defaultInteractionId ∧
    report_duration ev = (clock n - report_startTime ev)%Z ∧
    (S (S reads1) ≤ n)%nat.
Proof.
  intros Hinit Hrun Hroom Halive%lock_alive Hsup Hsurf tag reads reads1.
  assert (Hp : parked w) by by eapply reached_parked.
  destruct (noWrap_next w0 calls w _ Hinit Hrun Hroom) as [Hinv Hnext].
  simpl in Hnext.
  destruct (getSupportedEvents_collision rawName rawName Hsup eq_refl)
    as [reportedName Hreg].
  pose proof (onEventStart_fresh rawName tgt ts w reportedName Halive Hreg Hinv Hnext)
    as Hstart.
  assert (Htag : tag = (sCurrentEventTag_ w + 1)%N) by (subst tag; by rewrite Hstart).
  set (e0 := newEventEntry reportedName tgt (default (clock reads) ts)).
  set (e2 := set_processingEndTime (clock (S reads1))
               (set_processingStartTime (clock reads1) e0)).
  (* the world before the dispatch *)
  set (w3 := {| eventsInFlight_ := <[tag := e2]> (eventsInFlight_ w);
                sCurrentEventTag_ := tag;
                performanceEntryReporter_ :=
                  {| clockReads := S (S reads1);
                     reportedEvents := reportedEvents (performanceEntryReporter_ w) |};
                reporterExpired := false |}).
  assert (Hrun3 : run w [ OnEventStart rawName tgt ts; OnEventProcessingStart tag;
                          OnEventProcessingEnd tag ] = Returned w3).
  { simpl. rewrite Hstart. simpl. fold reads. rewrite <- Htag.
    rewrite onEventProcessingStart_spec by done. simpl.
    rewrite lookup_insert_eq. rewrite insert_insert_eq.
    unfold onEventProcessingEnd, lock. simpl. rewrite lookup_insert_eq. simpl.
    rewrite react_native_assert_true. simpl. rewrite insert_insert_eq.
    unfold set_eventsInFlight, set_reporter. simpl.
    subst w3 e2 e0 reads1. by destruct ts. }
  assert (Hroom3 : noWrap w [ OnEventStart rawName tgt ts; OnEventProcessingStart tag;
                              OnEventProcessingEnd tag ]).
  { unfold noWrap. simpl. lia. }
  assert (Hp3 : parked w3) by exact (run_parked _ w w3 Hp Hrun3).
  assert (Hinv3 : TagInvariant w3) by exact (run_TagInvariant _ w w3 Hp Hinv Hroom3 Hrun3).
  destruct (dispatch_spec pending w3 eq_refl)
    as (table4 & news & Hret & Htable & _ & Hnews & Hall).
  destruct (dispatch_readings pending w3 ltac:(done))
    as (w4' & news' & Hret' & Hnews' & _ & Hdur).
  rewrite Hret in Hret'. injection Hret' as <-. simpl in Hnews'.
  apply app_inv_head in Hnews' as <-.
  set (w4 := {| eventsInFlight_ := table4 |}) in *.
  assert (Hinv4 : TagInvariant w4).
  { apply (step_TagInvariant w3 (DispatchPendingEventTimingEntries pending) w4 Hp3 Hinv3);
      [|done].
    unfold noWrap. simpl. rewrite Htag. lia. }
  assert (Hlook3 : eventsInFlight_ w3 !! tag = Some e2) by apply lookup_insert_eq.
  assert (Hfin : dispatchFinalizes pending e2 = true).
  { unfold dispatchFinalizes. simpl. apply negb_true_iff.
    destruct (hasPendingRenderingUpdates tgt pending) eqn:Hpend; [|done].
    apply hasPendingRenderingUpdates_true in Hpend as (t & Ht & Hin).
    by destruct (Hsurf t Ht). }
  pose proof (Hall tag e2 Hlook3 Hfin) as Hin.
  apply list_elem_of_fmap in Hin as (ev & Hevtag & Hev).
  destruct (Hnews ev Hev) as (e' & n0 & Hlook' & _ & Hrep).
  rewrite <- Hevtag, Hlook3 in Hlook'. injection Hlook' as <-.
  destruct Hrep as (_ & Hname & Hstime & _ & Hps & Hpe & Hid).
  apply list_elem_of_lookup in Hev as Hi. destruct Hi as [i Hi].
  assert (Hev4 : ev ∈ reportedEvents (performanceEntryReporter_ w4))
    by (simpl; apply elem_of_app; by right).
  exists reportedName, w4, ev, (S (S reads1) + i).
  split; [done|]. split.
  { change [OnEventStart rawName tgt ts; OnEventProcessingStart tag;
            OnEventProcessingEnd tag; DispatchPendingEventTimingEntries pending]
      with ([OnEventStart rawName tgt ts; OnEventProcessingStart tag;
             OnEventProcessingEnd tag] ++ [DispatchPendingEventTimingEntries pending]).
    rewrite run_app, Hrun3. simpl. by rewrite Hret. }
  split; [simpl; by rewrite Htable, Hlook3, Hfin|].
  split; [done|]. split.
  { intros Hold. assert (Hrep : tag ∈ reportedTags w).
    { unfold reportedTags. apply list_elem_of_fmap. by exists ev. }
    apply (inv_reported_issued w Hinv) in Hrep. lia. }
  split.
  { intros ev' Hev' Htag'.
    apply (NoDup_fmap_eq report_tag (reportedEvents (performanceEntryReporter_ w4)));
      [apply (inv_reported_once w4 Hinv4)|done|done|congruence]. }
  split; [done|]. split; [done|]. split; [done|].
  simpl in Hps, Hpe. split; [congruence|]. split; [congruence|]. split; [done|].
  split; [by apply Hdur|lia].
Qed.

(** ** Stamping a record again *)

(** X11. [onEventProcessingStart] has no guard against a second call: with a
    sink to report to and a tracked tag, each call sets the start of
    processing to the clock's reading at that call, whatever was there
    before, so after one call the record has the first reading and after
    two calls the second.  Nothing else of the record changes, and no
    other tag, no report and not the tag counter. *)
Theorem processing_start_overwrites w tag e :
  lock w ≠ None →
  eventsInFlight_ w !! tag = Some e →
  let reads := clockReads (performanceEntryReporter_ w) in
  let w1 := onEventProcessingStart tag w in
  let w2 := onEventProcessingStart tag w1 in
  ∃ e1 e2,
    eventsInFlight_ w1 !! tag = Some e1 ∧
    processingStartTime e1 = Some (clock reads) ∧
    eventsInFlight_ w2 !! tag = Some e2 ∧
    processingStartTime e2 = Some (clock (S reads)) ∧
    (∀ e', e' = e1 ∨ e' = e2 →
       name e' = name e ∧ target e' = target e ∧ startTime e' = startTime e ∧
       processingEndTime e' = processingEndTime e ∧
       isWaitingForMount e' = isWaitingForMount e ∧
       interactionId e' = interactionId e) ∧
    (∀ tag', tag' ≠ tag → eventsInFlight_ w2 !! tag' = eventsInFlight_ w !! tag') ∧
    sCurrentEventTag_ w2 = sCurrentEventTag_ w ∧
    reportedEvents (performanceEntryReporter_ w2)
      = reportedEvents (performanceEntryReporter_ w) ∧
    clockReads (performanceEntryReporter_ w2) = S (S reads).
Proof.
  intros Halive%lock_alive Hlook reads w1 w2.
  assert (Hw1 : w1 = {| eventsInFlight_ :=
                          <[tag := set_processingStartTime (clock reads) e]> (eventsInFlight_ w);
                        sCurrentEventTag_ := sCurrentEventTag_ w;
                        performanceEntryReporter_ :=
                          {| clockReads := S reads;
                             reportedEvents := reportedEvents (performanceEntryReporter_ w) |};
                        reporterExpired := false |}).
  { subst w1. rewrite onEventProcessingStart_spec by done. by rewrite Hlook. }
  assert (Hw2 : w2 = {| eventsInFlight_ :=
                          <[tag := set_processingStartTime (clock (S reads)) e]>
                            (eventsInFlight_ w);
                        sCurrentEventTag_ := sCurrentEventTag_ w;
                        performanceEntryReporter_ :=
                          {| clockReads := S (S reads);
                             reportedEvents := reportedEvents (performanceEntryReporter_ w) |};
                        reporterExpired := false |}).
  { subst w2. rewrite Hw1. rewrite onEventProcessingStart_spec by done. simpl.
    rewrite lookup_insert_eq, insert_insert_eq. done. }
  exists (set_processingStartTime (clock reads) e),
         (set_processingStartTime (clock (S reads)) e).
  rewrite Hw1, Hw2. simpl. rewrite !lookup_insert_eq.
  split; [done|]. split; [done|]. split; [done|]. split; [done|].
  split; [by intros e' [-> | ->]|]. split; [|done].
  intros tag' Hne. by rewrite lookup_insert_ne.
Qed.

(** ** The registry, name by name *)

(** X12. The registry gives, for a key, the public name of the first pair of
    the initializer list whose raw name has that hash.  Hence, when no two
    raw names of the list have the same hash, every raw name of the list
    resolves to the public name it is paired with. *)
Theorem registry_resolves_listed_names :
  (∀ key reportedName,
     getSupportedEvents !! key = Some reportedName ↔
     ∃ i rawName,
       SUPPORTED_EVENTS_init !! i = Some (rawName, reportedName) ∧
       StrKey rawName = key ∧
       ∀ j p, SUPPORTED_EVENTS_init !! j = Some p → j < i → StrKey p.1 ≠ key) ∧
  (NoDup (StrKey <$> supportedRawNames) →
   ∀ rawName reportedName,
     (rawName, reportedName) ∈ SUPPORTED_EVENTS_init →
     getSupportedEvents !! StrKey rawName = Some reportedName).
Proof.
  assert (Hfirst : ∀ key reportedName,
     getSupportedEvents !! key = Some reportedName ↔
     ∃ i rawName,
       SUPPORTED_EVENTS_init !! i = Some (rawName, reportedName) ∧
       StrKey rawName = key ∧
       ∀ j p, SUPPORTED_EVENTS_init !! j = Some p → j < i → StrKey p.1 ≠ key).
  { intros key reportedName. rewrite getSupportedEvents_lookup. split.
    - destruct (list_find _ _) as [[i [s v]]|] eqn:Hfind; [|done].
      intros [= <-]. apply list_find_Some in Hfind as (Hi & Hkey & Hbefore).
      exists i, s. split; [done|]. split; [done|]. intros j p. apply Hbefore.
    - intros (i & s & Hi & Hkey & Hbefore).
      assert (Hfind : list_find (λ p : string * string, StrKey p.1 = key)
                        SUPPORTED_EVENTS_init = Some (i, (s, reportedName))).
      { apply list_find_Some. split; [done|]. split; [done|]. intros j p. apply Hbefore. }
      by rewrite Hfind. }
  split; [exact Hfirst|].
  intros Hnodup rawName reportedName Hmem.
  assert (Hsome : is_Some (getSupportedEvents !! StrKey rawName)).
  { apply (getSupportedEvents_collision rawName rawName); [|done].
    apply list_elem_of_fmap. by exists (rawName, reportedName). }
  destruct Hsome as [v Hv]. rewrite Hv. f_equal.
  apply getSupportedEvents_Some in Hv as (s & Hmem' & Hhash).
  assert (s = rawName) as ->.
  { apply (NoDup_fmap_eq StrKey supportedRawNames); [done| | |done];
      apply list_elem_of_fmap; by eexists (_, _). }
  assert (Hpair : (rawName, v) = (rawName, reportedName)); [|congruence].
  apply (NoDup_fmap_eq fst SUPPORTED_EVENTS_init); [|done|done|done].
  by apply (NoDup_fmap_1 StrKey).
Qed.

(** ** Durations and the processing timestamps *)

Lemma stamped_weaken (w w' : World) :
  (clockReads (performanceEntryReporter_ w) ≤ clockReads (performanceEntryReporter_ w'))%nat →
  (∀ tag e', eventsInFlight_ w' !! tag = Some e' →
     ∃ e, eventsInFlight_ w !! tag = Some e ∧
          processingStartTime e' = processingStartTime e ∧
          processingEndTime e' = processingEndTime e) →
  stamped w → stamped w'.
Proof.
  intros Hreads Hfrom Hst tag e' t Hlook' Ht.
  destruct (Hfrom tag e' Hlook') as (e & Hlook & Hs & He). rewrite Hs, He in Ht.
  destruct (Hst tag e t Hlook Ht) as (i & Hi & ->). exists i. split; [lia|done].
Qed.

Lemma step_stamped w c w1 :
  parked w → stamped w → step w c = Returned w1 → stamped w1.
Proof.
  intros Hp Hst Hstep.
  destruct (reporterExpired w) eqn:Halive.
  { by rewrite (step_expired w c w1 Halive Hstep). }
  destruct c as [rawName tgt ts|tag0|tag0|pending|root mountTime|]; simpl in Hstep.
  - injection Hstep as <-.
    destruct (getSupportedEvents !! StrKey rawName) as [reportedName|] eqn:Hreg.
    + rewrite (onEventStart_tracked _ _ _ _ _ Halive Hreg).
      intros tag e t. simpl. rewrite emplace_lookup.
      destruct (eventsInFlight_ w !! tag) as [e0|] eqn:Hlook.
      * intros [= <-] Ht.
        destruct (Hst tag e0 t Hlook Ht) as (i & Hi & ->). exists i. split; [lia|done].
      * destruct (decide _); [|done]. intros [= <-]. simpl. by intros [?|?].
    + by rewrite onEventStart_untracked by by right.
  - injection Hstep as <-. rewrite onEventProcessingStart_spec by done.
    intros tag e' t. simpl.
    destruct (eventsInFlight_ w !! tag0) as [e0|] eqn:Hlook0.
    + destruct (decide (tag0 = tag)) as [->|Hne].
      * rewrite lookup_insert_eq. intros [= <-]. simpl. intros [[= <-]|Ht].
        -- eexists. split; [|done]. lia.
        -- destruct (Hst tag e0 t Hlook0 (or_intror Ht)) as (i & Hi & ->).
           exists i. split; [lia|done].
      * rewrite lookup_insert_ne by done. intros Hlook Ht.
        destruct (Hst tag e' t Hlook Ht) as (i & Hi & ->). exists i. split; [lia|done].
    + intros Hlook Ht.
      destruct (Hst tag e' t Hlook Ht) as (i & Hi & ->). exists i. split; [lia|done].
  - apply onEventProcessingEnd_spec in Hstep as [-> _]; [|done].
    intros tag e' t. simpl.
    destruct (eventsInFlight_ w !! tag0) as [e0|] eqn:Hlook0.
    + destruct (decide (tag0 = tag)) as [->|Hne].
      * rewrite lookup_insert_eq. intros [= <-]. simpl. intros [Ht|[= <-]].
        -- destruct (Hst tag e0 t Hlook0 (or_introl Ht)) as (i & Hi & ->).
           exists i. split; [lia|done].
        -- eexists. split; [|done]. lia.
      * rewrite lookup_insert_ne by done. intros Hlook Ht.
        destruct (Hst tag e' t Hlook Ht) as (i & Hi & ->). exists i. split; [lia|done].
    + intros Hlook Ht.
      destruct (Hst tag e' t Hlook Ht) as (i & Hi & ->). exists i. split; [lia|done].
  - destruct (dispatch_spec pending w Halive) as (table' & news & Heq & Htable & _).
    rewrite Heq in Hstep. injection Hstep as <-.
    apply (stamped_weaken w); [simpl; lia| |done].
    intros tag e'. simpl. rewrite Htable.
    destruct (eventsInFlight_ w !! tag) as [e|]; [|done].
    destruct (dispatchFinalizes pending e); [done|].
    destruct (dispatchParks pending e); intros [= <-]; by exists e.
  - destruct (mount_spec root mountTime w Halive (parked_mount_ready root w Hp))
      as (table' & news & Heq & Htable & _).
    rewrite Heq in Hstep. injection Hstep as <-.
    apply (stamped_weaken w); [simpl; lia| |done].
    intros tag e'. simpl. rewrite Htable.
    destruct (eventsInFlight_ w !! tag) as [e|]; [|done].
    destruct (mountFinalizes root e); [done|]. intros [= <-]. by exists e.
  - by injection Hstep as <-.
Qed.

Lemma run_stamped calls : ∀ w w',
  parked w → stamped w → run w calls = Returned w' → stamped w'.
Proof.
  induction calls as [|c calls IH]; intros w w' Hp Hst; simpl.
  - by intros [= <-].
  - destruct (step w c) as [w1| |] eqn:Hstep; simpl; [|done..].
    apply IH; [by eapply step_parked|by eapply step_stamped].
Qed.

(** X13. With a clock that never goes back, the instant up to which a
    dispatch measures (the reported start time plus the reported duration)
    is not before the processing timestamps it reports: in every world a
    run reaches, each report of [dispatchPendingEventTimingEntries] has
    [processingStart ≤ startTime + duration] and
    [processingEnd ≤ startTime + duration]. *)
Theorem dispatch_duration_covers_processing w0 calls w pending :
  (∀ i j : nat, (i ≤ j)%nat → (clock i ≤ clock j)%Z) →
  initial w0 →
  run w0 calls = Returned w →
  ∃ w' news,
    dispatchPendingEventTimingEntries pending w = Returned w' ∧
    reportedEvents (performanceEntryReporter_ w')
      = reportedEvents (performanceEntryReporter_ w) ++ news ∧
    ∀ ev, ev ∈ news →
      (report_processingStart ev ≤ report_startTime ev + report_duration ev)%Z ∧
      (report_processingEnd ev ≤ report_startTime ev + report_duration ev)%Z.
Proof.
  intros Hmono Hinit Hrun.
  assert (Hst : stamped w).
  { eapply run_stamped; [by apply initial_parked| |done].
    intros tag e t. destruct Hinit as [-> _]. by rewrite lookup_empty. }
  destruct (reporterExpired w) eqn:Halive.
  { exists w, []. unfold dispatchPendingEventTimingEntries, lock. rewrite Halive.
    split; [done|]. split; [by rewrite app_nil_r|]. by intros ev ?%elem_of_nil. }
  destruct (dispatch_spec pending w Halive) as (table' & news & Hret & _ & _ & Hnews & _).
  destruct (dispatch_readings pending w) as (w' & news' & Hret' & Hnews' & _ & Hdur).
  { unfold lock. by rewrite Halive. }
  rewrite Hret in Hret'. injection Hret' as <-. simpl in Hnews'.
  apply app_inv_head in Hnews' as <-.
  eexists _, news. split; [done|]. split; [done|].
  intros ev Hev. destruct (Hnews ev Hev) as (e & n & Hlook & _ & Hrep).
  destruct Hrep as (_ & _ & _ & _ & Hps & Hpe & _).
  apply list_elem_of_lookup in Hev as [i Hi]. rewrite (Hdur i ev Hi).
  destruct (Hst _ e _ Hlook (or_introl Hps)) as (j & Hj & ->).
  destruct (Hst _ e _ Hlook (or_intror Hpe)) as (k & Hk & ->).
  pose proof (Hmono j (clockReads (performanceEntryReporter_ w) + i) ltac:(lia)).
  pose proof (Hmono k (clockReads (performanceEntryReporter_ w) + i) ltac:(lia)).
  lia.
Qed.

(** ** Where records come from *)

(** X14. Only [onEventStart] adds to the table.  In a world a run reaches, if
    a call returns and a tag is in the table afterwards that was not there
    before, the call is an [onEventStart] and the tag is the one it
    returns; in particular [onEventProcessingStart] and
    [onEventProcessingEnd] for a tag that is not tracked create no record. *)
Theorem only_onEventStart_adds_records w0 calls w c w' tag :
  initial w0 →
  run w0 calls = Returned w →
  step w c = Returned w' →
  eventsInFlight_ w !! tag = None →
  is_Some (eventsInFlight_ w' !! tag) →
  ∃ rawName tgt ts,
    c = OnEventStart rawName tgt ts ∧ tag = (onEventStart rawName tgt ts w).1.
Proof.
  intros Hinit Hrun Hstep Hnone Hsome.
  assert (Hp : parked w) by by eapply reached_parked.
  by apply (step_adds w c w' tag).
Qed.

(** ** After the sink is gone *)

Lemma run_expired calls : ∀ w,
  reporterExpired w = true → run w calls = Returned w.
Proof.
  induction calls as [|c calls IH]; intros w Hexp; simpl; [done|].
  destruct (step w c) as [w1| |] eqn:Hstep.
  - rewrite (step_expired w c w1 Hexp Hstep). simpl. by apply IH.
  - assert (Hlock : lock w = None) by by apply lock_None.
    destruct (sink_unavailable_noop_aux w Hlock) as (Hs & Hps & Hpe & Hd & Hm).
    destruct c; simpl in Hstep; rewrite ?Hs, ?Hps, ?Hpe, ?Hd, ?Hm in Hstep; done.
  - assert (Hlock : lock w = None) by by apply lock_None.
    destruct (sink_unavailable_noop_aux w Hlock) as (Hs & Hps & Hpe & Hd & Hm).
    destruct c; simpl in Hstep; rewrite ?Hs, ?Hps, ?Hpe, ?Hd, ?Hm in Hstep; done.
Qed.

(** X15. Once the sink is gone, the logger is inert for good: any sequence of
    calls returns normally and leaves the world exactly as it was, so the
    records still in the table are never reported and never removed. *)
Theorem inert_without_sink w calls :
  lock w = None →
  run w calls = Returned w.
Proof. intros Hlock%lock_None. by apply run_expired. Qed.

(** ** The empty tag *)

(** X16. As long as the tag counter does not wrap around, the empty tag is
    not tracked: in every world that a run reaches without wrapping the
    counter it is absent from the table, and [onEventProcessingStart] and
    [onEventProcessingEnd] called with it (as a caller does that passes on
    what [onEventStart] returned for an untracked event) return normally
    and change neither the table, nor the tag counter, nor the reports. *)
Theorem empty_tag_is_not_tracked w0 calls w :
  initial w0 →
  noWrap w0 calls →
  run w0 calls = Returned w →
  eventsInFlight_ w !! EMPTY_EVENT_TAG = None ∧
  unchanged w (onEventProcessingStart EMPTY_EVENT_TAG w) ∧
  (∃ w', onEventProcessingEnd EMPTY_EVENT_TAG w = Returned w' ∧ unchanged w w').
Proof.
  intros Hinit Hroom Hrun.
  assert (Hinv : TagInvariant w) by by eapply reached_TagInvariant.
  assert (Hnone : eventsInFlight_ w !! EMPTY_EVENT_TAG = None).
  { destruct (eventsInFlight_ w !! EMPTY_EVENT_TAG) as [e|] eqn:Hlook; [|done].
    apply (inv_tracked_issued w Hinv) in Hlook. unfold EMPTY_EVENT_TAG in Hlook. lia. }
  split; [done|]. split; [by apply dead_tag_processingStart|by apply dead_tag_processingEnd].
Qed.

(** ** Starting an event under a tag that is taken *)

(** X17. [onEventStart] never replaces or removes a record: every record of
    the table is in the table afterwards, as it was.  In particular, when
    the tag that the counter comes to is still in the table (which takes a
    counter that has wrapped around), [emplace] inserts nothing: with a
    sink to report to and a name that has the hash of a supported name,
    [onEventStart] returns that tag, moves the counter on to it and leaves
    the table as it is, so that the event just started has no record of
    its own and its tag is the tag of the older record. *)
Theorem onEventStart_keeps_tracked_records w rawName tgt ts :
  (∀ tag e, eventsInFlight_ w !! tag = Some e →
            eventsInFlight_ (onEventStart rawName tgt ts w).2 !! tag = Some e) ∧
  (∀ e, lock w ≠ None →
        (∃ s, s ∈ supportedRawNames ∧ hash s = hash rawName) →
        eventsInFlight_ w !! ((sCurrentEventTag_ w + 1) mod EventTag_modulus)%N = Some e →
        (onEventStart rawName tgt ts w).1
          = ((sCurrentEventTag_ w + 1) mod EventTag_modulus)%N ∧
        sCurrentEventTag_ (onEventStart rawName tgt ts w).2
          = ((sCurrentEventTag_ w + 1) mod EventTag_modulus)%N ∧
        eventsInFlight_ (onEventStart rawName tgt ts w).2 = eventsInFlight_ w ∧
        reportedEvents (performanceEntryReporter_ (onEventStart rawName tgt ts w).2)
          = reportedEvents (performanceEntryReporter_ w)).
Proof.
  split.
  - intros tag e Hlook. destruct (reporterExpired w) eqn:Halive.
    { rewrite onEventStart_untracked; [done|left]. by apply lock_None. }
    destruct (getSupportedEvents !! StrKey rawName) as [reportedName|] eqn:Hreg.
    + rewrite (onEventStart_tracked _ _ _ _ _ Halive Hreg). simpl.
      by rewrite emplace_lookup, Hlook.
    + by rewrite onEventStart_untracked by by right.
  - intros e Halive%lock_alive (s & Hs & Hhash) Htaken.
    destruct (getSupportedEvents_collision rawName s Hs Hhash) as [reportedName Hreg].
    rewrite (onEventStart_tracked _ _ _ _ _ Halive Hreg). simpl.
    split; [done|]. split; [done|]. split; [|done].
    unfold emplace. by rewrite Htaken.
Qed.

End Logger.

(** * Concrete runs

    The examples take [EventTag] to have 32 bits. *)

Lemma initial_world0 : initial world0.
Proof. split; reflexivity. Qed.

Lemma initial_worldMax : initial worldMax.
Proof. split; reflexivity. Qed.

Lemma run_scenarioB : run fnv1a32 true clock10 32 world0 scenarioB = Returned worldB.
Proof. vm_compute. reflexivity. Qed.

Lemma run_scenarioA : run fnv1a32 true clock10 32 world0 scenarioA = Returned worldA.
Proof. vm_compute. reflexivity. Qed.

Lemma run_scenarioClick :
  run fnv1a32 true clock10 32 world0 scenarioClick = Returned worldClick.
Proof. vm_compute. reflexivity. Qed.

(** The first scenario of the specification: a click that is started and
    processed is reported by the next dispatch, with the duration from its
    start to the clock's reading, and the table is empty afterwards. *)
Example scenario_click_reported :
  run fnv1a32 true clock10 32 world0
    [ OnEventStart "topClick" (targetOn 7) None;
      OnEventProcessingStart 1; OnEventProcessingEnd 1;
      DispatchPendingEventTimingEntries ∅ ]
  = Returned
      {| eventsInFlight_ := ∅; sCurrentEventTag_ := 1%N;
         performanceEntryReporter_ :=
           {| clockReads := 4; reportedEvents := [clickReport 130] |};
         reporterExpired := false |}.
Proof. vm_compute. reflexivity. Qed.

(** The second scenario of the specification: with the surface pending, the
    click waits for the mount, and is reported at the mount with the
    duration from its start to the mount time. *)
Example scenario_click_waits_for_mount :
  run fnv1a32 true clock10 32 world0
    [ OnEventStart "topClick" (targetOn 7) None;
      OnEventProcessingStart 1; OnEventProcessingEnd 1;
      DispatchPendingEventTimingEntries {[7%Z]};
      ShadowTreeDidMount (rootOf 7) 1000 ]
  = Returned
      {| eventsInFlight_ := ∅; sCurrentEventTag_ := 1%N;
         performanceEntryReporter_ :=
           {| clockReads := 3; reportedEvents := [clickReport 1000] |};
         reporterExpired := false |}.
Proof. vm_compute. reflexivity. Qed.

(** The third scenario of the specification: an unsupported event gets the
    empty tag and the world stays as it is. *)
Example scenario_unsupported_event :
  onEventStart fnv1a32 clock10 32 "unsupportedEvent" (targetOn 7) None worldA
  = (EMPTY_EVENT_TAG, worldA).
Proof. vm_compute. reflexivity. Qed.

(** Without the assertion (a build that is not a debug build), ending the
    processing of an event whose processing was never started leaves a
    record with an end and no start of processing. *)
Example out_of_order_without_assertion :
  ∃ w e,
    run fnv1a32 false clock10 32 world0
      [ OnEventStart "topClick" (targetOn 7) None; OnEventProcessingEnd 1 ] = Returned w ∧
    eventsInFlight_ w !! 1%N = Some e ∧
    processingStartTime e = None ∧ processingEndTime e = Some 110%Z.
Proof.
  eexists _, _. split; [vm_compute; reflexivity|].
  split; [vm_compute; reflexivity|]. split; reflexivity.
Qed.

(** With the tag counter at the greatest value of a 32-bit [EventTag], the
    next event that is started gets the tag 0 and is tracked under it. *)
Example scenario_counter_wraps :
  onEventStart fnv1a32 clock10 32 "topClick" (targetOn 7) None worldMax
  = (0%N,
     {| eventsInFlight_ := {[ 0%N := newEventEntry "click" (targetOn 7) 100 ]};
        sCurrentEventTag_ := 0%N;
        performanceEntryReporter_ := {| clockReads := 1; reportedEvents := [] |};
        reporterExpired := false |}).
Proof. vm_compute. reflexivity. Qed.

(** A run that calls [onEventProcessingStart] for tag 0 before the event
    that gets tag 0 is started does not keep the callers' discipline, and in
    a debug build it stops in the assertion of [onEventProcessingEnd]. *)
Example scenario_processing_before_start :
  processingEndAfterStart fnv1a32 true clock10 32 ∅ worldMax
    [ OnEventProcessingStart 0; OnEventStart "topClick" None None;
      OnEventProcessingEnd 0 ] = false ∧
  run fnv1a32 true clock10 32 worldMax
    [ OnEventProcessingStart 0; OnEventStart "topClick" None None;
      OnEventProcessingEnd 0 ] = AssertionFailed msgProcessingEndBeforeStart.
Proof. split; vm_compute; reflexivity. Qed.

(** * The theorems at work on the concrete runs *)

Lemma lock_worldB : lock worldB ≠ None.
Proof. discriminate. Qed.

Lemma lock_worldA : lock worldA ≠ None.
Proof. discriminate. Qed.

Lemma lookup_worldB_1 : eventsInFlight_ worldB !! 1%N = Some clickRecord.
Proof. vm_compute. reflexivity. Qed.

Lemma lookup_worldB_2 : eventsInFlight_ worldB !! 2%N = Some keydownRecord.
Proof. vm_compute. reflexivity. Qed.

Lemma lookup_worldB_3 : eventsInFlight_ worldB !! 3%N = Some touchstartRecord.
Proof. vm_compute. reflexivity. Qed.

Lemma lookup_worldA_1 :
  eventsInFlight_ worldA !! 1%N = Some (set_isWaitingForMount true clickRecord).
Proof. vm_compute. reflexivity. Qed.

Lemma ready_clickRecord : ready clickRecord.
Proof. split; eexists; reflexivity. Qed.

Lemma ready_keydownRecord : ready keydownRecord.
Proof. split; eexists; reflexivity. Qed.

Lemma dispatch_worldB :
  dispatchPendingEventTimingEntries true clock10 {[7%Z]} worldB = Returned worldA.
Proof. vm_compute. reflexivity. Qed.

Lemma run_worldB_worldA :
  run fnv1a32 true clock10 32 worldB [DispatchPendingEventTimingEntries {[7%Z]}]
  = Returned worldA.
Proof. vm_compute. reflexivity. Qed.

Lemma worldB_records tag e :
  eventsInFlight_ worldB !! tag = Some e →
  e = clickRecord ∨ e = keydownRecord ∨ e = touchstartRecord.
Proof.
  unfold worldB. simpl.
  intros [[_ <-]|[_ [[_ <-]|[_ [_ <-]%lookup_singleton_Some]]%lookup_insert_Some]]%lookup_insert_Some;
    auto.
Qed.

Lemma topClick_supported : "topClick" ∈ supportedRawNames.
Proof. apply list_elem_of_In. vm_compute. right. left. reflexivity. Qed.

Lemma topKeyUp_supported : "topKeyUp" ∈ supportedRawNames.
Proof.
  apply list_elem_of_In. vm_compute.
  do 24 right. left. reflexivity.
Qed.

Lemma topfacpABqx_unsupported : "topfacpABqx" ∉ supportedRawNames.
Proof.
  intros Hin%list_elem_of_In. vm_compute in Hin.
  repeat (destruct Hin as [Hin|Hin]; [discriminate Hin|]). exact Hin.
Qed.

(** C1, as the claim has it, fails.  In [scenarioWrap] a click is started
    with tag 1, processed and reported; the 4294967296 events started
    afterwards bring the 32-bit tag counter round to 1 again.  So tag 1,
    which was reported, is in the table once more, and
    [onEventProcessingStart] called with it is no longer without effect: it
    stamps the record of another event. *)
Lemma reported_tag_is_issued_again :
  ∃ w,
    initial world0 ∧
    run fnv1a32 true clock10 32 world0 scenarioWrap = Returned w ∧
    1%N ∈ reportedTags w ∧
    is_Some (eventsInFlight_ w !! 1%N) ∧
    ¬ unchanged w (onEventProcessingStart clock10 1 w).
Proof.
  assert (Hreg : getSupportedEvents fnv1a32 !! StrKey fnv1a32 "topKeyDown" = Some "keydown")
    by (vm_compute; reflexivity).
  assert (Hnone : ∀ tag e, eventsInFlight_ worldClick !! tag = Some e →
                           processingStartTime e = None).
  { intros tag e Hlook. simpl in Hlook. rewrite lookup_empty in Hlook. discriminate Hlook. }
  unfold scenarioWrap.
  pose proof (N2Nat.id (2 ^ 32)) as Hn.
  set (n := N.to_nat (2 ^ 32)) in *. clearbody n.
  assert (Hpos : (0 < n)%nat).
  { destruct n; [vm_compute in Hn; discriminate Hn|lia]. }
  destruct (repeated_starts fnv1a32 true clock10 32 "topKeyDown" "keydown" None (Some 0%Z)
              n worldClick eq_refl Hreg Hnone)
    as (w & Hrun & Halive & Hreports & Hnone' & Hlast).
  destruct (Hlast Hpos) as [Hcounter Hsome].
  rewrite Hn in Hcounter.
  assert (Hone : ((sCurrentEventTag_ worldClick + 2 ^ 32) mod EventTag_modulus 32)%N = 1%N)
    by (vm_compute; reflexivity).
  rewrite Hone in Hcounter. rewrite Hcounter in Hsome.
  exists w. split; [exact initial_world0|]. split.
  { rewrite run_app, run_scenarioClick. exact Hrun. }
  split.
  { unfold reportedTags. rewrite Hreports. apply list_elem_of_singleton. reflexivity. }
  split; [exact Hsome|].
  destruct Hsome as [e Hlook]. intros [Htable _].
  rewrite onEventProcessingStart_spec in Htable by exact Halive.
  simpl in Htable. rewrite Hlook in Htable.
  assert (Hsame : <[1%N := set_processingStartTime
                             (clock10 (clockReads (performanceEntryReporter_ w))) e]>
                    (eventsInFlight_ w) !! 1%N = eventsInFlight_ w !! 1%N)
    by (rewrite Htable; reflexivity).
  rewrite lookup_insert_eq, Hlook in Hsame. injection Hsame as Hsame.
  apply (f_equal processingStartTime) in Hsame. simpl in Hsame.
  rewrite (Hnone' 1%N e Hlook) in Hsame. discriminate Hsame.
Qed.

(** The key press of [scenarioA] was reported, with tag 2: a mount after
    it reports the click and nothing else, and tag 2 stays out of the
    table. *)
Lemma reported_at_most_once_witness :
  initial world0 ∧
  run fnv1a32 true clock10 32 world0 scenarioA = Returned worldA ∧
  (∃ w' news,
     step fnv1a32 true clock10 32 worldA (ShadowTreeDidMount (rootOf 7) 1000) = Returned w' ∧
     reportedEvents (performanceEntryReporter_ w')
       = reportedEvents (performanceEntryReporter_ worldA) ++ news ∧
     NoDup (report_tag <$> news) ∧
     (∀ ev, ev ∈ news →
        is_Some (eventsInFlight_ worldA !! report_tag ev) ∧
        eventsInFlight_ w' !! report_tag ev = None)) ∧
  eventsInFlight_ worldA !! 2%N = None ∧
  unchanged worldA (onEventProcessingStart clock10 2 worldA) ∧
  (∃ w', onEventProcessingEnd true clock10 2 worldA = Returned w' ∧ unchanged worldA w') ∧
  noWrap 32 world0 (scenarioA ++ [ShadowTreeDidMount (rootOf 7) 1000]) ∧
  2%N ∈ reportedTags worldA ∧
  (∃ w', run fnv1a32 true clock10 32 worldA [ShadowTreeDidMount (rootOf 7) 1000]
           = Returned w' ∧
         NoDup (reportedTags w') ∧ eventsInFlight_ w' !! 2%N = None).
Proof.
  assert (Hrep : 2%N ∈ reportedTags worldA) by (apply list_elem_of_singleton; reflexivity).
  assert (Hgone : eventsInFlight_ worldA !! 2%N = None) by (vm_compute; reflexivity).
  assert (Hroom : noWrap 32 world0 (scenarioA ++ [ShadowTreeDidMount (rootOf 7) 1000]))
    by (vm_compute; reflexivity).
  destruct (reported_at_most_once fnv1a32 true clock10 32 world0 scenarioA worldA
              initial_world0 run_scenarioA) as (Hstep & Habsent & Hlater).
  destruct (Habsent 2%N Hgone) as [Hstart Hend].
  split; [exact initial_world0|]. split; [exact run_scenarioA|]. split.
  { assert (Hret : ∃ w', step fnv1a32 true clock10 32 worldA
                           (ShadowTreeDidMount (rootOf 7) 1000) = Returned w')
      by (eexists; vm_compute; reflexivity).
    destruct Hret as [w' Hret].
    destruct (Hstep _ w' Hret) as (news & Heq & Hnodup & Hnews & _).
    exists w', news. split; [exact Hret|]. split; [exact Heq|].
    split; [exact Hnodup|exact Hnews]. }
  split; [exact Hgone|]. split; [exact Hstart|]. split; [exact Hend|].
  split; [exact Hroom|]. split; [exact Hrep|].
  eexists. split; [vm_compute; reflexivity|].
  refine ((λ H, conj (proj1 H) (proj2 H 2%N Hrep))
            (Hlater [ShadowTreeDidMount (rootOf 7) 1000] _ Hroom _)).
  vm_compute. reflexivity.
Defined.

(** The touch of [scenarioB] has no processing timestamps: a dispatch leaves
    it alone. *)
Lemma never_reported_unready_witness :
  initial world0 ∧
  run fnv1a32 true clock10 32 world0 scenarioB = Returned worldB ∧
  eventsInFlight_ worldB !! 3%N = Some touchstartRecord ∧
  ¬ ready touchstartRecord ∧
  (∃ w' news,
     dispatchPendingEventTimingEntries true clock10 ∅ worldB = Returned w' ∧
     reportedEvents (performanceEntryReporter_ w')
       = reportedEvents (performanceEntryReporter_ worldB) ++ news ∧
     eventsInFlight_ w' !! 3%N = Some touchstartRecord ∧ 3%N ∉ report_tag <$> news) ∧
  (∃ w' news,
     shadowTreeDidMount true (rootOf 7) 1000 worldB = Returned w' ∧
     reportedEvents (performanceEntryReporter_ w')
       = reportedEvents (performanceEntryReporter_ worldB) ++ news ∧
     ∀ ev, ev ∈ news →
       ∃ e, eventsInFlight_ worldB !! report_tag ev = Some e ∧
            processingStartTime e = Some (report_processingStart ev) ∧
            processingEndTime e = Some (report_processingEnd ev)).
Proof.
  assert (Hunready : ¬ ready touchstartRecord) by (intros [[t Ht] _]; discriminate Ht).
  destruct (never_reported_unready fnv1a32 true clock10 32) as [Hskip Hreach].
  destruct (Hskip ∅ worldB) as (w' & news & Hret & Hnews & Hkeep).
  destruct (Hreach world0 scenarioB worldB initial_world0 run_scenarioB) as [_ Hmount].
  split; [exact initial_world0|]. split; [exact run_scenarioB|].
  split; [exact lookup_worldB_3|]. split; [exact Hunready|]. split.
  - exists w', news. split; [exact Hret|]. split; [exact Hnews|].
    exact (Hkeep 3%N touchstartRecord lookup_worldB_3 Hunready).
  - exact (Hmount (rootOf 7) 1000%Z).
Defined.

(** The click of [scenarioB] is ready and on surface 7, which is pending: a
    dispatch marks it as waiting for the mount. *)
Lemma dispatch_defers_pending_surfaces_witness :
  eventsInFlight_ worldB !! 1%N = Some clickRecord ∧
  target clickRecord = targetOn 7 ∧
  7%Z ∈ ({[7%Z]} : gset Z) ∧
  lock worldB ≠ None ∧ ready clickRecord ∧ isWaitingForMount clickRecord = false ∧
  ∃ w' news,
    dispatchPendingEventTimingEntries true clock10 {[7%Z]} worldB = Returned w' ∧
    reportedEvents (performanceEntryReporter_ w')
      = reportedEvents (performanceEntryReporter_ worldB) ++ news ∧
    (1%N ∉ report_tag <$> news) ∧
    ∃ e', eventsInFlight_ w' !! 1%N = Some e' ∧
          isWaitingForMount e' = true ∧
          name e' = "click" ∧
          target e' = targetOn 7 ∧
          startTime e' = 100%Z ∧
          processingStartTime e' = Some 110%Z ∧
          processingEndTime e' = Some 120%Z ∧
          interactionId e' = None.
Proof.
  assert (Hsurf : 7%Z ∈ ({[7%Z]} : gset Z)) by (apply elem_of_singleton; reflexivity).
  destruct (dispatch_defers_pending_surfaces true clock10 {[7%Z]} worldB 1%N clickRecord
              {| EventTarget.getSurfaceId := 7 |} lookup_worldB_1 eq_refl Hsurf)
    as (w' & news & Hret & Hnews & Hnot & _ & Hmark).
  split; [exact lookup_worldB_1|]. split; [reflexivity|]. split; [exact Hsurf|].
  split; [exact lock_worldB|]. split; [exact ready_clickRecord|]. split; [reflexivity|].
  exists w', news. split; [exact Hret|]. split; [exact Hnews|]. split; [exact Hnot|].
  exact (Hmark lock_worldB ready_clickRecord eq_refl).
Defined.

(** In [worldA] the click waits for the mount of surface 7: the mount at time
    1000 reports it with duration 900 and leaves the touch alone. *)
Lemma mount_reports_parked_records_witness :
  initial world0 ∧
  run fnv1a32 true clock10 32 world0 scenarioA = Returned worldA ∧
  lock worldA ≠ None ∧
  eventsInFlight_ worldA !! 1%N = Some (set_isWaitingForMount true clickRecord) ∧
  onSurfaceOf (rootOf 7) (set_isWaitingForMount true clickRecord) ∧
  ∃ w' news,
    shadowTreeDidMount true (rootOf 7) 1000 worldA = Returned w' ∧
    reportedEvents (performanceEntryReporter_ w')
      = reportedEvents (performanceEntryReporter_ worldA) ++ news ∧
    NoDup (report_tag <$> news) ∧
    eventsInFlight_ w' !! 1%N = None ∧
    (∃ ev, ev ∈ news ∧
           reports 1%N (set_isWaitingForMount true clickRecord) (1000 - 100) ev) ∧
    eventsInFlight_ w' !! 3%N = Some touchstartRecord ∧
    3%N ∉ report_tag <$> news.
Proof.
  assert (Hlook3 : eventsInFlight_ worldA !! 3%N = Some touchstartRecord)
    by (vm_compute; reflexivity).
  assert (Hsurf : onSurfaceOf (rootOf 7) (set_isWaitingForMount true clickRecord)).
  { exists {| EventTarget.getSurfaceId := 7 |}, {| RootShadowNode.getSurfaceId := 7 |}.
    split; [reflexivity|]. split; reflexivity. }
  assert (Hother : ¬ (isWaitingForMount touchstartRecord = true ∧
                      onSurfaceOf (rootOf 7) touchstartRecord))
    by (intros [Hw _]; discriminate Hw).
  destruct (mount_reports_parked_records fnv1a32 true clock10 32 world0 scenarioA worldA
              (rootOf 7) 1000%Z initial_world0 run_scenarioA lock_worldA)
    as (w' & news & Hret & Hnews & Hnodup & _ & Hrep & Hkeep & _).
  destruct (Hrep 1%N _ lookup_worldA_1 eq_refl Hsurf) as [Hgone Hev].
  destruct (Hkeep 3%N _ Hlook3 Hother) as [Hkept Hnot].
  split; [exact initial_world0|]. split; [exact run_scenarioA|].
  split; [exact lock_worldA|]. split; [exact lookup_worldA_1|]. split; [exact Hsurf|].
  exists w', news. split; [exact Hret|]. split; [exact Hnews|]. split; [exact Hnodup|].
  split; [exact Hgone|]. split; [exact Hev|]. split; [exact Hkept|exact Hnot].
Defined.

(** C5, as the claim has it, fails, in both halves.  With the tag counter at
    the greatest value of a 32-bit [EventTag] and a sink to report to,
    [onEventStart] for the supported name "topClick" returns the empty tag,
    and the record is tracked under the empty tag.  And under FNV-1a the
    string "topfacpABqx", which is none of the supported names, has the
    hash of "topClick": [onEventStart] returns tag 1 for it and tracks a
    "click" record. *)
Lemma supported_name_gets_empty_tag :
  initial worldMax ∧
  lock worldMax ≠ None ∧
  "topClick" ∈ supportedRawNames ∧
  (onEventStart fnv1a32 clock10 32 "topClick" (targetOn 7) None worldMax).1
    = EMPTY_EVENT_TAG ∧
  eventsInFlight_ (onEventStart fnv1a32 clock10 32 "topClick" (targetOn 7) None worldMax).2
    = {[ EMPTY_EVENT_TAG := newEventEntry "click" (targetOn 7) 100 ]} ∧
  initial world0 ∧
  lock world0 ≠ None ∧
  ("topfacpABqx" ∉ supportedRawNames) ∧
  (onEventStart fnv1a32 clock10 32 "topfacpABqx" (targetOn 7) None world0).1 = 1%N ∧
  eventsInFlight_ (onEventStart fnv1a32 clock10 32 "topfacpABqx" (targetOn 7) None world0).2
    = {[ 1%N := newEventEntry "click" (targetOn 7) 100 ]}.
Proof.
  split; [exact initial_worldMax|]. split; [discriminate|].
  split; [exact topClick_supported|].
  split; [vm_compute; reflexivity|]. split; [vm_compute; reflexivity|].
  split; [exact initial_world0|]. split; [discriminate|].
  split; [exact topfacpABqx_unsupported|].
  split; [vm_compute; reflexivity|]. vm_compute. reflexivity.
Qed.

(** Starting a click and an unsupported event in [worldA]. *)
Lemma onEventStart_with_sink_witness :
  initial world0 ∧
  run fnv1a32 true clock10 32 world0 scenarioA = Returned worldA ∧
  lock worldA ≠ None ∧
  "topClick" ∈ supportedRawNames ∧
  noWrap 32 world0 (scenarioA ++ [OnEventStart "topClick" (targetOn 7) None]) ∧
  (∃ reportedName,
     getSupportedEvents fnv1a32 !! StrKey fnv1a32 "topClick" = Some reportedName ∧
     reportedName ∈ SUPPORTED_EVENTS_init.*2 ∧
     let tag := (onEventStart fnv1a32 clock10 32 "topClick" (targetOn 7) None worldA).1 in
     let w' := (onEventStart fnv1a32 clock10 32 "topClick" (targetOn 7) None worldA).2 in
     tag ≠ EMPTY_EVENT_TAG ∧
     eventsInFlight_ worldA !! tag = None ∧
     eventsInFlight_ w' =
       <[tag := {| name := reportedName; target := targetOn 7;
                   startTime := clock10 7;
                   processingStartTime := None; processingEndTime := None;
                   isWaitingForMount := false;
                   interactionId := defaultInteractionId |}]> (eventsInFlight_ worldA) ∧
     size (eventsInFlight_ w') = S (size (eventsInFlight_ worldA))) ∧
  (∀ s, s ∈ supportedRawNames → fnv1a32 s ≠ fnv1a32 "unsupportedEvent") ∧
  onEventStart fnv1a32 clock10 32 "unsupportedEvent" (targetOn 7) None worldA
    = (EMPTY_EVENT_TAG, worldA).
Proof.
  assert (Hroom : noWrap 32 world0 (scenarioA ++ [OnEventStart "topClick" (targetOn 7) None]))
    by (vm_compute; reflexivity).
  assert (Hdiffers : ∀ s, s ∈ supportedRawNames → fnv1a32 s ≠ fnv1a32 "unsupportedEvent").
  { intros s Hin%list_elem_of_In. vm_compute in Hin.
    repeat (destruct Hin as [Hin|Hin]; [subst s; vm_compute; discriminate|]).
    destruct Hin. }
  split; [exact initial_world0|]. split; [exact run_scenarioA|]. split; [exact lock_worldA|].
  split; [exact topClick_supported|]. split; [exact Hroom|]. split.
  - exact (proj1 (onEventStart_with_sink fnv1a32 true clock10 32 world0 scenarioA worldA
                    "topClick" (targetOn 7) None initial_world0 run_scenarioA lock_worldA)
                 topClick_supported Hroom).
  - split; [exact Hdiffers|].
    exact (proj2 (onEventStart_with_sink fnv1a32 true clock10 32 world0 scenarioA worldA
                    "unsupportedEvent" (targetOn 7) None initial_world0 run_scenarioA
                    lock_worldA)
                 Hdiffers).
Defined.

(** C6, as the claim has it, fails.  Under FNV-1a the string
    "topfacpABqx" is none of the supported names, and its hash is the hash
    of "topClick": with a sink to report to, [onEventStart] returns tag 1,
    not the empty tag, and tracks a "click" record under it. *)
Lemma exact_string_match_fails :
  ("topfacpABqx" ∉ supportedRawNames) ∧
  fnv1a32 "topfacpABqx" = fnv1a32 "topClick" ∧
  lock world0 ≠ None ∧
  (onEventStart fnv1a32 clock10 32 "topfacpABqx" (targetOn 7) None world0).1 = 1%N ∧
  (onEventStart fnv1a32 clock10 32 "topfacpABqx" (targetOn 7) None world0).1
    ≠ EMPTY_EVENT_TAG ∧
  (onEventStart fnv1a32 clock10 32 "topfacpABqx" (targetOn 7) None world0).2
    = {| eventsInFlight_ := {[ 1%N := newEventEntry "click" (targetOn 7) 100 ]};
         sCurrentEventTag_ := 1%N;
         performanceEntryReporter_ := {| clockReads := 1; reportedEvents := [] |};
         reporterExpired := false |}.
Proof.
  split; [exact topfacpABqx_unsupported|].
  split; [vm_compute; reflexivity|]. split; [discriminate|].
  split; [vm_compute; reflexivity|]. split; [vm_compute; discriminate|].
  vm_compute. reflexivity.
Qed.

(** Starting, in [worldA], an event whose name collides with "topClick" and
    one whose name collides with nothing. *)
Lemma onEventStart_classifies_by_hash_witness :
  initial world0 ∧
  run fnv1a32 true clock10 32 world0 scenarioA = Returned worldA ∧
  lock worldA ≠ None ∧
  (∃ s, s ∈ supportedRawNames ∧ fnv1a32 s = fnv1a32 "topfacpABqx") ∧
  noWrap 32 world0 (scenarioA ++ [OnEventStart "topfacpABqx" None None]) ∧
  (let tag := (onEventStart fnv1a32 clock10 32 "topfacpABqx" None None worldA).1 in
   let w' := (onEventStart fnv1a32 clock10 32 "topfacpABqx" None None worldA).2 in
   tag = ((sCurrentEventTag_ worldA + 1) mod EventTag_modulus 32)%N ∧
   sCurrentEventTag_ w' = tag ∧
   is_Some (eventsInFlight_ w' !! tag) ∧
   tag ≠ EMPTY_EVENT_TAG ∧
   eventsInFlight_ worldA !! tag = None) ∧
  (∀ s, s ∈ supportedRawNames → fnv1a32 s ≠ fnv1a32 "unsupportedEvent") ∧
  onEventStart fnv1a32 clock10 32 "unsupportedEvent" None None worldA
    = (EMPTY_EVENT_TAG, worldA).
Proof.
  assert (Hcollides : ∃ s, s ∈ supportedRawNames ∧ fnv1a32 s = fnv1a32 "topfacpABqx").
  { exists "topClick". split; [exact topClick_supported|vm_compute; reflexivity]. }
  assert (Hroom : noWrap 32 world0 (scenarioA ++ [OnEventStart "topfacpABqx" None None]))
    by (vm_compute; reflexivity).
  assert (Hdiffers : ∀ s, s ∈ supportedRawNames → fnv1a32 s ≠ fnv1a32 "unsupportedEvent").
  { intros s Hin%list_elem_of_In. vm_compute in Hin.
    repeat (destruct Hin as [Hin|Hin]; [subst s; vm_compute; discriminate|]).
    destruct Hin. }
  split; [exact initial_world0|]. split; [exact run_scenarioA|]. split; [exact lock_worldA|].
  split; [exact Hcollides|]. split; [exact Hroom|]. split.
  - destruct (proj1 (onEventStart_classifies_by_hash fnv1a32 true clock10 32 world0 scenarioA
                       worldA "topfacpABqx" None None initial_world0 run_scenarioA
                       lock_worldA)
                    Hcollides) as (Htag & Hcounter & Hsome & Hfresh).
    split; [exact Htag|]. split; [exact Hcounter|]. split; [exact Hsome|].
    exact (Hfresh Hroom).
  - split; [exact Hdiffers|].
    exact (proj2 (onEventStart_classifies_by_hash fnv1a32 true clock10 32 world0 scenarioA
                    worldA "unsupportedEvent" None None initial_world0 run_scenarioA
                    lock_worldA)
                 Hdiffers).
Defined.

(** The click that waits for the mount in [worldA]: a dispatch leaves it
    waiting, and the mount of surface 7 at time 1000 reports it. *)
Lemma waiting_for_mount_is_monotone_witness :
  initial world0 ∧
  run fnv1a32 true clock10 32 world0 scenarioA = Returned worldA ∧
  eventsInFlight_ worldA !! 1%N = Some (set_isWaitingForMount true clickRecord) ∧
  isWaitingForMount (set_isWaitingForMount true clickRecord) = true ∧
  (∀ c w', step fnv1a32 true clock10 32 worldA c = Returned w' →
     ∃ news,
       reportedEvents (performanceEntryReporter_ w')
         = reportedEvents (performanceEntryReporter_ worldA) ++ news ∧
       ((∃ e', eventsInFlight_ w' !! 1%N = Some e' ∧ isWaitingForMount e' = true ∧
               name e' = "click" ∧ target e' = targetOn 7 ∧
               startTime e' = 100%Z ∧ interactionId e' = None ∧
               (1%N ∉ report_tag <$> news)) ∨
        (∃ root mountTime ev,
           c = ShadowTreeDidMount root mountTime ∧
           eventsInFlight_ w' !! 1%N = None ∧
           ev ∈ news ∧
           reports 1%N (set_isWaitingForMount true clickRecord) (mountTime - 100) ev))) ∧
  (∃ w' news,
     run fnv1a32 true clock10 32 worldA
       [DispatchPendingEventTimingEntries ∅; ShadowTreeDidMount (rootOf 7) 1000] = Returned w' ∧
     reportedEvents (performanceEntryReporter_ w')
       = reportedEvents (performanceEntryReporter_ worldA) ++ news ∧
     ((∃ e', eventsInFlight_ w' !! 1%N = Some e' ∧ isWaitingForMount e' = true ∧
             name e' = "click" ∧ target e' = targetOn 7 ∧
             startTime e' = 100%Z ∧ interactionId e' = None) ∨
      (∃ ev root mountTime,
         ev ∈ news ∧
         ShadowTreeDidMount root mountTime
           ∈ [DispatchPendingEventTimingEntries ∅; ShadowTreeDidMount (rootOf 7) 1000] ∧
         report_tag ev = 1%N ∧ report_name ev = "click" ∧
         report_startTime ev = 100%Z ∧
         report_duration ev = (mountTime - 100)%Z ∧
         report_interactionId ev = None))) ∧
  (∀ pending,
     ∃ w' news,
       dispatchPendingEventTimingEntries true clock10 pending worldA = Returned w' ∧
       reportedEvents (performanceEntryReporter_ w')
         = reportedEvents (performanceEntryReporter_ worldA) ++ news ∧
       eventsInFlight_ w' !! 1%N = Some (set_isWaitingForMount true clickRecord) ∧
       (1%N ∉ report_tag <$> news)).
Proof.
  destruct (waiting_for_mount_is_monotone fnv1a32 true clock10 32 world0 scenarioA worldA 1%N
              (set_isWaitingForMount true clickRecord) initial_world0 run_scenarioA
              lookup_worldA_1 eq_refl) as (Hstep & Hrun & Hdispatch).
  split; [exact initial_world0|]. split; [exact run_scenarioA|].
  split; [exact lookup_worldA_1|]. split; [reflexivity|].
  split; [exact Hstep|]. split; [|exact Hdispatch].
  assert (Hret : ∃ w', run fnv1a32 true clock10 32 worldA
                         [DispatchPendingEventTimingEntries ∅;
                          ShadowTreeDidMount (rootOf 7) 1000] = Returned w')
    by (eexists; vm_compute; reflexivity).
  destruct Hret as [w' Hret]. destruct (Hrun _ w' Hret) as (news & Heq & Hcases).
  exists w', news. split; [exact Hret|]. split; [exact Heq|exact Hcases].
Defined.

(** [worldA] after its sink is gone. *)
Lemma sink_unavailable_is_noop_witness :
  lock (expire worldA) = None ∧
  (∀ rawName tgt ts,
     onEventStart fnv1a32 clock10 32 rawName tgt ts (expire worldA)
       = (EMPTY_EVENT_TAG, expire worldA)) ∧
  (∀ tag, onEventProcessingStart clock10 tag (expire worldA) = expire worldA) ∧
  (∀ tag, onEventProcessingEnd true clock10 tag (expire worldA) = Returned (expire worldA)) ∧
  (∀ pending,
     dispatchPendingEventTimingEntries true clock10 pending (expire worldA)
       = Returned (expire worldA)) ∧
  (∀ root mountTime,
     shadowTreeDidMount true root mountTime (expire worldA) = Returned (expire worldA)).
Proof.
  split; [reflexivity|].
  exact (sink_unavailable_is_noop fnv1a32 true clock10 32 (expire worldA) eq_refl).
Defined.

(** [scenarioA] keeps the order of the processing calls; the touch of [worldA]
    has no start of processing, so ending its processing stops in the
    assertion of a debug build. *)
Lemma processing_end_after_start_witness :
  true = true ∧
  initial world0 ∧
  run fnv1a32 true clock10 32 world0 scenarioA = Returned worldA ∧
  processingOrdered worldA ∧
  lock worldA ≠ None ∧
  eventsInFlight_ worldA !! 3%N = Some touchstartRecord ∧
  processingStartTime touchstartRecord = None ∧
  onEventProcessingEnd true clock10 3 worldA = AssertionFailed msgProcessingEndBeforeStart ∧
  processingEndAfterStart fnv1a32 false clock10 32 ∅ world0 scenarioA = true ∧
  (∃ w1, run fnv1a32 false clock10 32 world0 scenarioA = Returned w1 ∧ processingOrdered w1).
Proof.
  assert (Hlook : eventsInFlight_ worldA !! 3%N = Some touchstartRecord)
    by (vm_compute; reflexivity).
  assert (Hdisc : processingEndAfterStart fnv1a32 false clock10 32 ∅ world0 scenarioA = true)
    by (vm_compute; reflexivity).
  destruct (proj1 (processing_end_after_start fnv1a32 true clock10 32) eq_refl)
    as [Hreach Hassert].
  split; [reflexivity|]. split; [exact initial_world0|]. split; [exact run_scenarioA|].
  split; [exact (Hreach world0 scenarioA worldA initial_world0 run_scenarioA)|].
  split; [exact lock_worldA|]. split; [exact Hlook|]. split; [reflexivity|].
  split; [exact (Hassert worldA 3%N touchstartRecord lock_worldA Hlook eq_refl)|].
  split; [exact Hdisc|].
  apply (proj2 (processing_end_after_start fnv1a32 false clock10 32) world0 scenarioA
           initial_world0 Hdisc scenarioA []).
  symmetry. apply app_nil_r.
Defined.

(** The key press of [scenarioB] has no target. *)
Lemma null_target_record_witness :
  initial world0 ∧
  run fnv1a32 true clock10 32 world0 scenarioB = Returned worldB ∧
  eventsInFlight_ worldB !! 2%N = Some keydownRecord ∧
  target keydownRecord = None ∧
  lock worldB ≠ None ∧ ready keydownRecord ∧
  isWaitingForMount keydownRecord = false ∧
  (∀ pending,
     ∃ w' news,
       dispatchPendingEventTimingEntries true clock10 pending worldB = Returned w' ∧
       reportedEvents (performanceEntryReporter_ w')
         = reportedEvents (performanceEntryReporter_ worldB) ++ news ∧
       eventsInFlight_ w' !! 2%N = None ∧
       ∃ ev n, ev ∈ news ∧ reports 2%N keydownRecord (clock10 n - startTime keydownRecord) ev) ∧
  (∀ root mountTime,
     ∃ w' news,
       shadowTreeDidMount true root mountTime worldB = Returned w' ∧
       reportedEvents (performanceEntryReporter_ w')
         = reportedEvents (performanceEntryReporter_ worldB) ++ news ∧
       eventsInFlight_ w' !! 2%N = Some keydownRecord ∧ 2%N ∉ report_tag <$> news).
Proof.
  destruct (null_target_record fnv1a32 true clock10 32 world0 scenarioB worldB 2%N
              keydownRecord initial_world0 run_scenarioB lookup_worldB_2 eq_refl)
    as (Hflag & Hdispatch & Hmount).
  split; [exact initial_world0|]. split; [exact run_scenarioB|].
  split; [exact lookup_worldB_2|]. split; [reflexivity|]. split; [exact lock_worldB|].
  split; [exact ready_keydownRecord|]. split; [exact Hflag|]. split; [|exact Hmount].
  intros pending. destruct (Hdispatch pending) as (w' & news & Hret & Hnews & Hrep & _).
  exists w', news. split; [exact Hret|]. split; [exact Hnews|].
  exact (Hrep lock_worldB ready_keydownRecord).
Defined.

(** * The further properties at work on the concrete runs *)

(** The key press of [worldB] is reported by the dispatch that leads to
    [worldA]. *)
Lemma no_record_is_lost_witness :
  initial world0 ∧
  run fnv1a32 true clock10 32 world0 scenarioB = Returned worldB ∧
  eventsInFlight_ worldB !! 2%N = Some keydownRecord ∧
  run fnv1a32 true clock10 32 worldB [DispatchPendingEventTimingEntries {[7%Z]}]
    = Returned worldA ∧
  (is_Some (eventsInFlight_ worldA !! 2%N) ∨ 2%N ∈ reportedTags worldA).
Proof.
  split; [exact initial_world0|]. split; [exact run_scenarioB|].
  split; [exact lookup_worldB_2|]. split; [exact run_worldB_worldA|].
  exact (no_record_is_lost fnv1a32 true clock10 32 world0 scenarioB worldB _ worldA 2%N
           keydownRecord initial_world0 run_scenarioB lookup_worldB_2 run_worldB_worldA).
Defined.

Lemma record_identity_is_kept_witness :
  initial world0 ∧
  run fnv1a32 true clock10 32 world0 scenarioB = Returned worldB ∧
  eventsInFlight_ worldB !! 2%N = Some keydownRecord ∧
  run fnv1a32 true clock10 32 worldB [DispatchPendingEventTimingEntries {[7%Z]}]
    = Returned worldA ∧
  noWrap 32 world0 (scenarioB ++ [DispatchPendingEventTimingEntries {[7%Z]}]) ∧
  ((∃ e', eventsInFlight_ worldA !! 2%N = Some e' ∧
          name e' = name keydownRecord ∧ target e' = target keydownRecord ∧
          startTime e' = startTime keydownRecord ∧
          interactionId e' = interactionId keydownRecord) ∨
   (∃ ev, ev ∈ reportedEvents (performanceEntryReporter_ worldA) ∧
          report_tag ev = 2%N ∧ report_name ev = name keydownRecord ∧
          report_startTime ev = startTime keydownRecord ∧
          report_interactionId ev = interactionId keydownRecord)) ∧
  (∀ e', eventsInFlight_ worldA !! 2%N = Some e' →
         name e' = name keydownRecord ∧ target e' = target keydownRecord ∧
         startTime e' = startTime keydownRecord ∧
         interactionId e' = interactionId keydownRecord) ∧
  (∀ ev, ev ∈ reportedEvents (performanceEntryReporter_ worldA) → report_tag ev = 2%N →
         report_name ev = name keydownRecord ∧
         report_startTime ev = startTime keydownRecord ∧
         report_interactionId ev = interactionId keydownRecord).
Proof.
  assert (Hroom : noWrap 32 world0 (scenarioB ++ [DispatchPendingEventTimingEntries {[7%Z]}]))
    by (vm_compute; reflexivity).
  destruct (record_identity_is_kept fnv1a32 true clock10 32 world0 scenarioB worldB _ worldA
              2%N keydownRecord initial_world0 run_scenarioB lookup_worldB_2
              run_worldB_worldA) as [Hcases Hunique].
  split; [exact initial_world0|]. split; [exact run_scenarioB|].
  split; [exact lookup_worldB_2|]. split; [exact run_worldB_worldA|].
  split; [exact Hroom|]. split; [exact Hcases|]. exact (Hunique Hroom).
Defined.

(** The touch of [worldB] was never processed: the dispatch leaves it. *)
Lemma nothing_finalized_before_processing_end_witness :
  initial world0 ∧
  run fnv1a32 true clock10 32 world0 scenarioB = Returned worldB ∧
  eventsInFlight_ worldB !! 3%N = Some touchstartRecord ∧
  processingEndTime touchstartRecord = None ∧
  (OnEventProcessingEnd 3 ∉ [DispatchPendingEventTimingEntries {[7%Z]}]) ∧
  run fnv1a32 true clock10 32 worldB [DispatchPendingEventTimingEntries {[7%Z]}]
    = Returned worldA ∧
  ∃ e' news,
    eventsInFlight_ worldA !! 3%N = Some e' ∧ processingEndTime e' = None ∧
    name e' = name touchstartRecord ∧ target e' = target touchstartRecord ∧
    startTime e' = startTime touchstartRecord ∧
    interactionId e' = interactionId touchstartRecord ∧
    reportedEvents (performanceEntryReporter_ worldA)
      = reportedEvents (performanceEntryReporter_ worldB) ++ news ∧
    (3%N ∉ report_tag <$> news).
Proof.
  assert (Hcalls : OnEventProcessingEnd 3 ∉ [DispatchPendingEventTimingEntries {[7%Z]}])
    by (intros Hin%list_elem_of_singleton; discriminate Hin).
  split; [exact initial_world0|]. split; [exact run_scenarioB|].
  split; [exact lookup_worldB_3|]. split; [reflexivity|]. split; [exact Hcalls|].
  split; [exact run_worldB_worldA|].
  exact (nothing_finalized_before_processing_end fnv1a32 true clock10 32 world0 scenarioB
           worldB _ worldA 3%N touchstartRecord initial_world0 run_scenarioB lookup_worldB_3
           eq_refl Hcalls run_worldB_worldA).
Defined.

(** Two starts from [worldA], with a dispatch in between: tags 4 and 5.  And
    a start with the counter at its greatest value: the empty tag. *)
Lemma tags_strictly_increase_witness :
  (∃ w2,
     run fnv1a32 true clock10 32
       (onEventStart fnv1a32 clock10 32 "topClick" None None worldA).2
       [DispatchPendingEventTimingEntries ∅] = Returned w2 ∧
     (onEventStart fnv1a32 clock10 32 "topClick" None None worldA).1 ≠ EMPTY_EVENT_TAG ∧
     (onEventStart fnv1a32 clock10 32 "topKeyUp" None None w2).1 ≠ EMPTY_EVENT_TAG ∧
     noWrap 32 worldA
       (OnEventStart "topClick" None None
          :: [DispatchPendingEventTimingEntries ∅] ++ [OnEventStart "topKeyUp" None None]) ∧
     ((onEventStart fnv1a32 clock10 32 "topClick" None None worldA).1
      < (onEventStart fnv1a32 clock10 32 "topKeyUp" None None w2).1)%N ∧
     (sCurrentEventTag_ worldA ≤ sCurrentEventTag_ w2)%N) ∧
  lock worldMax ≠ None ∧
  (∃ s, s ∈ supportedRawNames ∧ fnv1a32 s = fnv1a32 "topClick") ∧
  (sCurrentEventTag_ worldMax + 1)%N = EventTag_modulus 32 ∧
  (onEventStart fnv1a32 clock10 32 "topClick" None None worldMax).1 = EMPTY_EVENT_TAG ∧
  is_Some (eventsInFlight_ (onEventStart fnv1a32 clock10 32 "topClick" None None worldMax).2
             !! EMPTY_EVENT_TAG).
Proof.
  assert (Hlock : lock worldMax ≠ None) by discriminate.
  assert (Hreg : ∃ s, s ∈ supportedRawNames ∧ fnv1a32 s = fnv1a32 "topClick")
    by (exists "topClick"; split; [exact topClick_supported|reflexivity]).
  assert (Hmax : (sCurrentEventTag_ worldMax + 1)%N = EventTag_modulus 32)
    by (vm_compute; reflexivity).
  split.
  - eexists. split; [vm_compute; reflexivity|].
    assert (H1 : (onEventStart fnv1a32 clock10 32 "topClick" None None worldA).1
                 ≠ EMPTY_EVENT_TAG)
      by (vm_compute; discriminate).
    split; [exact H1|].
    match goal with
    | |- ?P ∧ _ => assert (H2 : P) by (vm_compute; discriminate)
    end.
    split; [exact H2|].
    match goal with
    | |- ?P ∧ _ => assert (Hroom : P) by (vm_compute; reflexivity)
    end.
    split; [exact Hroom|].
    refine (proj1 (tags_strictly_increase fnv1a32 true clock10 32 worldA "topClick" None None)
              [DispatchPendingEventTimingEntries ∅] _ "topKeyUp" None None _ H1 H2 Hroom).
    vm_compute. reflexivity.
  - split; [exact Hlock|]. split; [exact Hreg|]. split; [exact Hmax|].
    destruct (proj2 (tags_strictly_increase fnv1a32 true clock10 32 worldMax
                       "topClick" None None) Hlock Hreg) as (_ & _ & Hwrap).
    exact (Hwrap Hmax).
Defined.

(** The key press of [worldB] is ready and has no target: the dispatch reports
    and erases it. *)
Lemma dispatch_reports_ready_records_witness :
  lock worldB ≠ None ∧
  eventsInFlight_ worldB !! 2%N = Some keydownRecord ∧
  ready keydownRecord ∧ isWaitingForMount keydownRecord = false ∧
  (∀ t, target keydownRecord = Some t → EventTarget.getSurfaceId t ∉ ({[7%Z]} : gset Z)) ∧
  ∃ w' news,
    dispatchPendingEventTimingEntries true clock10 {[7%Z]} worldB = Returned w' ∧
    reportedEvents (performanceEntryReporter_ w')
      = reportedEvents (performanceEntryReporter_ worldB) ++ news ∧
    eventsInFlight_ w' !! 2%N = None ∧
    (∃ ev n, ev ∈ news ∧ reports 2%N keydownRecord (clock10 n - startTime keydownRecord) ev) ∧
    (∀ tag, tag ∈ report_tag <$> news ↔
            is_Some (eventsInFlight_ worldB !! tag) ∧ eventsInFlight_ w' !! tag = None).
Proof.
  assert (Hsurf : ∀ t, target keydownRecord = Some t →
                       EventTarget.getSurfaceId t ∉ ({[7%Z]} : gset Z))
    by (intros t Ht; discriminate Ht).
  destruct (dispatch_reports_ready_records true clock10 {[7%Z]} worldB lock_worldB)
    as (w' & news & Hret & Hnews & Hfin & Hiff).
  destruct (Hfin 2%N keydownRecord lookup_worldB_2 ready_keydownRecord eq_refl Hsurf)
    as [Hgone Hev].
  split; [exact lock_worldB|]. split; [exact lookup_worldB_2|].
  split; [exact ready_keydownRecord|]. split; [reflexivity|]. split; [exact Hsurf|].
  exists w', news. split; [exact Hret|]. split; [exact Hnews|].
  split; [exact Hgone|]. split; [exact Hev|exact Hiff].
Defined.

Lemma dispatch_reads_clock_per_report_witness :
  lock worldB ≠ None ∧
  ∃ w' news,
    dispatchPendingEventTimingEntries true clock10 {[7%Z]} worldB = Returned w' ∧
    reportedEvents (performanceEntryReporter_ w')
      = reportedEvents (performanceEntryReporter_ worldB) ++ news ∧
    clockReads (performanceEntryReporter_ w')
      = clockReads (performanceEntryReporter_ worldB) + length news ∧
    ∀ i ev, news !! i = Some ev →
      report_duration ev
        = (clock10 (clockReads (performanceEntryReporter_ worldB) + i)
           - report_startTime ev)%Z.
Proof.
  split; [exact lock_worldB|].
  exact (dispatch_reads_clock_per_report true clock10 {[7%Z]} worldB lock_worldB).
Defined.

(** After the dispatch that leads from [worldB] to [worldA], a dispatch with
    no pending surface changes nothing: the click still waits for its
    mount. *)
Lemma dispatch_twice_is_dispatch_once_witness :
  dispatchPendingEventTimingEntries true clock10 {[7%Z]} worldB = Returned worldA ∧
  dispatchPendingEventTimingEntries true clock10 ∅ worldA = Returned worldA ∧
  lock worldB ≠ None ∧
  (∀ tag e, eventsInFlight_ worldA !! tag = Some e →
            ¬ ready e ∨ isWaitingForMount e = true).
Proof.
  destruct (dispatch_twice_is_dispatch_once true clock10 {[7%Z]} ∅ worldB worldA
              dispatch_worldB) as [Htwice Hafter].
  split; [exact dispatch_worldB|]. split; [exact Htwice|].
  split; [exact lock_worldB|exact (Hafter lock_worldB)].
Defined.

(** Nothing waits for a mount in [worldB]; in [worldA] the click waits for
    the mount of surface 7, and a second mount of that surface finds
    nothing. *)
Lemma mount_without_waiting_records_witness :
  (∀ tag e, eventsInFlight_ worldB !! tag = Some e →
            ¬ (isWaitingForMount e = true ∧ onSurfaceOf (rootOf 7) e)) ∧
  shadowTreeDidMount true (rootOf 7) 1000 worldB = Returned worldB ∧
  shadowTreeDidMount true None 1000 worldA = Returned worldA ∧
  initial world0 ∧
  run fnv1a32 true clock10 32 world0 scenarioA = Returned worldA ∧
  ∃ w', shadowTreeDidMount true (rootOf 7) 1000 worldA = Returned w' ∧
        shadowTreeDidMount true (rootOf 7) 2000 w' = Returned w'.
Proof.
  assert (Hnone : ∀ tag e, eventsInFlight_ worldB !! tag = Some e →
                    ¬ (isWaitingForMount e = true ∧ onSurfaceOf (rootOf 7) e)).
  { intros tag e [-> |[-> | ->]]%worldB_records [Hw _]; discriminate Hw. }
  destruct (mount_without_waiting_records fnv1a32 true clock10 32)
    as (Hnoop & Hnull & Htwice).
  split; [exact Hnone|]. split; [exact (Hnoop (rootOf 7) 1000%Z worldB Hnone)|].
  split; [exact (Hnull 1000%Z worldA)|].
  split; [exact initial_world0|]. split; [exact run_scenarioA|].
  eexists. split; [vm_compute; reflexivity|].
  refine (Htwice world0 scenarioA worldA (rootOf 7) 1000%Z 2000%Z _
            initial_world0 run_scenarioA _).
  vm_compute. reflexivity.
Defined.

(** The click of [worldB]: deferred by the dispatch, reported by the mount of
    surface 7 at time 1000 with duration 900. *)
Lemma deferred_record_is_reported_at_mount_witness :
  initial world0 ∧
  run fnv1a32 true clock10 32 world0 scenarioB = Returned worldB ∧
  lock worldB ≠ None ∧
  eventsInFlight_ worldB !! 1%N = Some clickRecord ∧
  ready clickRecord ∧ isWaitingForMount clickRecord = false ∧
  target clickRecord = targetOn 7 ∧
  7%Z ∈ ({[7%Z]} : gset Z) ∧
  ∃ w1 w2 news1 news2 e1 ev,
    dispatchPendingEventTimingEntries true clock10 {[7%Z]} worldB = Returned w1 ∧
    reportedEvents (performanceEntryReporter_ w1)
      = reportedEvents (performanceEntryReporter_ worldB) ++ news1 ∧
    shadowTreeDidMount true (rootOf 7) 1000 w1 = Returned w2 ∧
    reportedEvents (performanceEntryReporter_ w2)
      = reportedEvents (performanceEntryReporter_ w1) ++ news2 ∧
    eventsInFlight_ w1 !! 1%N = Some e1 ∧
    isWaitingForMount e1 = true ∧
    name e1 = name clickRecord ∧ target e1 = target clickRecord ∧
    startTime e1 = startTime clickRecord ∧
    processingStartTime e1 = processingStartTime clickRecord ∧
    processingEndTime e1 = processingEndTime clickRecord ∧
    interactionId e1 = interactionId clickRecord ∧
    (1%N ∉ report_tag <$> news1) ∧
    eventsInFlight_ w2 !! 1%N = None ∧
    ev ∈ news2 ∧
    reports 1%N clickRecord (1000 - startTime clickRecord) ev ∧
    (∀ ev', ev' ∈ news2 → report_tag ev' = 1%N → ev' = ev).
Proof.
  assert (Hsurf : 7%Z ∈ ({[7%Z]} : gset Z)) by (apply elem_of_singleton; reflexivity).
  split; [exact initial_world0|]. split; [exact run_scenarioB|].
  split; [exact lock_worldB|]. split; [exact lookup_worldB_1|].
  split; [exact ready_clickRecord|]. split; [reflexivity|]. split; [reflexivity|].
  split; [exact Hsurf|].
  exact (deferred_record_is_reported_at_mount fnv1a32 true clock10 32 world0 scenarioB worldB
           {[7%Z]} 1%N clickRecord {| EventTarget.getSurfaceId := 7 |}
           {| RootShadowNode.getSurfaceId := 7 |} 1000%Z
           initial_world0 run_scenarioB lock_worldB lookup_worldB_1 ready_clickRecord
           eq_refl eq_refl Hsurf eq_refl).
Defined.

(** A key release started in [worldA], processed and dispatched. *)
Lemma processed_event_is_reported_witness :
  initial world0 ∧
  run fnv1a32 true clock10 32 world0 scenarioA = Returned worldA ∧
  noWrap 32 world0 (scenarioA ++ [OnEventStart "topKeyUp" None (Some 42%Z)]) ∧
  lock worldA ≠ None ∧
  "topKeyUp" ∈ supportedRawNames ∧
  (∀ t, (None : option EventTarget.t) = Some t →
        EventTarget.getSurfaceId t ∉ ({[7%Z]} : gset Z)) ∧
  ∃ reportedName w4 ev n,
    getSupportedEvents fnv1a32 !! StrKey fnv1a32 "topKeyUp" = Some reportedName ∧
    run fnv1a32 true clock10 32 worldA
      [ OnEventStart "topKeyUp" None (Some 42%Z);
        OnEventProcessingStart
          (onEventStart fnv1a32 clock10 32 "topKeyUp" None (Some 42%Z) worldA).1;
        OnEventProcessingEnd
          (onEventStart fnv1a32 clock10 32 "topKeyUp" None (Some 42%Z) worldA).1;
        DispatchPendingEventTimingEntries {[7%Z]} ] = Returned w4 ∧
    eventsInFlight_ w4
      !! (onEventStart fnv1a32 clock10 32 "topKeyUp" None (Some 42%Z) worldA).1 = None ∧
    ev ∈ reportedEvents (performanceEntryReporter_ w4) ∧
    (ev ∉ reportedEvents (performanceEntryReporter_ worldA)) ∧
    report_name ev = reportedName ∧
    report_startTime ev = 42%Z ∧
    report_processingStart ev = clock10 7 ∧
    report_processingEnd ev = clock10 8 ∧
    report_duration ev = (clock10 n - report_startTime ev)%Z ∧
    (9 ≤ n)%nat.
Proof.
  assert (Hsurf : ∀ t, (None : option EventTarget.t) = Some t →
                       EventTarget.getSurfaceId t ∉ ({[7%Z]} : gset Z))
    by (intros t Ht; discriminate Ht).
  assert (Hroom : noWrap 32 world0 (scenarioA ++ [OnEventStart "topKeyUp" None (Some 42%Z)]))
    by (vm_compute; reflexivity).
  destruct (processed_event_is_reported fnv1a32 true clock10 32 world0 scenarioA worldA
              "topKeyUp" None (Some 42%Z) {[7%Z]}
              initial_world0 run_scenarioA Hroom lock_worldA topKeyUp_supported Hsurf)
    as (reportedName & w4 & ev & n & Hreg & Hrun & Hgone & Hev & Hnew & _ & _ & Hname
        & Hstart & Hps & Hpe & _ & Hdur & Hn).
  split; [exact initial_world0|]. split; [exact run_scenarioA|]. split; [exact Hroom|].
  split; [exact lock_worldA|]. split; [exact topKeyUp_supported|]. split; [exact Hsurf|].
  exists reportedName, w4, ev, n.
  split; [exact Hreg|]. split; [exact Hrun|]. split; [exact Hgone|].
  split; [exact Hev|]. split; [exact Hnew|]. split; [exact Hname|].
  split; [exact Hstart|]. split; [exact Hps|]. split; [exact Hpe|].
  split; [exact Hdur|exact Hn].
Defined.

(** The touch of [worldB], stamped twice. *)
Lemma processing_start_overwrites_witness :
  lock worldB ≠ None ∧
  eventsInFlight_ worldB !! 3%N = Some touchstartRecord ∧
  ∃ e1 e2,
    eventsInFlight_ (onEventProcessingStart clock10 3 worldB) !! 3%N = Some e1 ∧
    processingStartTime e1 = Some (clock10 6) ∧
    eventsInFlight_ (onEventProcessingStart clock10 3 (onEventProcessingStart clock10 3 worldB))
      !! 3%N = Some e2 ∧
    processingStartTime e2 = Some (clock10 7) ∧
    name e2 = "touchstart" ∧ target e2 = targetOn 9 ∧ startTime e2 = 150%Z ∧
    processingEndTime e2 = None ∧ isWaitingForMount e2 = false ∧ interactionId e2 = None.
Proof.
  destruct (processing_start_overwrites clock10 worldB 3%N touchstartRecord
              lock_worldB lookup_worldB_3)
    as (e1 & e2 & Hfirst & Hstamp1 & Hsecond & Hstamp2 & Hrest & _).
  split; [exact lock_worldB|]. split; [exact lookup_worldB_3|].
  exists e1, e2. split; [exact Hfirst|]. split; [exact Hstamp1|].
  split; [exact Hsecond|]. split; [exact Hstamp2|].
  exact (Hrest e2 (or_intror eq_refl)).
Defined.

Lemma fnv1a32_no_collision : NoDup (StrKey fnv1a32 <$> supportedRawNames).
Proof. apply (bool_decide_unpack _). vm_compute. exact I. Qed.

(** Under FNV-1a the raw names of the list have distinct hashes. *)
Lemma registry_resolves_listed_names_witness :
  NoDup (StrKey fnv1a32 <$> supportedRawNames) ∧
  ∀ rawName reportedName,
    (rawName, reportedName) ∈ SUPPORTED_EVENTS_init →
    getSupportedEvents fnv1a32 !! StrKey fnv1a32 rawName = Some reportedName.
Proof.
  split; [exact fnv1a32_no_collision|].
  exact (proj2 (registry_resolves_listed_names fnv1a32) fnv1a32_no_collision).
Defined.

Lemma clock10_monotone (i j : nat) : (i ≤ j)%nat → (clock10 i ≤ clock10 j)%Z.
Proof. unfold clock10. lia. Qed.

Lemma dispatch_duration_covers_processing_witness :
  (∀ i j : nat, (i ≤ j)%nat → (clock10 i ≤ clock10 j)%Z) ∧
  initial world0 ∧
  run fnv1a32 true clock10 32 world0 scenarioB = Returned worldB ∧
  ∃ w' news,
    dispatchPendingEventTimingEntries true clock10 {[7%Z]} worldB = Returned w' ∧
    reportedEvents (performanceEntryReporter_ w')
      = reportedEvents (performanceEntryReporter_ worldB) ++ news ∧
    ∀ ev, ev ∈ news →
      (report_processingStart ev ≤ report_startTime ev + report_duration ev)%Z ∧
      (report_processingEnd ev ≤ report_startTime ev + report_duration ev)%Z.
Proof.
  split; [exact clock10_monotone|]. split; [exact initial_world0|].
  split; [exact run_scenarioB|].
  exact (dispatch_duration_covers_processing fnv1a32 true clock10 32 world0 scenarioB worldB
           {[7%Z]} clock10_monotone initial_world0 run_scenarioB).
Defined.

(** Starting a click in [worldA] adds tag 4. *)
Lemma only_onEventStart_adds_records_witness :
  initial world0 ∧
  run fnv1a32 true clock10 32 world0 scenarioA = Returned worldA ∧
  eventsInFlight_ worldA !! 4%N = None ∧
  ∃ w',
    step fnv1a32 true clock10 32 worldA (OnEventStart "topClick" None None) = Returned w' ∧
    is_Some (eventsInFlight_ w' !! 4%N) ∧
    ∃ rawName tgt ts,
      OnEventStart "topClick" None None = OnEventStart rawName tgt ts ∧
      4%N = (onEventStart fnv1a32 clock10 32 rawName tgt ts worldA).1.
Proof.
  assert (Hnone : eventsInFlight_ worldA !! 4%N = None) by (vm_compute; reflexivity).
  split; [exact initial_world0|]. split; [exact run_scenarioA|]. split; [exact Hnone|].
  eexists. split; [vm_compute; reflexivity|].
  match goal with
  | |- ?P ∧ _ => assert (Hsome : P) by (vm_compute; eexists; reflexivity)
  end.
  split; [exact Hsome|].
  refine (only_onEventStart_adds_records fnv1a32 true clock10 32 world0 scenarioA worldA
            (OnEventStart "topClick" None None) _ 4%N
            initial_world0 run_scenarioA _ Hnone Hsome).
  vm_compute. reflexivity.
Defined.

Lemma inert_without_sink_witness :
  lock (expire worldA) = None ∧
  run fnv1a32 true clock10 32 (expire worldA) scenarioA = Returned (expire worldA).
Proof.
  split; [reflexivity|].
  exact (inert_without_sink fnv1a32 true clock10 32 (expire worldA) scenarioA eq_refl).
Defined.

Lemma empty_tag_is_not_tracked_witness :
  initial world0 ∧
  noWrap 32 world0 scenarioA ∧
  run fnv1a32 true clock10 32 world0 scenarioA = Returned worldA ∧
  eventsInFlight_ worldA !! EMPTY_EVENT_TAG = None ∧
  unchanged worldA (onEventProcessingStart clock10 EMPTY_EVENT_TAG worldA) ∧
  (∃ w', onEventProcessingEnd true clock10 EMPTY_EVENT_TAG worldA = Returned w' ∧
         unchanged worldA w').
Proof.
  assert (Hroom : noWrap 32 world0 scenarioA) by (vm_compute; reflexivity).
  split; [exact initial_world0|]. split; [exact Hroom|]. split; [exact run_scenarioA|].
  exact (empty_tag_is_not_tracked fnv1a32 true clock10 32 world0 scenarioA worldA
           initial_world0 Hroom run_scenarioA).
Defined.

(** In [worldRound] the next tag is 0, which is taken by the key press: a
    click started there gets tag 0 and no record. *)
Lemma onEventStart_keeps_tracked_records_witness :
  eventsInFlight_ worldRound !! 0%N = Some keydownRecord ∧
  lock worldRound ≠ None ∧
  (∃ s, s ∈ supportedRawNames ∧ fnv1a32 s = fnv1a32 "topClick") ∧
  ((sCurrentEventTag_ worldRound + 1) mod EventTag_modulus 32)%N = 0%N ∧
  eventsInFlight_ (onEventStart fnv1a32 clock10 32 "topClick" (targetOn 7) None worldRound).2
    !! 0%N = Some keydownRecord ∧
  (onEventStart fnv1a32 clock10 32 "topClick" (targetOn 7) None worldRound).1 = 0%N ∧
  sCurrentEventTag_ (onEventStart fnv1a32 clock10 32 "topClick" (targetOn 7) None worldRound).2
    = 0%N ∧
  eventsInFlight_ (onEventStart fnv1a32 clock10 32 "topClick" (targetOn 7) None worldRound).2
    = eventsInFlight_ worldRound.
Proof.
  assert (Hlook : eventsInFlight_ worldRound !! 0%N = Some keydownRecord)
    by (vm_compute; reflexivity).
  assert (Hlock : lock worldRound ≠ None) by discriminate.
  assert (Hreg : ∃ s, s ∈ supportedRawNames ∧ fnv1a32 s = fnv1a32 "topClick")
    by (exists "topClick"; split; [exact topClick_supported|reflexivity]).
  assert (Hnext : ((sCurrentEventTag_ worldRound + 1) mod EventTag_modulus 32)%N = 0%N)
    by (vm_compute; reflexivity).
  destruct (onEventStart_keeps_tracked_records fnv1a32 clock10 32 worldRound
              "topClick" (targetOn 7) None) as [Hkept Htaken].
  destruct (Htaken keydownRecord Hlock Hreg) as (Htag & Hcounter & Htable & _).
  { rewrite Hnext. exact Hlook. }
  rewrite Hnext in Htag, Hcounter.
  split; [exact Hlook|]. split; [exact Hlock|]. split; [exact Hreg|].
  split; [exact Hnext|]. split; [exact (Hkept 0%N keydownRecord Hlook)|].
  split; [exact Htag|]. split; [exact Hcounter|exact Htable].
Defined.
